(** * malloc_explicit.c: an explicit-free-list allocator with boundary tags

    A shallow embedding of [src/malloclab/malloc_explicit.c] and the
    properties its specification states about it.

    Machine model.  The allocator reads and writes its tags through
    [size_t] at 4-byte offsets ([WSIZE] = 4, "31 ... 0" in the header
    comment of the source): [size_t] and pointers are 32 bits wide, and
    every arithmetic operation on them wraps modulo 2^32.  Memory is a
    store of bytes; a word is four bytes, least significant first.  An
    access outside the region obtained from [mem_sbrk] is a [Fault]. *)

From Stdlib Require Import ZArith List Lia Bool.
Import ListNotations.
Open Scope Z_scope.

(** ** 32-bit words *)

Definition wB : Z := 4294967296.
Definition wrap (x : Z) : Z := x mod wB.

Definition NULL : Z := 0.
(** [(void * )-1], the failure value of [mem_sbrk]. *)
Definition SBRK_FAILED : Z := wB - 1.

(** ** Byte-addressed memory *)

Definition memory := Z -> Z.

Definition byte_at (m : memory) (a : Z) : Z := m a mod 256.

Definition load (m : memory) (a : Z) : Z :=
  byte_at m a + 256 * byte_at m (a + 1) + 65536 * byte_at m (a + 2)
  + 16777216 * byte_at m (a + 3).

Definition store (m : memory) (a v : Z) : memory :=
  fun x =>
    if x =? a then v mod 256
    else if x =? a + 1 then (v / 256) mod 256
    else if x =? a + 2 then (v / 65536) mod 256
    else if x =? a + 3 then (v / 16777216) mod 256
    else m x.

(** [memcpy]: the destination receives the bytes the source held before
    the call. *)
Definition copy_bytes (m : memory) (dst src n : Z) : memory :=
  fun x => if (dst <=? x) && (x <? dst + n) then m (src + (x - dst)) else m x.

(** ** What the checker prints *)

Inductive message : Type :=
| HeapBanner (hl : Z)
| BadPrologueHeader
| BadEpilogueHeader
| BlockLine (bp hsize halloc fsize falloc : Z)
| EOL (bp : Z)
| NotAligned (bp : Z)
| HeaderFooterMismatch.

(** ** Allocator state

    [mem_start_brk], [mem_brk] and [mem_avail] belong to the heap region
    (memlib); [heap_listp] is the allocator's global; [libc_freed] records
    the pointers handed to the C library's [free]; [console] is what has
    been printed, oldest first. *)

Record state : Type := mkState {
  mem : memory;
  mem_start_brk : Z;
  mem_brk : Z;
  mem_avail : Z -> Z -> bool;
  heap_listp : Z;
  libc_freed : list Z;
  console : list message
}.

Definition with_mem (m : memory) (st : state) : state :=
  mkState m (mem_start_brk st) (mem_brk st) (mem_avail st) (heap_listp st)
          (libc_freed st) (console st).

Definition with_brk (b : Z) (st : state) : state :=
  mkState (mem st) (mem_start_brk st) b (mem_avail st) (heap_listp st)
          (libc_freed st) (console st).

Definition with_heap_listp (p : Z) (st : state) : state :=
  mkState (mem st) (mem_start_brk st) (mem_brk st) (mem_avail st) p
          (libc_freed st) (console st).

Definition with_libc_freed (l : list Z) (st : state) : state :=
  mkState (mem st) (mem_start_brk st) (mem_brk st) (mem_avail st)
          (heap_listp st) l (console st).

Definition with_console (c : list message) (st : state) : state :=
  mkState (mem st) (mem_start_brk st) (mem_brk st) (mem_avail st)
          (heap_listp st) (libc_freed st) c.

(** ** The monad of the embedding: state, faults and fuel *)

Inductive outcome (A : Type) : Type :=
| Ret (a : A)
| Fault
| Timeout.
Arguments Ret {A} a.
Arguments Fault {A}.
Arguments Timeout {A}.

Definition M (A : Type) : Type := state -> outcome (A * state).

Definition ret {A} (a : A) : M A := fun st => Ret (a, st).

Definition bind {A B} (c : M A) (k : A -> M B) : M B :=
  fun st =>
    match c st with
    | Ret (a, st') => k a st'
    | Fault => Fault
    | Timeout => Timeout
    end.

Definition fault {A} : M A := fun _ => Fault.
Definition timeout {A} : M A := fun _ => Timeout.

Declare Scope alloc_scope.
Delimit Scope alloc_scope with alloc.
Notation "x <- c ;; k" := (bind c (fun x => k))
  (at level 61, c at next level, right associativity) : alloc_scope.
Notation "c ;; k" := (bind c (fun _ => k))
  (at level 61, right associativity) : alloc_scope.
Open Scope alloc_scope.

Definition in_heap (st : state) (a n : Z) : bool :=
  (mem_start_brk st <=? a) && (a + n <=? mem_brk st).

(** ** Collaborators that are not part of the source file *)

(** Modelled from the spec: the heap region's [mem_sbrk] (memlib.c is not
    among the sources).  [extend(nbytes)] returns the current end of the
    heap and appends [nbytes] fresh bytes to it, or returns the failure
    value.  Whether memory is available is the region's decision,
    [mem_avail brk nbytes]; a granted range lies inside the 32-bit address
    space. *)
Definition mem_sbrk (incr : Z) : M Z :=
  fun st =>
    if mem_avail st (mem_brk st) incr && (mem_brk st + incr <? wB)
    then Ret (mem_brk st, with_brk (mem_brk st + incr) st)
    else Ret (SBRK_FAILED, st).

(** [free] of the C library: it is handed the pointer and does not touch
    this allocator's heap. *)
Definition libc_free (p : Z) : M unit :=
  fun st => Ret (tt, with_libc_freed (libc_freed st ++ [p]) st).

(** [memcpy] of the C library; overlapping or out-of-region ranges are
    faults. *)
Definition memcpy (dst src n : Z) : M unit :=
  fun st =>
    if n =? 0 then Ret (tt, st)
    else if in_heap st dst n && in_heap st src n
            && ((dst + n <=? src) || (src + n <=? dst))
    then Ret (tt, with_mem (copy_bytes (mem st) dst src n) st)
    else Fault.

Definition print (msg : message) : M unit :=
  fun st => Ret (tt, with_console (console st ++ [msg]) st).

Definition get_heap_listp : M Z := fun st => Ret (heap_listp st, st).
Definition set_heap_listp (p : Z) : M unit :=
  fun st => Ret (tt, with_heap_listp p st).

(** ** Basic constants and macros *)

Definition WSIZE : Z := 4.
Definition DSIZE : Z := 8.
Definition PSIZE : Z := 8.
Definition CHUNKSIZE : Z := 4096.
Definition OVERHEAD : Z := 8.

Definition MAX (x y : Z) : Z := if x >? y then x else y.
Definition MIN (x y : Z) : Z := if x >? y then y else x.

Definition PACK (size alloc : Z) : Z := Z.lor size alloc.

Definition GET (p : Z) : M Z :=
  fun st => if in_heap st p 4 then Ret (load (mem st) p, st) else Fault.

Definition PUT (p val : Z) : M unit :=
  fun st =>
    if in_heap st p 4 then Ret (tt, with_mem (store (mem st) p val) st)
    else Fault.

Definition PUT_ADDR (p val : Z) : M unit := PUT p val.

Definition GET_SIZE (p : Z) : M Z := v <- GET p ;; ret (Z.land v (Z.lnot 7)).
Definition GET_ALLOC (p : Z) : M Z := v <- GET p ;; ret (Z.land v 1).

Definition HDRP (bp : Z) : Z := wrap (bp - WSIZE).
Definition FTRP (bp : Z) : M Z :=
  s <- GET_SIZE (HDRP bp) ;; ret (wrap (wrap (bp + s) - DSIZE)).

Definition NXTP (bp : Z) : Z := bp.
Definition PRVP (bp : Z) : Z := wrap (bp + PSIZE).

Definition NEXT_BLKP (bp : Z) : M Z :=
  s <- GET_SIZE (wrap (bp - WSIZE)) ;; ret (wrap (bp + s)).
Definition PREV_BLKP (bp : Z) : M Z :=
  s <- GET_SIZE (wrap (bp - DSIZE)) ;; ret (wrap (bp - s)).

Definition NEXT_BLKP_EX (bp : Z) : M Z := GET (NXTP bp).
Definition PREV_BLKP_EX (bp : Z) : M Z := GET (PRVP bp).

(** The threshold [DSIZE + 2 * PSIZE + OVERHEAD] of [place] and
    [mm_realloc]. *)
Definition MINBLOCK : Z := DSIZE + 2 * PSIZE + OVERHEAD.

(** [DSIZE * ((size + OVERHEAD + 2 * PSIZE + (DSIZE - 1)) / DSIZE)] in
    [size_t] arithmetic. *)
Definition realSize_of (size : Z) : Z :=
  wrap (DSIZE * (wrap (size + OVERHEAD + 2 * PSIZE + (DSIZE - 1)) / DSIZE)).

(** ** The explicit free list *)

Definition insertblock (bp : Z) : M unit :=
  hl <- get_heap_listp ;;
  tmp <- NEXT_BLKP_EX hl ;;
  PUT_ADDR (NXTP bp) tmp ;;
  (if tmp =? NULL then ret tt else PUT_ADDR (PRVP tmp) bp) ;;
  PUT_ADDR (PRVP bp) hl ;;
  PUT_ADDR (NXTP hl) bp.

Definition deleteblock (bp : Z) : M unit :=
  nxt <- NEXT_BLKP_EX bp ;;
  prv <- PREV_BLKP_EX bp ;;
  (if nxt =? NULL then ret tt else PUT_ADDR (PRVP nxt) prv) ;;
  PUT_ADDR (NXTP prv) nxt.

(** ** coalesce *)

Definition coalesce (bp : Z) : M Z :=
  pb <- PREV_BLKP bp ;;
  pf <- FTRP pb ;;
  prev_alloc <- GET_ALLOC pf ;;
  nb <- NEXT_BLKP bp ;;
  next_alloc <- GET_ALLOC (HDRP nb) ;;
  size <- GET_SIZE (HDRP bp) ;;
  r <- (if prev_alloc =? 0 then
          prv <- PREV_BLKP bp ;;
          ps <- GET_SIZE (HDRP prv) ;;
          let size := wrap (size + ps) in
          f <- FTRP bp ;;
          PUT f (PACK size 0) ;;
          PUT (HDRP prv) (PACK size 0) ;;
          deleteblock prv ;;
          ret (prv, size)
        else ret (bp, size)) ;;
  let bp := fst r in
  let size := snd r in
  (if next_alloc =? 0 then
     nxt <- NEXT_BLKP bp ;;
     ns <- GET_SIZE (HDRP nxt) ;;
     let size := wrap (size + ns) in
     deleteblock nxt ;;
     PUT (HDRP bp) (PACK size 0) ;;
     f <- FTRP bp ;;
     PUT f (PACK size 0)
   else ret tt) ;;
  insertblock bp ;;
  ret bp.

(** ** extend_heap *)

Definition extend_heap (words : Z) : M Z :=
  let size := if words mod 2 =? 0 then wrap (words * WSIZE)
              else wrap (wrap (words + 1) * WSIZE) in
  bp <- mem_sbrk size ;;
  if bp =? SBRK_FAILED then ret NULL
  else
    PUT (HDRP bp) (PACK size 0) ;;
    f <- FTRP bp ;;
    PUT f (PACK size 0) ;;
    nb <- NEXT_BLKP bp ;;
    PUT (HDRP nb) (PACK 0 1) ;;
    coalesce bp.

(** ** place *)

Definition place (bp asize : Z) : M unit :=
  csize <- GET_SIZE (HDRP bp) ;;
  deleteblock bp ;;
  if MINBLOCK <=? wrap (csize - asize) then
    PUT (HDRP bp) (PACK asize 1) ;;
    f <- FTRP bp ;;
    PUT f (PACK asize 1) ;;
    bp <- NEXT_BLKP bp ;;
    PUT (HDRP bp) (PACK (wrap (csize - asize)) 0) ;;
    f <- FTRP bp ;;
    PUT f (PACK (wrap (csize - asize)) 0) ;;
    insertblock bp
  else
    PUT (HDRP bp) (PACK csize 1) ;;
    f <- FTRP bp ;;
    PUT f (PACK csize 1).

(** ** find_fit (first fit; [NEXT_FIT] is not defined) *)

Fixpoint find_fit_loop (fuel : nat) (asize bp : Z) : M Z :=
  match fuel with
  | O => timeout
  | S fuel' =>
      if bp =? NULL then ret NULL
      else
        s <- GET_SIZE (HDRP bp) ;;
        if asize <=? s then ret bp
        else nxt <- NEXT_BLKP_EX bp ;; find_fit_loop fuel' asize nxt
  end.

Definition find_fit (fuel : nat) (asize : Z) : M Z :=
  hl <- get_heap_listp ;;
  bp <- NEXT_BLKP_EX hl ;;
  find_fit_loop fuel asize bp.

(** ** mm_init *)

Definition mm_init : M Z :=
  p <- mem_sbrk (4 * WSIZE + 2 * PSIZE) ;;
  set_heap_listp p ;;
  if p =? SBRK_FAILED then ret (-1)
  else
    hl <- get_heap_listp ;;
    PUT hl 0 ;;
    PUT (wrap (hl + WSIZE)) (PACK (OVERHEAD + 2 * PSIZE) 1) ;;
    PUT_ADDR (wrap (hl + DSIZE)) NULL ;;
    PUT_ADDR (wrap (hl + DSIZE + PSIZE)) NULL ;;
    PUT (wrap (hl + DSIZE + 2 * PSIZE)) (PACK (OVERHEAD + 2 * PSIZE) 1) ;;
    PUT (wrap (hl + WSIZE + DSIZE + 2 * PSIZE)) (PACK 0 1) ;;
    set_heap_listp (wrap (hl + DSIZE)) ;;
    ret 0.

(** ** mm_malloc *)

Definition mm_malloc (fuel : nat) (size : Z) : M Z :=
  if size =? 0 then ret NULL
  else
    let realSize := realSize_of size in
    bp <- find_fit fuel realSize ;;
    if negb (bp =? NULL) then place bp realSize ;; ret bp
    else
      bp <- extend_heap (realSize / WSIZE) ;;
      if bp =? NULL then ret NULL
      else place bp realSize ;; ret bp.

(** ** mm_free *)

Definition mm_free (bp : Z) : M unit :=
  a <- GET_ALLOC (HDRP bp) ;;
  if a =? 0 then ret tt
  else
    s <- GET_SIZE (HDRP bp) ;;
    PUT (HDRP bp) s ;;
    f <- FTRP bp ;;
    s <- GET_SIZE (HDRP bp) ;;
    PUT f s ;;
    r <- coalesce bp ;;
    ret tt.

(** ** mm_realloc

    Line 180 of the source calls [free], the C library's, not [mm_free]. *)

Definition mm_realloc (fuel : nat) (ptr size : Z) : M Z :=
  let realSize := realSize_of size in
  if ptr =? NULL then mm_malloc fuel realSize
  else if size =? 0 then libc_free ptr ;; ret NULL
  else
    cur <- GET_SIZE (HDRP ptr) ;;
    let remainSize := wrap (cur - realSize) in
    cur <- GET_SIZE (HDRP ptr) ;;
    if realSize <=? cur then
      (if MINBLOCK <=? remainSize then
         PUT (HDRP ptr) (PACK realSize 1) ;;
         f <- FTRP ptr ;;
         PUT f (PACK realSize 1) ;;
         nxt <- NEXT_BLKP ptr ;;
         PUT (HDRP nxt) (PACK remainSize 0) ;;
         f <- FTRP nxt ;;
         PUT f (PACK remainSize 0) ;;
         insertblock nxt
       else ret tt) ;;
      ret ptr
    else
      nxt <- NEXT_BLKP ptr ;;
      na <- GET_ALLOC (HDRP nxt) ;;
      fits <- (if na =? 0 then
                 ns <- GET_SIZE (HDRP nxt) ;; ret (remainSize <=? ns)
               else ret false) ;;
      if fits then
        deleteblock nxt ;;
        s1 <- GET_SIZE (HDRP ptr) ;;
        s2 <- GET_SIZE (HDRP nxt) ;;
        let totalSize := wrap (s1 + s2) in
        (if MINBLOCK <=? wrap (totalSize - realSize) then
           PUT (HDRP ptr) (PACK realSize 1) ;;
           f <- FTRP ptr ;;
           PUT f (PACK realSize 1) ;;
           nxt <- NEXT_BLKP ptr ;;
           PUT (HDRP nxt) (PACK (wrap (totalSize - realSize)) 0) ;;
           f <- FTRP nxt ;;
           PUT f (PACK (wrap (totalSize - realSize)) 0) ;;
           insertblock nxt
         else
           PUT (HDRP ptr) (PACK totalSize 1) ;;
           f <- FTRP ptr ;;
           PUT f (PACK totalSize 1)) ;;
        ret ptr
      else
        bp <- mm_malloc fuel realSize ;;
        if bp =? NULL then ret NULL
        else
          s <- GET_SIZE (HDRP ptr) ;;
          let copySize := MIN size s in
          memcpy bp ptr copySize ;;
          mm_free ptr ;;
          ret bp.

(** ** mm_checkheap *)

Definition printblock (bp : Z) : M unit :=
  hsize <- GET_SIZE (HDRP bp) ;;
  halloc <- GET_ALLOC (HDRP bp) ;;
  f <- FTRP bp ;;
  fsize <- GET_SIZE f ;;
  f <- FTRP bp ;;
  falloc <- GET_ALLOC f ;;
  if hsize =? 0 then print (EOL bp)
  else print (BlockLine bp hsize halloc fsize falloc).

Definition checkblock (bp : Z) : M unit :=
  (if bp mod 8 =? 0 then ret tt else print (NotAligned bp)) ;;
  h <- GET (HDRP bp) ;;
  f <- FTRP bp ;;
  fv <- GET f ;;
  if h =? fv then ret tt else print HeaderFooterMismatch.

Fixpoint checkheap_loop (fuel : nat) (verbose : bool) (bp : Z) : M Z :=
  match fuel with
  | O => timeout
  | S fuel' =>
      s <- GET_SIZE (HDRP bp) ;;
      if 0 <? s then
        (if verbose then printblock bp else ret tt) ;;
        checkblock bp ;;
        nb <- NEXT_BLKP bp ;;
        checkheap_loop fuel' verbose nb
      else ret bp
  end.

Definition mm_checkheap (fuel : nat) (verbose : bool) : M unit :=
  hl <- get_heap_listp ;;
  (if verbose then print (HeapBanner hl) else ret tt) ;;
  s <- GET_SIZE (HDRP hl) ;;
  a <- (if s =? DSIZE then GET_ALLOC (HDRP hl) else ret 1) ;;
  (if negb (s =? DSIZE) || (a =? 0) then print BadPrologueHeader else ret tt) ;;
  checkblock hl ;;
  bp <- checkheap_loop fuel verbose hl ;;
  (if verbose then printblock bp else ret tt) ;;
  s <- GET_SIZE (HDRP bp) ;;
  a <- (if s =? 0 then GET_ALLOC (HDRP bp) else ret 1) ;;
  if negb (s =? 0) || (a =? 0) then print BadEpilogueHeader else ret tt.

(** ** A caller that writes into a payload *)

Fixpoint caller_write (p : Z) (bytes : list Z) : M unit :=
  match bytes with
  | [] => ret tt
  | b :: rest =>
      (fun st =>
         if in_heap st p 1
         then Ret (tt, with_mem (fun x => if x =? p then b mod 256 else mem st x) st)
         else Fault) ;;
      caller_write (p + 1) rest
  end.

(** ** The heap as a sequence of blocks

    A block is its size and its allocated bit; the tag word of a block
    packs the two.  The blocks of a heap tile it from the prologue on:
    [placed bp bs] gives every block of [bs] the payload address it has
    when the first one sits at [bp]. *)

Definition block : Type := (Z * bool)%type.

Definition tag (b : block) : Z := fst b + (if snd b then 1 else 0).

Fixpoint total (bs : list block) : Z :=
  match bs with
  | [] => 0
  | b :: r => fst b + total r
  end.

Fixpoint placed (bp : Z) (bs : list block) : list (Z * block) :=
  match bs with
  | [] => []
  | b :: r => (bp, b) :: placed (bp + fst b) r
  end.

(** Sizes are multiples of the alignment and leave room for the tags and
    the two links ([24] for the prologue, at least [MINBLOCK] otherwise). *)
Definition wf_block (b : block) : Prop := 24 <= fst b /\ fst b mod 8 = 0.
Definition wf_user (b : block) : Prop := MINBLOCK <= fst b /\ fst b mod 8 = 0.

(** Header and footer of every block hold its tag. *)
Definition tags (m : memory) (bp : Z) (bs : list block) : Prop :=
  forall x b, In (x, b) (placed bp bs) ->
              load m (x - 4) = tag b /\ load m (x + fst b - 8) = tag b.

(** The free list from the node [prev] on: forward links in the first
    word of a payload, backward links eight bytes further. *)
Fixpoint flist (m : memory) (prev : Z) (fl : list Z) : Prop :=
  match fl with
  | [] => load m prev = 0
  | x :: r => load m prev = x /\ load m (x + 8) = prev /\ flist m x r
  end.

Definition prologue : block := (24, true).

(** [Rep st bs fl]: the heap of [st] consists of the prologue, the user
    blocks [bs] and the epilogue, and its free list holds the nodes [fl],
    each of them a free block of [bs]. *)
Record Rep (st : state) (bs : list block) (fl : list Z) : Prop := mkRep {
  rep_lo : 0 <= mem_start_brk st;
  rep_align : mem_start_brk st mod 8 = 0;
  rep_hl : heap_listp st = mem_start_brk st + 8;
  rep_brk : mem_brk st = mem_start_brk st + 32 + total bs;
  rep_top : mem_brk st < wB;
  rep_wf : Forall wf_user bs;
  rep_tags : tags (mem st) (mem_start_brk st + 8) (prologue :: bs);
  rep_epi : load (mem st) (mem_brk st - 4) = 1;
  rep_flist : flist (mem st) (mem_start_brk st + 8) fl;
  rep_free : forall x, In x fl ->
               exists s, In (x, (s, false)) (placed (mem_start_brk st + 32) bs);
  rep_nodup : NoDup fl
}.

(** Every free block is on the free list. *)
Definition all_listed (st : state) (bs : list block) (fl : list Z) : Prop :=
  forall x s, In (x, (s, false)) (placed (mem_start_brk st + 32) bs) -> In x fl.

(** The well-formed heaps. *)
Definition Inv (st : state) : Prop :=
  exists bs fl, Rep st bs fl /\ all_listed st bs fl.

(** [p] is the payload pointer of an allocated user block of size [s]. *)
Definition allocated_at (st : state) (bs : list block) (p s : Z) : Prop :=
  In (p, (s, true)) (placed (mem_start_brk st + 32) bs).

(** Payload bytes of the allocated user blocks of [bs] are the same in
    [m] and [m']. *)
Definition keeps (lo : Z) (bs : list block) (m m' : memory) : Prop :=
  forall y s a, In (y, (s, true)) (placed (lo + 32) bs) ->
                y <= a < y + s - 8 -> m' a = m a.

(** Everything but the memory is the same. *)
Definition same_region (st st' : state) : Prop :=
  mem_start_brk st' = mem_start_brk st /\ mem_brk st' = mem_brk st /\
  mem_avail st' = mem_avail st /\ heap_listp st' = heap_listp st /\
  libc_freed st' = libc_freed st /\ console st' = console st.

(** Follows the spec's words: no free block's physical neighbour is free.
    A walk over the block chain that answers [false] at the first pair of
    adjacent free blocks. *)
Fixpoint no_adjacent_free_from (fuel : nat) (m : memory) (bp : Z) (prev_free : bool)
  : option bool :=
  match fuel with
  | O => None
  | S fuel' =>
      let h := load m (bp - 4) in
      let s := Z.land h (Z.lnot 7) in
      let free := Z.land h 1 =? 0 in
      if s =? 0 then Some true
      else if prev_free && free then Some false
      else no_adjacent_free_from fuel' m (bp + s) free
  end.

Definition no_adjacent_free (fuel : nat) (st : state) : option bool :=
  no_adjacent_free_from fuel (mem st) (heap_listp st) false.

(** ** Free-list nodes and the memory the list operations leave *)

Definition apart (x y : Z) : Prop := x + 24 <= y \/ y + 24 <= x.

Fixpoint sep (l : list Z) : Prop :=
  match l with
  | [] => True
  | x :: r => Forall (apart x) r /\ sep r
  end.

(** The memory after [insertblock x]. *)
Definition mem_insert (m : memory) (hl x : Z) : memory :=
  let tmp := load m hl in
  let m1 := store m x tmp in
  let m2 := if tmp =? 0 then m1 else store m1 (tmp + 8) x in
  store (store m2 (x + 8) hl) hl x.

(** The memory after [deleteblock x]. *)
Definition mem_delete (m : memory) (x : Z) : memory :=
  let nxt := load m x in
  let prv := load m (x + 8) in
  store (if nxt =? 0 then m else store m (nxt + 8) prv) prv nxt.

(** ** Bytes the list operations must not touch *)

(** Tag bytes of every block, the epilogue header and the payloads of the
    allocated user blocks. *)
Definition guarded (lo : Z) (bs : list block) (a : Z) : Prop :=
  (exists x b, In (x, b) (placed (lo + 8) (prologue :: bs)) /\
               (x - 4 <= a < x \/ x + fst b - 8 <= a < x + fst b - 4))
  \/ lo + 28 + total bs <= a < lo + 32 + total bs
  \/ (exists y s, In (y, (s, true)) (placed (lo + 32) bs) /\ y <= a < y + s - 8).

Definition quiet (lo : Z) (bs : list block) (m m' : memory) : Prop :=
  forall a, guarded lo bs a -> m' a = m a.

(** The link fields: first word of the prologue's payload, first and third
    word of a free block's payload. *)
Definition link_addr (lo : Z) (bs : list block) (a : Z) : Prop :=
  a = lo + 8 \/
  exists y s, In (y, (s, false)) (placed (lo + 32) bs) /\ (a = y \/ a = y + 8).

(** ** What [place] builds *)

(** The blocks [place] leaves where the free block of size [c] was. *)
Definition placed_blocks (c a : Z) : list block :=
  if MINBLOCK <=? c - a then [(a, true); (c - a, false)] else [(c, true)].

(** ** The two halves of [coalesce] *)

(** Every free block but [x] is on the list. *)
Definition others_listed (st : state) (bs : list block) (fl : list Z) (x : Z) : Prop :=
  forall y s, In (y, (s, false)) (placed (mem_start_brk st + 32) bs) ->
              y <> x -> In y fl.

(** The allocated bit [coalesce] reads from the block after the one it
    is given: the first block of [l2], or the epilogue. *)
Definition next_bit (l2 : list block) : Z :=
  match l2 with
  | [] => 1
  | (_, a) :: _ => if a then 1 else 0
  end.

(** The second half of [coalesce]: merge with the next block when it is
    free, then insert. *)
Definition coalesce_next (next_alloc bp size : Z) : M Z :=
  (if next_alloc =? 0 then
     nxt <- NEXT_BLKP bp ;;
     ns <- GET_SIZE (HDRP nxt) ;;
     let size := wrap (size + ns) in
     deleteblock nxt ;;
     PUT (HDRP bp) (PACK size 0) ;;
     f <- FTRP bp ;;
     PUT f (PACK size 0)
   else ret tt) ;;
  insertblock bp ;;
  ret bp.

(** ** States after an allocation *)

(** What a successful allocation leaves: everything the region and the
    allocator own besides the memory and the break is as before. *)
Definition grown (st st' : state) : Prop :=
  mem_start_brk st' = mem_start_brk st /\ mem_brk st <= mem_brk st' /\
  mem_avail st' = mem_avail st /\ heap_listp st' = heap_listp st /\
  libc_freed st' = libc_freed st /\ console st' = console st.

(** ** The state [mm_init] builds *)

(** The state [mm_init] builds from [st]. *)
Definition init_mem (m : memory) (lo : Z) : memory :=
  store (store (store (store (store (store m lo 0) (lo + 4) 25) (lo + 8) 0)
                      (lo + 16) 0) (lo + 24) 25) (lo + 28) 1.

Definition init_state (st : state) : state :=
  with_heap_listp (mem_start_brk st + 8)
    (with_mem (init_mem (mem st) (mem_start_brk st))
       (with_heap_listp (mem_start_brk st)
          (with_brk (mem_start_brk st + 32) st))).

(** ** The absorb test of [mm_realloc] *)

(** The test of line 198 of the source on the block after [p]: it is free
    and its size is at least [remainSize]. *)
Definition absorbs_next (st : state) (p cur size : Z) : bool :=
  let h := load (mem st) (p + cur - 4) in
  (h mod 2 =? 0) && (wrap (cur - realSize_of size) <=? 8 * (h / 8)).

(** ** Deciding the representation on a concrete heap *)

Definition wf_userb (b : block) : bool := (MINBLOCK <=? fst b) && (fst b mod 8 =? 0).

Definition tagsb (m : memory) (bp : Z) (bs : list block) : bool :=
  forallb (fun xb => (load m (fst xb - 4) =? tag (snd xb)) &&
                     (load m (fst xb + fst (snd xb) - 8) =? tag (snd xb)))
          (placed bp bs).

Fixpoint flistb (m : memory) (prev : Z) (fl : list Z) : bool :=
  match fl with
  | [] => load m prev =? 0
  | x :: r => (load m prev =? x) && (load m (x + 8) =? prev) && flistb m x r
  end.

Definition is_free_block (x : Z) (xb : Z * block) : bool :=
  (fst xb =? x) && negb (snd (snd xb)).

Fixpoint nodupb (l : list Z) : bool :=
  match l with
  | [] => true
  | x :: r => negb (existsb (Z.eqb x) r) && nodupb r
  end.

Definition Repb (st : state) (bs : list block) (fl : list Z) : bool :=
  (0 <=? mem_start_brk st) && (mem_start_brk st mod 8 =? 0) &&
  (heap_listp st =? mem_start_brk st + 8) &&
  (mem_brk st =? mem_start_brk st + 32 + total bs) &&
  (mem_brk st <? wB) && forallb wf_userb bs &&
  tagsb (mem st) (mem_start_brk st + 8) (prologue :: bs) &&
  (load (mem st) (mem_brk st - 4) =? 1) &&
  flistb (mem st) (mem_start_brk st + 8) fl &&
  forallb (fun x => existsb (is_free_block x) (placed (mem_start_brk st + 32) bs)) fl &&
  nodupb fl.

Definition all_listedb (st : state) (bs : list block) (fl : list Z) : bool :=
  forallb (fun xb => snd (snd xb) || existsb (Z.eqb (fst xb)) fl)
          (placed (mem_start_brk st + 32) bs).

(** ** Concrete heaps *)

Definition exec {A} (c : M A) (st : state) : state :=
  match c st with
  | Ret (_, st') => st'
  | _ => st
  end.

Definition returned {A} (c : M A) (st : state) : option A :=
  match c st with
  | Ret (a, _) => Some a
  | _ => None
  end.

(** An empty region at address 65536 whose extension is decided by [avail]. *)
Definition base : Z := 65536.

Definition fresh (avail : Z -> Z -> bool) : state :=
  mkState (fun _ => 0) base base avail 0 [] [].

(** A region that grants every request, one that grants the first 64
    bytes, and one that grants nothing after the first request. *)
Definition roomy : Z -> Z -> bool := fun _ _ => true.

Definition two_blocks : Z -> Z -> bool := fun b k => b + k <=? base + 64.

Definition init_only : Z -> Z -> bool := fun b _ => b =? base.

Definition heap0 : state := exec mm_init (fresh roomy).

(** [p = mm_malloc(8)]. *)
Definition heap_one : state := exec (mm_malloc 1 8) heap0.

(** [p = mm_malloc(8); q = mm_malloc(100); mm_free(q)]. *)
Definition heap_free_next : state :=
  exec (p <- mm_malloc 1 8 ;; q <- mm_malloc 1 100 ;; mm_free q) heap0.

(** [p = mm_malloc(100); q = mm_malloc(8); mm_free(q)]. *)
Definition heap_small_free : state :=
  exec (p <- mm_malloc 1 100 ;; q <- mm_malloc 1 8 ;; mm_free q) heap0.

(** [p = mm_malloc(100)], then the caller fills the 120 bytes of payload
    with [0xAA]. *)
Definition heap_written : state :=
  exec (p <- mm_malloc 1 100 ;; caller_write p (repeat 170 120)) heap0.

(** [a = mm_malloc(64); b = mm_malloc(64); c = mm_malloc(64);
    mm_free(a); mm_free(c); mm_free(b)]. *)
Definition heap_abc : state :=
  exec (a <- mm_malloc 1 64 ;; b <- mm_malloc 1 64 ;; c <- mm_malloc 1 64 ;;
        mm_free a ;; mm_free c ;; mm_free b) heap0.

(** [mm_init(); p = mm_malloc(8)] on a region with room for two blocks. *)
Definition heap_full : state :=
  exec (mm_init ;; mm_malloc 1 8) (fresh two_blocks).

(** Header and footer of the block at [x] hold size [s] and bit [a]. *)
Definition block_at (st : state) (x s : Z) (a : bool) : Prop :=
  load (mem st) (x - 4) = tag (s, a) /\ load (mem st) (x + s - 8) = tag (s, a).

(** The first node of the free list. *)
Definition list_head (st : state) : Z := load (mem st) (heap_listp st).

(** ** Coalescing on the sequence of blocks *)

(** A free block of size [s] in front of the blocks [l2], merged with the
    first of them when that one is free (the second half of [coalesce]). *)
Definition merge_next (s : Z) (l2 : list block) : list block :=
  match l2 with
  | (sn, false) :: l2' => (s + sn, false) :: l2'
  | _ => (s, false) :: l2
  end.

(** Size of the block before the one that follows [l1] when that block is
    free, else 0.  Before the first user block sits the prologue, which is
    allocated. *)
Definition prev_free_size (l1 : list block) : Z :=
  match last l1 prologue with
  | (sp, false) => sp
  | _ => 0
  end.

(** The blocks [coalesce] leaves when it is given the free block of size
    [s] between [l1] and [l2]. *)
Definition merged (l1 : list block) (s : Z) (l2 : list block) : list block :=
  match last l1 prologue with
  | (sp, false) => removelast l1 ++ merge_next (s + sp) l2
  | _ => l1 ++ merge_next s l2
  end.

(** No two neighbours of [bs] are free; [prev_free] tells whether the block
    before [bs] is. *)
Fixpoint no_adjb (prev_free : bool) (bs : list block) : bool :=
  match bs with
  | [] => true
  | b :: r => if prev_free && negb (snd b) then false else no_adjb (negb (snd b)) r
  end.

(** ** What the verbose checker prints *)

(** The line [printblock] prints for a block whose header and footer hold
    its tag. *)
Definition block_line (xb : Z * block) : message :=
  let s := fst (snd xb) in
  let a := if snd (snd xb) then 1 else 0 in
  BlockLine (fst xb) s a s a.

(** [printblock] writes its block lines to [stderr], everything else goes
    to [stdout]. *)
Definition to_stderr (msg : message) : bool :=
  match msg with
  | BlockLine _ _ _ _ _ => true
  | _ => false
  end.

(** ** Auxiliary functions on sequences of blocks *)

(** Whether the last block of [l] is free; [pf] answers for the block
    before [l] when [l] is empty. *)
Fixpoint ends_free (pf : bool) (l : list block) : bool :=
  match l with
  | [] => pf
  | b :: r => ends_free (negb (snd b)) r
  end.

(** The user blocks without the last one when that one is free. *)
Definition front (l1 : list block) : list block :=
  match last l1 prologue with
  | (_, false) => removelast l1
  | _ => l1
  end.

(** The blocks [mm_malloc] leaves when no free block fits the rounded size
    [a]: the heap grows by [a] bytes, the new area is merged with a free
    last block, and the request is placed in the merged block. *)
Definition grown_blocks (bs : list block) (a : Z) : list block :=
  front bs ++ placed_blocks (a + prev_free_size bs) a.

(** ** More concrete heaps *)

(** [a = mm_malloc(8); b = mm_malloc(8); c = mm_malloc(8); mm_free(a);
    mm_free(c)]: two free blocks around an allocated one. *)
Definition heap_two_free : state :=
  exec (a <- mm_malloc 1 8 ;; b <- mm_malloc 1 8 ;; c <- mm_malloc 1 8 ;;
        mm_free a ;; mm_free c) heap0.

(** [heap_two_free] after the first two statements of [mm_free(b)]: the
    tags of [b] say free, and [coalesce] has not run yet. *)
Definition heap_mid : state :=
  exec (PUT 65596 32 ;; PUT 65624 32) heap_two_free.

(** [heap_abc] with its free block taken off the list. *)
Definition heap_unlinked : state := exec (deleteblock 65568) heap_abc.

(** A region that grants nothing. *)
Definition no_room : Z -> Z -> bool := fun _ _ => false.

(** The memory of [heap_one] after the caller has filled the 24 bytes of
    the payload of its block with [0xFF]. *)
Definition scribbled : memory :=
  fun a => if (65568 <=? a) && (a <? 65592) then 255 else mem heap_one a.

(** ** Quiescent points of a client *)

(** The states a client reaches that calls [mm_init] once on an empty,
    aligned region and then calls [mm_malloc] with sizes below the
    wrap-around of the size arithmetic and [mm_free] on pointers it was
    given and has not freed since, each state with the pointers the client
    holds. *)
Inductive quiescent : state -> list Z -> Prop :=
| q_init (st0 st : state) :
    mem_brk st0 = mem_start_brk st0 -> 0 <= mem_start_brk st0 ->
    mem_start_brk st0 mod 8 = 0 ->
    mm_init st0 = Ret (0, st) ->
    quiescent st []
| q_malloc (st1 st2 : state) (live : list Z) (fuel : nat) (n r : Z) :
    quiescent st1 live -> 0 < n -> n + 31 < wB ->
    mm_malloc fuel n st1 = Ret (r, st2) ->
    quiescent st2 (if r =? NULL then live else r :: live)
| q_free (st1 st2 : state) (live : list Z) (p : Z) :
    quiescent st1 live -> In p live ->
    mm_free p st1 = Ret (tt, st2) ->
    quiescent st2 (remove Z.eq_dec p live).

(** ** What the checker reports about a footer *)

(** What [checkblock] prints for an aligned block: nothing when header and
    footer hold the same word. *)
Definition footer_report (m : memory) (xb : Z * block) : list message :=
  if load m (fst xb - 4) =? load m (fst xb + fst (snd xb) - 8) then []
  else [HeaderFooterMismatch].

(** The header of every block holds its tag. *)
Definition headers (m : memory) (bp : Z) (bs : list block) : Prop :=
  forall x b, In (x, b) (placed bp bs) -> load m (x - 4) = tag b.

(** * Words, tags and memory *)

Lemma wrap_small (x : Z) : 0 <= x < wB -> wrap x = x.
Proof. intros H. unfold wrap. apply Z.mod_small. exact H. Qed.

Lemma wrap_range (x : Z) : 0 <= wrap x < wB.
Proof. unfold wrap. apply Z.mod_pos_bound. reflexivity. Qed.

Lemma wrap_mod8 (x : Z) : x mod 8 = 0 -> wrap x mod 8 = 0.
Proof.
  unfold wrap, wB. intros H.
  Z.div_mod_to_equations. lia.
Qed.

Lemma land_lnot7 (v : Z) : Z.land v (Z.lnot 7) = 8 * (v / 8).
Proof.
  rewrite <- Z.ldiff_land.
  change 7 with (Z.ones 3).
  rewrite Z.ldiff_ones_r by lia.
  rewrite Z.shiftr_div_pow2, Z.shiftl_mul_pow2 by lia.
  change (2 ^ 3) with 8. lia.
Qed.

Lemma land_1 (v : Z) : Z.land v 1 = v mod 2.
Proof. change 1 with (Z.ones 1). rewrite Z.land_ones by lia. reflexivity. Qed.

Lemma PACK_0 (s : Z) : PACK s 0 = s.
Proof. unfold PACK. apply Z.lor_0_r. Qed.

Lemma PACK_1 (s : Z) : s mod 8 = 0 -> PACK s 1 = s + 1.
Proof.
  intros H. unfold PACK.
  pose proof (Z.add_lor_land s 1) as E. rewrite land_1 in E.
  Z.div_mod_to_equations. lia.
Qed.

Lemma size_of_tag (b : block) :
  fst b mod 8 = 0 -> Z.land (tag b) (Z.lnot 7) = fst b.
Proof.
  intros H. rewrite land_lnot7. unfold tag.
  destruct (snd b); Z.div_mod_to_equations; lia.
Qed.

Lemma alloc_of_tag (b : block) :
  fst b mod 8 = 0 -> Z.land (tag b) 1 = if snd b then 1 else 0.
Proof.
  intros H. rewrite land_1. unfold tag.
  destruct (snd b); Z.div_mod_to_equations; lia.
Qed.

Lemma byte_at_range (m : memory) (a : Z) : 0 <= byte_at m a < 256.
Proof. unfold byte_at. apply Z.mod_pos_bound. reflexivity. Qed.

Lemma load_range (m : memory) (a : Z) : 0 <= load m a < wB.
Proof.
  unfold load, wB.
  pose proof (byte_at_range m a). pose proof (byte_at_range m (a + 1)).
  pose proof (byte_at_range m (a + 2)). pose proof (byte_at_range m (a + 3)).
  lia.
Qed.

Lemma load_ext (m m' : memory) (a : Z) :
  (forall x, a <= x < a + 4 -> m' x = m x) -> load m' a = load m a.
Proof.
  intros H. unfold load, byte_at.
  rewrite (H a), (H (a + 1)), (H (a + 2)), (H (a + 3)) by lia. reflexivity.
Qed.

Lemma store_out (m : memory) (a v x : Z) :
  x < a \/ a + 4 <= x -> store m a v x = m x.
Proof.
  intros H. unfold store.
  destruct (Z.eqb_spec x a); [lia|].
  destruct (Z.eqb_spec x (a + 1)); [lia|].
  destruct (Z.eqb_spec x (a + 2)); [lia|].
  destruct (Z.eqb_spec x (a + 3)); [lia|].
  reflexivity.
Qed.

Lemma load_store_other (m : memory) (a v b : Z) :
  b + 4 <= a \/ a + 4 <= b -> load (store m a v) b = load m b.
Proof.
  intros H. apply load_ext. intros x Hx. apply store_out. lia.
Qed.

Lemma bytes_of_word (v : Z) :
  0 <= v < wB ->
  v mod 256 + 256 * ((v / 256) mod 256) + 65536 * ((v / 65536) mod 256)
  + 16777216 * ((v / 16777216) mod 256) = v.
Proof.
  unfold wB. intros H. Z.div_mod_to_equations. lia.
Qed.

Lemma load_store_same (m : memory) (a v : Z) :
  0 <= v < wB -> load (store m a v) a = v.
Proof.
  intros H. unfold load, byte_at, store.
  rewrite Z.eqb_refl.
  destruct (Z.eqb_spec (a + 1) a); [lia|].
  rewrite Z.eqb_refl.
  destruct (Z.eqb_spec (a + 2) a); [lia|].
  destruct (Z.eqb_spec (a + 2) (a + 1)); [lia|].
  rewrite Z.eqb_refl.
  destruct (Z.eqb_spec (a + 3) a); [lia|].
  destruct (Z.eqb_spec (a + 3) (a + 1)); [lia|].
  destruct (Z.eqb_spec (a + 3) (a + 2)); [lia|].
  rewrite Z.eqb_refl.
  rewrite !Z.mod_mod by lia.
  apply bytes_of_word. exact H.
Qed.

Lemma copy_bytes_in (m : memory) (dst src n i : Z) :
  0 <= i < n -> copy_bytes m dst src n (dst + i) = m (src + i).
Proof.
  intros H. unfold copy_bytes.
  destruct (Z.leb_spec dst (dst + i)); [|lia].
  destruct (Z.ltb_spec (dst + i) (dst + n)); [|lia].
  simpl. f_equal. lia.
Qed.

Lemma copy_bytes_out (m : memory) (dst src n x : Z) :
  x < dst \/ dst + n <= x -> copy_bytes m dst src n x = m x.
Proof.
  intros H. unfold copy_bytes.
  destruct (Z.leb_spec dst x); destruct (Z.ltb_spec x (dst + n)); simpl;
    try reflexivity; lia.
Qed.

(** * Running the monad *)

Lemma bind_run {A B} (c : M A) (k : A -> M B) (st st1 : state) (a : A) :
  c st = Ret (a, st1) -> bind c k st = k a st1.
Proof. intros H. unfold bind. rewrite H. reflexivity. Qed.

Lemma bind_assoc {A B C} (c : M A) (f : A -> M B) (g : B -> M C) (st : state) :
  bind (bind c f) g st = bind c (fun a => bind (f a) g) st.
Proof. unfold bind. destruct (c st) as [[a st1]| |]; reflexivity. Qed.

Lemma bind_inv {A B} (c : M A) (k : A -> M B) (st st2 : state) (b : B) :
  bind c k st = Ret (b, st2) ->
  exists a st1, c st = Ret (a, st1) /\ k a st1 = Ret (b, st2).
Proof.
  unfold bind. destruct (c st) as [[a st1]| |]; try discriminate.
  intros H. exists a, st1. split; [reflexivity|exact H].
Qed.

Lemma in_heap_true (st : state) (a n : Z) :
  mem_start_brk st <= a -> a + n <= mem_brk st -> in_heap st a n = true.
Proof.
  intros H1 H2. unfold in_heap.
  apply andb_true_intro. split; apply Z.leb_le; assumption.
Qed.

Lemma GET_run (st : state) (p : Z) :
  mem_start_brk st <= p -> p + 4 <= mem_brk st ->
  GET p st = Ret (load (mem st) p, st).
Proof. intros H1 H2. unfold GET. rewrite in_heap_true by assumption. reflexivity. Qed.

Lemma PUT_run (st : state) (p v : Z) :
  mem_start_brk st <= p -> p + 4 <= mem_brk st ->
  PUT p v st = Ret (tt, with_mem (store (mem st) p v) st).
Proof. intros H1 H2. unfold PUT. rewrite in_heap_true by assumption. reflexivity. Qed.

Lemma GET_SIZE_run (st : state) (p : Z) :
  mem_start_brk st <= p -> p + 4 <= mem_brk st ->
  GET_SIZE p st = Ret (8 * (load (mem st) p / 8), st).
Proof.
  intros H1 H2. unfold GET_SIZE.
  rewrite (bind_run _ _ _ _ _ (GET_run st p H1 H2)).
  unfold ret. rewrite land_lnot7. reflexivity.
Qed.

Lemma GET_ALLOC_run (st : state) (p : Z) :
  mem_start_brk st <= p -> p + 4 <= mem_brk st ->
  GET_ALLOC p st = Ret (load (mem st) p mod 2, st).
Proof.
  intros H1 H2. unfold GET_ALLOC.
  rewrite (bind_run _ _ _ _ _ (GET_run st p H1 H2)).
  unfold ret. rewrite land_1. reflexivity.
Qed.

Lemma tag_size (b : block) : fst b mod 8 = 0 -> 8 * (tag b / 8) = fst b.
Proof. intros H. rewrite <- land_lnot7. apply size_of_tag. exact H. Qed.

Lemma tag_alloc (b : block) :
  fst b mod 8 = 0 -> tag b mod 2 = if snd b then 1 else 0.
Proof. intros H. rewrite <- land_1. apply alloc_of_tag. exact H. Qed.

(** * Sequences of blocks *)

Lemma wf_user_block (b : block) : wf_user b -> wf_block b.
Proof. unfold wf_user, wf_block, MINBLOCK, DSIZE, PSIZE, OVERHEAD. lia. Qed.

Lemma Forall_wf_user_block (bs : list block) :
  Forall wf_user bs -> Forall wf_block bs.
Proof. apply Forall_impl. exact wf_user_block. Qed.

Lemma wf_prologue : wf_block prologue.
Proof. unfold wf_block, prologue. simpl. split; [lia|reflexivity]. Qed.

Lemma total_app (l1 l2 : list block) : total (l1 ++ l2) = total l1 + total l2.
Proof. induction l1 as [|b l1 IH]; simpl; lia. Qed.

Lemma total_nonneg (bs : list block) : Forall wf_block bs -> 0 <= total bs.
Proof.
  induction 1 as [|b bs Hb _ IH]; simpl; [lia|].
  unfold wf_block in Hb. lia.
Qed.

Lemma total_mod8 (bs : list block) : Forall wf_block bs -> total bs mod 8 = 0.
Proof.
  induction 1 as [|b bs Hb _ IH]; simpl; [reflexivity|].
  unfold wf_block in Hb. Z.div_mod_to_equations. lia.
Qed.

Lemma placed_app (bp : Z) (l1 l2 : list block) :
  placed bp (l1 ++ l2) = placed bp l1 ++ placed (bp + total l1) l2.
Proof.
  revert bp. induction l1 as [|b l1 IH]; intros bp; simpl.
  - f_equal. lia.
  - rewrite IH, Z.add_assoc. reflexivity.
Qed.

Lemma placed_mid (bp : Z) (l1 l2 : list block) (b : block) :
  In (bp + total l1, b) (placed bp (l1 ++ b :: l2)).
Proof. rewrite placed_app. apply in_or_app. right. simpl. left. reflexivity. Qed.

Lemma placed_split (bp x : Z) (b : block) (bs : list block) :
  In (x, b) (placed bp bs) ->
  exists l1 l2, bs = l1 ++ b :: l2 /\ x = bp + total l1.
Proof.
  revert bp. induction bs as [|c bs IH]; intros bp H; simpl in H; [contradiction|].
  destruct H as [H|H].
  - inversion H; subst. exists [], bs. simpl. split; [reflexivity|lia].
  - destruct (IH _ H) as (l1 & l2 & E1 & E2).
    exists (c :: l1), l2. subst. simpl. split; [reflexivity|lia].
Qed.

Lemma placed_In (bp x : Z) (b : block) (bs : list block) :
  In (x, b) (placed bp bs) -> In b bs.
Proof.
  intros H. destruct (placed_split _ _ _ _ H) as (l1 & l2 & E & _).
  subst. apply in_or_app. right. left. reflexivity.
Qed.

Lemma placed_bounds (bp x : Z) (b : block) (bs : list block) :
  Forall wf_block bs -> In (x, b) (placed bp bs) ->
  bp <= x /\ x + fst b <= bp + total bs.
Proof.
  intros W H. destruct (placed_split _ _ _ _ H) as (l1 & l2 & E & Ex). subst.
  apply Forall_app in W. destruct W as [W1 W2].
  inversion W2 as [|? ? Wb W3]; subst.
  pose proof (total_nonneg _ W1). pose proof (total_nonneg _ W3).
  rewrite total_app. simpl. lia.
Qed.

Lemma placed_wf (bp x : Z) (b : block) (bs : list block) (P : block -> Prop) :
  Forall P bs -> In (x, b) (placed bp bs) -> P b.
Proof.
  intros W H. rewrite Forall_forall in W. apply W. eapply placed_In. exact H.
Qed.

Lemma placed_mod8 (bp x : Z) (b : block) (bs : list block) :
  Forall wf_block bs -> bp mod 8 = 0 -> In (x, b) (placed bp bs) -> x mod 8 = 0.
Proof.
  intros W A H. destruct (placed_split _ _ _ _ H) as (l1 & l2 & E & Ex). subst.
  apply Forall_app in W. destruct W as [W1 _].
  pose proof (total_mod8 _ W1). Z.div_mod_to_equations. lia.
Qed.

Lemma placed_sep (bp x1 x2 : Z) (b1 b2 : block) (bs : list block) :
  Forall wf_block bs ->
  In (x1, b1) (placed bp bs) -> In (x2, b2) (placed bp bs) ->
  (x1 = x2 /\ b1 = b2) \/ x1 + fst b1 <= x2 \/ x2 + fst b2 <= x1.
Proof.
  revert bp. induction bs as [|c bs IH]; intros bp W H1 H2; simpl in *; [contradiction|].
  inversion W as [|? ? Wc W']; subst.
  destruct H1 as [H1|H1], H2 as [H2|H2].
  - inversion H1; inversion H2; subst. left. split; reflexivity.
  - inversion H1; subst. right. left.
    pose proof (placed_bounds _ _ _ _ W' H2). lia.
  - inversion H2; subst. right. right.
    pose proof (placed_bounds _ _ _ _ W' H1). lia.
  - eapply IH; eassumption.
Qed.

Lemma placed_fun (bp x : Z) (b1 b2 : block) (bs : list block) :
  Forall wf_block bs ->
  In (x, b1) (placed bp bs) -> In (x, b2) (placed bp bs) -> b1 = b2.
Proof.
  intros W H1 H2.
  pose proof (placed_wf _ _ _ _ _ W H1) as [? _].
  pose proof (placed_wf _ _ _ _ _ W H2) as [? _].
  destruct (placed_sep _ _ _ _ _ _ W H1 H2) as [[_ E]|[L|L]]; [exact E|lia|lia].
Qed.

(** * Tags *)

Lemma tags_app (m : memory) (bp : Z) (l1 l2 : list block) :
  tags m bp (l1 ++ l2) <-> tags m bp l1 /\ tags m (bp + total l1) l2.
Proof.
  unfold tags. rewrite placed_app. split.
  - intros H. split; intros x b Hin; apply H; apply in_or_app; auto.
  - intros [H1 H2] x b Hin. apply in_app_or in Hin. destruct Hin; auto.
Qed.

Lemma tags_nil (m : memory) (bp : Z) : tags m bp [].
Proof. intros x b H. contradiction. Qed.

Lemma tags_cons (m : memory) (bp : Z) (b : block) (bs : list block) :
  tags m bp (b :: bs) <->
  (load m (bp - 4) = tag b /\ load m (bp + fst b - 8) = tag b)
  /\ tags m (bp + fst b) bs.
Proof.
  unfold tags. simpl. split.
  - intros H. split; [apply H; left; reflexivity|].
    intros x c Hin. apply H. right. exact Hin.
  - intros [H1 H2] x c [Hin|Hin]; [inversion Hin; subst; exact H1|auto].
Qed.

Lemma tags_ext (m m' : memory) (bp : Z) (bs : list block) :
  tags m bp bs ->
  (forall x b, In (x, b) (placed bp bs) ->
               load m' (x - 4) = load m (x - 4) /\
               load m' (x + fst b - 8) = load m (x + fst b - 8)) ->
  tags m' bp bs.
Proof.
  intros T E x b Hin. destruct (E x b Hin) as [E1 E2].
  rewrite E1, E2. apply T. exact Hin.
Qed.

Lemma tags_store_lo (m : memory) (bp a v : Z) (bs : list block) :
  Forall wf_block bs -> tags m bp bs -> a + 4 <= bp - 4 ->
  tags (store m a v) bp bs.
Proof.
  intros W T Ha. apply (tags_ext m); [exact T|].
  intros x b Hin. pose proof (placed_bounds _ _ _ _ W Hin).
  pose proof (placed_wf _ _ _ _ _ W Hin) as [? _].
  split; apply load_store_other; lia.
Qed.

Lemma tags_store_hi (m : memory) (bp a v : Z) (bs : list block) :
  Forall wf_block bs -> tags m bp bs -> bp + total bs - 4 <= a ->
  tags (store m a v) bp bs.
Proof.
  intros W T Ha. apply (tags_ext m); [exact T|].
  intros x b Hin. pose proof (placed_bounds _ _ _ _ W Hin).
  pose proof (placed_wf _ _ _ _ _ W Hin) as [? _].
  split; apply load_store_other; lia.
Qed.

Lemma tags_store_payload (m : memory) (bp a v x : Z) (b : block) (bs : list block) :
  Forall wf_block bs -> tags m bp bs ->
  In (x, b) (placed bp bs) -> x <= a -> a + 4 <= x + fst b - 8 ->
  tags (store m a v) bp bs.
Proof.
  intros W T Hx L1 L2. apply (tags_ext m); [exact T|].
  intros y c Hin.
  pose proof (placed_wf _ _ _ _ _ W Hin) as [? _].
  pose proof (placed_wf _ _ _ _ _ W Hx) as [? _].
  destruct (placed_sep _ _ _ _ _ _ W Hx Hin) as [[E1 E2]|[L|L]];
    subst; split; apply load_store_other; lia.
Qed.

(** * Free lists *)

Lemma apart_sym (x y : Z) : apart x y -> apart y x.
Proof. unfold apart. lia. Qed.

Lemma sep_app (l1 l2 : list Z) :
  sep (l1 ++ l2) <->
  sep l1 /\ sep l2 /\ (forall x y, In x l1 -> In y l2 -> apart x y).
Proof.
  induction l1 as [|a l1 IH]; simpl.
  - split; [intros H; repeat split; [exact H|intros x y []]|intros (_ & H & _); exact H].
  - rewrite IH, Forall_app, !Forall_forall. split.
    + intros ((F1 & F2) & S1 & S2 & C). repeat split; try assumption.
      intros x y [E|Hx] Hy; [subst; apply F2; exact Hy|apply C; assumption].
    + intros ((F1 & S1) & S2 & C). repeat split; try assumption.
      * intros y Hy. apply C; [left; reflexivity|exact Hy].
      * intros x y Hx Hy. apply C; [right; exact Hx|exact Hy].
Qed.

Lemma sep_In (h x : Z) (l : list Z) : sep (h :: l) -> In x l -> apart h x.
Proof. simpl. intros [F _] H. rewrite Forall_forall in F. apply F. exact H. Qed.

Lemma sep_tail (h : Z) (l : list Z) : sep (h :: l) -> sep l.
Proof. simpl. intros [_ S]. exact S. Qed.

Lemma sep_drop (h x : Z) (l : list Z) : sep (h :: x :: l) -> sep (h :: l).
Proof.
  simpl. intros (F & _ & S). inversion F; subst. split; assumption.
Qed.

(** A store that touches neither link of any node leaves the list as it is. *)
Lemma flist_store (m : memory) (h a v : Z) (fl : list Z) :
  flist m h fl ->
  (a + 4 <= h \/ h + 4 <= a) ->
  Forall (fun y => a + 4 <= y \/ y + 12 <= a \/ (y + 4 <= a /\ a + 4 <= y + 8)) fl ->
  flist (store m a v) h fl.
Proof.
  revert h. induction fl as [|x fl IH]; intros h F Hh Hfl; simpl in *.
  - rewrite load_store_other by lia. exact F.
  - inversion Hfl as [|? ? Hx Hfl']; subst.
    destruct F as (F1 & F2 & F3).
    rewrite !load_store_other by lia.
    repeat split; try assumption.
    apply IH; [exact F3|lia|exact Hfl'].
Qed.

Lemma flist_ext (m m' : memory) (h : Z) (fl : list Z) :
  flist m h fl ->
  load m' h = load m h ->
  (forall y, In y fl -> load m' y = load m y /\ load m' (y + 8) = load m (y + 8)) ->
  flist m' h fl.
Proof.
  revert h. induction fl as [|x fl IH]; intros h F Hh Hfl; simpl in *.
  - rewrite Hh. exact F.
  - destruct F as (F1 & F2 & F3).
    destruct (Hfl x (or_introl eq_refl)) as [E1 E2].
    rewrite Hh, E2. repeat split; try assumption.
    apply IH; [exact F3|exact E1|]. intros y Hy. apply Hfl. right. exact Hy.
Qed.

Lemma last_cons (z h : Z) (l : list Z) : last (z :: l) h = last l z.
Proof.
  revert z h. induction l as [|t l IH]; intros z h; [reflexivity|].
  change (last (z :: t :: l) h) with (last (t :: l) h).
  rewrite IH. symmetry. apply IH.
Qed.

Lemma flist_fields (m : memory) (h x : Z) (l1 l2 : list Z) :
  flist m h (l1 ++ x :: l2) ->
  load m (x + 8) = last l1 h /\ load m x = hd 0 l2.
Proof.
  revert h. induction l1 as [|z l1 IH]; intros h F; simpl in F.
  - destruct F as (F1 & F2 & F3). split; [exact F2|].
    destruct l2 as [|t l2]; simpl in *; [exact F3|tauto].
  - destruct F as (F1 & F2 & F3). destruct (IH _ F3) as [E1 E2].
    split; [|exact E2]. rewrite E1. symmetry. apply last_cons.
Qed.

Lemma last_In_cons (h : Z) (l : list Z) : In (last l h) (h :: l).
Proof.
  revert h. induction l as [|z l IH]; intros h; [left; reflexivity|].
  rewrite last_cons. right. apply IH.
Qed.

Ltac ls :=
  repeat first [ rewrite load_store_same by (unfold wB in *; lia)
               | rewrite load_store_other by lia ].

Lemma flist_insert (m : memory) (hl x : Z) (fl : list Z) :
  flist m hl fl -> sep (hl :: x :: fl) ->
  0 <= hl < wB -> 0 <= x < wB -> Forall (fun y => 0 < y) fl ->
  flist (mem_insert m hl x) hl (x :: fl).
Proof.
  intros F S Hhl Hx Hpos. unfold mem_insert.
  pose proof (sep_In _ x _ S (or_introl eq_refl)) as Ahx.
  pose proof (load_range m hl) as Rt.
  unfold apart in Ahx.
  destruct fl as [|t fl]; simpl in F.
  - rewrite F. simpl. repeat split; ls; reflexivity.
  - destruct F as (F1 & F2 & F3). rewrite F1.
    pose proof (Forall_inv Hpos) as Ht. simpl in Ht.
    destruct (Z.eqb_spec t 0) as [E|_]; [lia|].
    pose proof (sep_In _ t _ S (or_intror (or_introl eq_refl))) as Aht.
    pose proof (sep_In _ t _ (sep_tail _ _ S) (or_introl eq_refl)) as Axt.
    unfold apart in Aht, Axt.
    assert (Rt' : 0 <= t < wB) by (rewrite <- F1; exact Rt).
    simpl. repeat split; ls; try reflexivity.
    assert (St : sep (t :: fl)) by (apply sep_tail in S; apply sep_tail in S; exact S).
    assert (Sx : sep (x :: fl)) by (apply sep_tail in S; apply sep_drop in S; exact S).
    assert (Sh : sep (hl :: fl)) by (apply sep_drop in S; apply sep_drop in S; exact S).
    apply flist_store; [apply flist_store; [apply flist_store; [apply flist_store|..]|..]|..];
      try exact F3; try lia;
      apply Forall_forall; intros y Hy;
      pose proof (sep_In _ _ _ St Hy) as A1;
      pose proof (sep_In _ _ _ Sx Hy) as A2;
      pose proof (sep_In _ _ _ Sh Hy) as A3;
      unfold apart in A1, A2, A3; lia.
Qed.

Lemma flist_delete (m : memory) (h x : Z) (l1 l2 : list Z) :
  flist m h (l1 ++ x :: l2) -> sep (h :: l1 ++ x :: l2) ->
  0 <= h < wB -> Forall (fun y => 0 < y < wB) (l1 ++ x :: l2) ->
  flist (mem_delete m x) h (l1 ++ l2).
Proof.
  revert h. induction l1 as [|z l1 IH]; intros h F S Hh Hpos.
  - simpl in *. destruct F as (F1 & F2 & F3).
    unfold mem_delete. rewrite F2.
    pose proof (sep_In _ x _ S (or_introl eq_refl)) as Ahx.
    unfold apart in Ahx.
    destruct l2 as [|t l2]; simpl in *.
    + rewrite F3. simpl. ls. reflexivity.
    + destruct F3 as (G1 & G2 & G3). rewrite G1.
      pose proof (Forall_inv Hpos) as Hx.
      pose proof (Forall_inv (Forall_inv_tail Hpos)) as Ht. simpl in Hx, Ht.
      destruct (Z.eqb_spec t 0) as [E|_]; [lia|].
      pose proof (sep_In _ t _ S (or_intror (or_introl eq_refl))) as Aht.
      unfold apart in Aht.
      pose proof (load_range m x) as Rt. rewrite G1 in Rt.
      repeat split; ls; try reflexivity.
      assert (St : sep (t :: l2)) by (apply sep_tail in S; apply sep_tail in S; exact S).
      assert (Sh : sep (h :: l2)) by (apply sep_drop in S; apply sep_drop in S; exact S).
      apply flist_store; [apply flist_store|..]; try exact G3; try lia;
        apply Forall_forall; intros y Hy;
        pose proof (sep_In _ _ _ St Hy) as A1;
        pose proof (sep_In _ _ _ Sh Hy) as A3;
        unfold apart in A1, A3; lia.
  - simpl in F. destruct F as (F1 & F2 & F3).
    assert (Sz : sep (z :: l1 ++ x :: l2)) by (apply sep_tail in S; exact S).
    pose proof (Forall_inv Hpos) as Hz. simpl in Hz.
    pose proof (Forall_inv_tail Hpos) as Hpos'.
    specialize (IH z F3 Sz ltac:(lia) Hpos').
    destruct (flist_fields _ _ _ _ _ F3) as [Ep En].
    simpl. unfold mem_delete in *. rewrite Ep, En in *.
    pose proof (sep_In _ z _ S (or_introl eq_refl)) as Ahz. unfold apart in Ahz.
    assert (Al : forall y, In y (l1 ++ x :: l2) -> apart h y /\ apart z y).
    { intros y Hy. split; [eapply sep_In; [exact S|right; exact Hy]|
                           eapply sep_In; [exact Sz|exact Hy]]. }
    assert (Hlast : last l1 z = z \/ In (last l1 z) l1).
    { pose proof (last_In_cons z l1) as [E|E]; [left; symmetry; exact E|right; exact E]. }
    assert (Alast : apart h (last l1 z) /\ (last l1 z = z \/ apart z (last l1 z))).
    { destruct Hlast as [E|E]; [rewrite E; split; [exact Ahz|left; reflexivity]|].
      destruct (Al (last l1 z)) as [A1 A2]; [apply in_or_app; left; exact E|].
      split; [exact A1|right; exact A2]. }
    unfold apart in Alast.
    destruct l2 as [|t l2]; simpl hd in *.
    + simpl in *. rewrite !load_store_other by lia.
      repeat split; assumption.
    + destruct (Al t) as [A1 A2]; [apply in_or_app; right; right; left; reflexivity|].
      unfold apart in A1, A2.
      assert (Ht : 0 < t < wB).
      { rewrite Forall_forall in Hpos'. apply Hpos'.
        apply in_or_app; right; right; left; reflexivity. }
      destruct (Z.eqb_spec t 0) as [E|_]; [lia|].
      rewrite !load_store_other by lia.
      repeat split; assumption.
Qed.

(** * Facts that follow from the representation *)

Ltac consts :=
  unfold MINBLOCK, WSIZE, DSIZE, PSIZE, OVERHEAD, NULL, SBRK_FAILED, wB in *.

Lemma keeps_refl (lo : Z) (bs : list block) (m : memory) : keeps lo bs m m.
Proof. intros y s a _ _. reflexivity. Qed.

Lemma keeps_trans (lo : Z) (bs : list block) (m1 m2 m3 : memory) :
  keeps lo bs m1 m2 -> keeps lo bs m2 m3 -> keeps lo bs m1 m3.
Proof.
  intros K1 K2 y s a Hin Ha. rewrite (K2 y s a Hin Ha). apply (K1 y s a Hin Ha).
Qed.

Lemma keeps_store (lo : Z) (bs : list block) (m : memory) (a v : Z) :
  (forall y s, In (y, (s, true)) (placed (lo + 32) bs) -> a + 4 <= y \/ y + s - 8 <= a) ->
  keeps lo bs m (store m a v).
Proof.
  intros H y s x Hin Hx. apply store_out. specialize (H y s Hin). lia.
Qed.

Lemma same_region_refl (st : state) : same_region st st.
Proof. unfold same_region. repeat split. Qed.

Lemma same_region_with_mem (st : state) (m : memory) : same_region st (with_mem m st).
Proof. unfold same_region. repeat split. Qed.

Lemma same_region_trans (s1 s2 s3 : state) :
  same_region s1 s2 -> same_region s2 s3 -> same_region s1 s3.
Proof.
  unfold same_region. intros (A1 & A2 & A3 & A4 & A5 & A6) (B1 & B2 & B3 & B4 & B5 & B6).
  repeat split; congruence.
Qed.

Section RepFacts.

Variables (st : state) (bs : list block) (fl : list Z).
Hypothesis R : Rep st bs fl.

Lemma Rep_wf_all : Forall wf_block (prologue :: bs).
Proof.
  constructor; [exact wf_prologue|].
  apply Forall_wf_user_block. exact (rep_wf _ _ _ R).
Qed.

Lemma Rep_total : 0 <= total bs.
Proof. apply total_nonneg. apply Forall_wf_user_block. exact (rep_wf _ _ _ R). Qed.

Lemma Rep_all_placed (x : Z) (b : block) :
  In (x, b) (placed (mem_start_brk st + 32) bs) ->
  In (x, b) (placed (mem_start_brk st + 8) (prologue :: bs)).
Proof.
  intros H. simpl. right.
  replace (mem_start_brk st + 8 + 24) with (mem_start_brk st + 32) by lia. exact H.
Qed.

Lemma Rep_block (x : Z) (b : block) :
  In (x, b) (placed (mem_start_brk st + 32) bs) ->
  mem_start_brk st + 32 <= x /\ x + fst b <= mem_brk st /\
  32 <= fst b /\ fst b mod 8 = 0 /\ x mod 8 = 0 /\
  load (mem st) (x - 4) = tag b /\ load (mem st) (x + fst b - 8) = tag b.
Proof.
  intros H.
  pose proof (rep_wf _ _ _ R) as W.
  pose proof (Forall_wf_user_block _ W) as W'.
  pose proof (placed_bounds _ _ _ _ W' H) as [B1 B2].
  pose proof (placed_wf _ _ _ _ _ W H) as [U1 U2].
  rewrite (rep_brk _ _ _ R).
  pose proof (rep_align _ _ _ R) as A.
  assert (A' : (mem_start_brk st + 32) mod 8 = 0)
    by (Z.div_mod_to_equations; lia).
  pose proof (placed_mod8 _ _ _ _ W' A' H).
  destruct (rep_tags _ _ _ R x b (Rep_all_placed _ _ H)) as [T1 T2].
  consts. repeat split; try assumption; lia.
Qed.

Lemma Rep_prologue :
  load (mem st) (mem_start_brk st + 4) = 25 /\
  load (mem st) (mem_start_brk st + 24) = 25.
Proof.
  destruct (rep_tags _ _ _ R (mem_start_brk st + 8) prologue) as [T1 T2].
  { simpl. left. reflexivity. }
  simpl in T2. unfold tag, prologue in *. simpl in *.
  replace (mem_start_brk st + 8 - 4) with (mem_start_brk st + 4) in T1 by lia.
  replace (mem_start_brk st + 8 + 24 - 8) with (mem_start_brk st + 24) in T2 by lia.
  split; assumption.
Qed.

Lemma Rep_node (x : Z) :
  In x fl ->
  exists s, In (x, (s, false)) (placed (mem_start_brk st + 32) bs) /\
            mem_start_brk st + 32 <= x /\ x + s <= mem_brk st /\ 32 <= s.
Proof.
  intros H. destruct (rep_free _ _ _ R x H) as [s Hs].
  exists s. pose proof (Rep_block _ _ Hs) as (B1 & B2 & B3 & _).
  simpl in *. repeat split; assumption.
Qed.

Lemma Rep_pos : Forall (fun y => 0 < y < wB) fl.
Proof.
  apply Forall_forall. intros y Hy.
  destruct (Rep_node y Hy) as (s & _ & B1 & B2 & B3).
  pose proof (rep_lo _ _ _ R). pose proof (rep_top _ _ _ R). lia.
Qed.

Lemma Rep_sep : sep (mem_start_brk st + 8 :: fl).
Proof.
  pose proof (rep_nodup _ _ _ R) as N.
  assert (P : forall y, In y fl ->
             exists s, In (y, (s, false)) (placed (mem_start_brk st + 32) bs) /\
                       mem_start_brk st + 32 <= y /\ y + s <= mem_brk st /\ 32 <= s)
    by exact Rep_node.
  pose proof (Forall_wf_user_block _ (rep_wf _ _ _ R)) as W.
  clear R. simpl. split.
  - apply Forall_forall. intros y Hy. destruct (P y Hy) as (s & _ & B & _).
    unfold apart. lia.
  - induction fl as [|a l IH]; simpl; [exact I|].
    inversion N as [|? ? Na Nl]; subst. split.
    + apply Forall_forall. intros y Hy.
      destruct (P a (or_introl eq_refl)) as (sa & Pa & _ & _ & Sa).
      destruct (P y (or_intror Hy)) as (sy & Py & _ & _ & Sy).
      destruct (placed_sep _ _ _ _ _ _ W Pa Py) as [[E _]|L].
      * subst. contradiction.
      * unfold apart. simpl in L. lia.
    + apply IH; [exact Nl|]. intros y Hy. apply P. right. exact Hy.
Qed.

End RepFacts.

(** * One step of the code at a time *)

Lemma with_mem_lo (m : memory) (st : state) :
  mem_start_brk (with_mem m st) = mem_start_brk st.
Proof. reflexivity. Qed.
Lemma with_mem_brk (m : memory) (st : state) :
  mem_brk (with_mem m st) = mem_brk st.
Proof. reflexivity. Qed.
Lemma with_mem_hl (m : memory) (st : state) :
  heap_listp (with_mem m st) = heap_listp st.
Proof. reflexivity. Qed.
Lemma with_mem_mem (m : memory) (st : state) : mem (with_mem m st) = m.
Proof. reflexivity. Qed.
Lemma with_mem_twice (m m' : memory) (st : state) :
  with_mem m' (with_mem m st) = with_mem m' st.
Proof. reflexivity. Qed.

Ltac simp_st :=
  rewrite ?with_mem_twice, ?with_mem_lo, ?with_mem_brk, ?with_mem_hl, ?with_mem_mem in *.

Section Steps.

Context {B : Type}.
Variable st : state.
Hypothesis Hlo : 0 <= mem_start_brk st.
Hypothesis Htop : mem_brk st < wB.

Lemma step_ret {A} (a : A) (k : A -> M B) : bind (ret a) k st = k a st.
Proof. reflexivity. Qed.

Lemma step_get_hl (k : Z -> M B) : bind get_heap_listp k st = k (heap_listp st) st.
Proof. reflexivity. Qed.

Lemma step_GET (p : Z) (k : Z -> M B) :
  mem_start_brk st <= p -> p + 4 <= mem_brk st ->
  bind (GET p) k st = k (load (mem st) p) st.
Proof. intros H1 H2. apply bind_run. apply GET_run; assumption. Qed.

Lemma step_PUT (p v : Z) (k : unit -> M B) :
  mem_start_brk st <= p -> p + 4 <= mem_brk st ->
  bind (PUT p v) k st = k tt (with_mem (store (mem st) p v) st).
Proof. intros H1 H2. apply bind_run. apply PUT_run; assumption. Qed.

Lemma step_PUT_ADDR (p v : Z) (k : unit -> M B) :
  mem_start_brk st <= p -> p + 4 <= mem_brk st ->
  bind (PUT_ADDR p v) k st = k tt (with_mem (store (mem st) p v) st).
Proof. apply step_PUT. Qed.

Lemma HDRP_eq (x : Z) : mem_start_brk st + 4 <= x -> x <= mem_brk st -> HDRP x = x - 4.
Proof. intros H1 H2. unfold HDRP, WSIZE. apply wrap_small. lia. Qed.

Lemma PRVP_eq (x : Z) : mem_start_brk st <= x -> x + 8 <= mem_brk st -> PRVP x = x + 8.
Proof. intros H1 H2. unfold PRVP, PSIZE. apply wrap_small. lia. Qed.

Lemma step_GET_SIZE (p s : Z) (k : Z -> M B) :
  mem_start_brk st <= p -> p + 4 <= mem_brk st ->
  8 * (load (mem st) p / 8) = s ->
  bind (GET_SIZE p) k st = k s st.
Proof.
  intros H1 H2 E. subst s. apply bind_run. apply GET_SIZE_run; assumption.
Qed.

Lemma step_GET_ALLOC (p a : Z) (k : Z -> M B) :
  mem_start_brk st <= p -> p + 4 <= mem_brk st ->
  load (mem st) p mod 2 = a ->
  bind (GET_ALLOC p) k st = k a st.
Proof.
  intros H1 H2 E. subst a. apply bind_run. apply GET_ALLOC_run; assumption.
Qed.

Lemma step_size_hdr (x s : Z) (k : Z -> M B) :
  mem_start_brk st + 4 <= x -> x <= mem_brk st ->
  8 * (load (mem st) (x - 4) / 8) = s ->
  bind (GET_SIZE (HDRP x)) k st = k s st.
Proof.
  intros H1 H2 E. rewrite HDRP_eq by assumption.
  apply step_GET_SIZE; [lia|lia|exact E].
Qed.

Lemma step_alloc_hdr (x a : Z) (k : Z -> M B) :
  mem_start_brk st + 4 <= x -> x <= mem_brk st ->
  load (mem st) (x - 4) mod 2 = a ->
  bind (GET_ALLOC (HDRP x)) k st = k a st.
Proof.
  intros H1 H2 E. rewrite HDRP_eq by assumption.
  apply step_GET_ALLOC; [lia|lia|exact E].
Qed.

Lemma step_put_hdr (x v : Z) (k : unit -> M B) :
  mem_start_brk st + 4 <= x -> x <= mem_brk st ->
  bind (PUT (HDRP x) v) k st = k tt (with_mem (store (mem st) (x - 4) v) st).
Proof.
  intros H1 H2. rewrite HDRP_eq by assumption. apply step_PUT; lia.
Qed.

Lemma step_FTRP (x s : Z) (k : Z -> M B) :
  mem_start_brk st + 4 <= x -> x <= mem_brk st ->
  8 * (load (mem st) (x - 4) / 8) = s ->
  8 <= x + s < wB ->
  bind (FTRP x) k st = k (x + s - 8) st.
Proof.
  intros H1 H2 E Hs. apply bind_run. unfold FTRP.
  rewrite HDRP_eq by assumption.
  rewrite (bind_run _ _ _ _ _ (GET_SIZE_run st (x - 4) ltac:(lia) ltac:(lia))).
  rewrite E. unfold ret, DSIZE.
  rewrite (wrap_small (x + s)) by lia. rewrite wrap_small by lia. reflexivity.
Qed.

Lemma step_NEXT_BLKP (x s : Z) (k : Z -> M B) :
  mem_start_brk st + 4 <= x -> x <= mem_brk st ->
  8 * (load (mem st) (x - 4) / 8) = s ->
  0 <= x + s < wB ->
  bind (NEXT_BLKP x) k st = k (x + s) st.
Proof.
  intros H1 H2 E Hs. apply bind_run. unfold NEXT_BLKP.
  change (wrap (x - WSIZE)) with (HDRP x).
  rewrite HDRP_eq by assumption.
  rewrite (bind_run _ _ _ _ _ (GET_SIZE_run st (x - 4) ltac:(lia) ltac:(lia))).
  rewrite E. unfold ret.
  rewrite wrap_small by lia. reflexivity.
Qed.

Lemma step_PREV_BLKP (x s : Z) (k : Z -> M B) :
  mem_start_brk st + 8 <= x -> x <= mem_brk st + 4 ->
  8 * (load (mem st) (x - 8) / 8) = s ->
  0 <= x - s < wB ->
  bind (PREV_BLKP x) k st = k (x - s) st.
Proof.
  intros H1 H2 E Hs. unfold PREV_BLKP, DSIZE.
  apply bind_run.
  rewrite (wrap_small (x - 8)) by lia.
  rewrite (bind_run _ _ _ _ _ (GET_SIZE_run st (x - 8) ltac:(lia) ltac:(lia))).
  rewrite E. unfold ret.
  rewrite wrap_small by lia. reflexivity.
Qed.

Lemma step_NEXT_EX (x : Z) (k : Z -> M B) :
  mem_start_brk st <= x -> x + 4 <= mem_brk st ->
  bind (NEXT_BLKP_EX x) k st = k (load (mem st) x) st.
Proof. intros. unfold NEXT_BLKP_EX, NXTP. apply step_GET; assumption. Qed.

Lemma step_PREV_EX (x : Z) (k : Z -> M B) :
  mem_start_brk st <= x -> x + 12 <= mem_brk st ->
  bind (PREV_BLKP_EX x) k st = k (load (mem st) (x + 8)) st.
Proof.
  intros. unfold PREV_BLKP_EX. rewrite PRVP_eq by lia. apply step_GET; lia.
Qed.

End Steps.

(** * The two list operations *)

Lemma insertblock_run (st : state) (x : Z) :
  0 <= mem_start_brk st -> mem_brk st < wB ->
  mem_start_brk st <= heap_listp st -> heap_listp st + 4 <= mem_brk st ->
  mem_start_brk st <= x -> x + 12 <= mem_brk st ->
  (load (mem st) (heap_listp st) = 0 \/
   (mem_start_brk st <= load (mem st) (heap_listp st) /\
    load (mem st) (heap_listp st) + 12 <= mem_brk st)) ->
  insertblock x st =
  Ret (tt, with_mem (mem_insert (mem st) (heap_listp st) x) st).
Proof.
  intros Hlo Htop H1 H2 H3 H4 H5. unfold insertblock, mem_insert.
  rewrite step_get_hl.
  rewrite step_NEXT_EX by assumption.
  unfold NXTP. rewrite step_PUT_ADDR by lia.
  set (tmp := load (mem st) (heap_listp st)) in *.
  destruct (Z.eqb_spec tmp NULL) as [E|E].
  - rewrite step_ret. simp_st.
    rewrite (PRVP_eq (with_mem (store (mem st) x tmp) st)) by (simp_st; lia).
    rewrite step_PUT_ADDR by (simp_st; lia). simp_st.
    unfold NULL in E. destruct (Z.eqb_spec tmp 0); [|contradiction].
    unfold PUT_ADDR. rewrite PUT_run by (simp_st; lia). reflexivity.
  - unfold NULL in E. destruct H5 as [H5|H5]; [contradiction|].
    rewrite (PRVP_eq (with_mem (store (mem st) x tmp) st)) by (simp_st; lia).
    rewrite step_PUT_ADDR by (simp_st; lia). simp_st.
    rewrite (PRVP_eq (with_mem (store (store (mem st) x tmp) (tmp + 8) x) st))
      by (simp_st; lia).
    rewrite step_PUT_ADDR by (simp_st; lia). simp_st.
    destruct (Z.eqb_spec tmp 0); [contradiction|].
    unfold PUT_ADDR. rewrite PUT_run by (simp_st; lia). reflexivity.
Qed.

Lemma deleteblock_run (st : state) (x : Z) :
  0 <= mem_start_brk st -> mem_brk st < wB ->
  mem_start_brk st <= x -> x + 12 <= mem_brk st ->
  (load (mem st) x = 0 \/
   (mem_start_brk st <= load (mem st) x /\ load (mem st) x + 12 <= mem_brk st)) ->
  mem_start_brk st <= load (mem st) (x + 8) ->
  load (mem st) (x + 8) + 4 <= mem_brk st ->
  deleteblock x st = Ret (tt, with_mem (mem_delete (mem st) x) st).
Proof.
  intros Hlo Htop H1 H2 H3 H4 H5. unfold deleteblock, mem_delete.
  rewrite step_NEXT_EX by lia.
  rewrite step_PREV_EX by lia.
  set (nxt := load (mem st) x) in *.
  set (prv := load (mem st) (x + 8)) in *.
  unfold NULL, NXTP.
  destruct (Z.eqb_spec nxt 0) as [E|E].
  - rewrite step_ret. unfold PUT_ADDR. rewrite PUT_run by lia. reflexivity.
  - destruct H3 as [H3|H3]; [contradiction|].
    rewrite (PRVP_eq st) by lia.
    rewrite step_PUT_ADDR by lia.
    unfold PUT_ADDR. rewrite PUT_run by (simp_st; lia). reflexivity.
Qed.

(** * Bytes the list operations must not touch *)

Lemma quiet_refl (lo : Z) (bs : list block) (m : memory) : quiet lo bs m m.
Proof. intros a _. reflexivity. Qed.

Lemma quiet_trans (lo : Z) (bs : list block) (m1 m2 m3 : memory) :
  quiet lo bs m1 m2 -> quiet lo bs m2 m3 -> quiet lo bs m1 m3.
Proof. intros Q1 Q2 a G. rewrite (Q2 a G). apply Q1. exact G. Qed.

Lemma quiet_tags (lo : Z) (bs : list block) (m m' : memory) :
  quiet lo bs m m' ->
  tags m (lo + 8) (prologue :: bs) -> tags m' (lo + 8) (prologue :: bs).
Proof.
  intros Q T. apply (tags_ext m); [exact T|].
  intros x b Hin. split; apply load_ext; intros a Ha; apply Q; left;
    exists x, b; (split; [exact Hin|lia]).
Qed.

Lemma quiet_epi (lo : Z) (bs : list block) (m m' : memory) :
  quiet lo bs m m' ->
  load m' (lo + 32 + total bs - 4) = load m (lo + 32 + total bs - 4).
Proof.
  intros Q. apply load_ext. intros a Ha. apply Q. right. left. lia.
Qed.

Lemma quiet_keeps (lo : Z) (bs : list block) (m m' : memory) :
  quiet lo bs m m' -> keeps lo bs m m'.
Proof.
  intros Q y s a Hin Ha. apply Q. right. right. exists y, s. split; assumption.
Qed.

Lemma placed_user_all (lo x : Z) (b : block) (bs : list block) :
  In (x, b) (placed (lo + 32) bs) -> In (x, b) (placed (lo + 8) (prologue :: bs)).
Proof.
  intros H. simpl. right. replace (lo + 8 + 24) with (lo + 32) by lia. exact H.
Qed.

Lemma placed_all_inv (lo x : Z) (b : block) (bs : list block) :
  In (x, b) (placed (lo + 8) (prologue :: bs)) ->
  (x = lo + 8 /\ b = prologue) \/ In (x, b) (placed (lo + 32) bs).
Proof.
  simpl. intros [H|H].
  - inversion H; subst. left. split; reflexivity.
  - right. replace (lo + 32) with (lo + 8 + 24) by lia. exact H.
Qed.

Lemma quiet_store_link (lo : Z) (bs : list block) (m : memory) (a v : Z) :
  Forall wf_user bs -> link_addr lo bs a -> quiet lo bs m (store m a v).
Proof.
  intros W L x G. apply store_out.
  pose proof (Forall_wf_user_block _ W) as W'.
  assert (Wall : Forall wf_block (prologue :: bs))
    by (constructor; [exact wf_prologue|exact W']).
  assert (La : (a = lo + 8) \/
               exists y s, In (y, (s, false)) (placed (lo + 32) bs) /\
                           32 <= s /\ lo + 32 <= y /\ y + s <= lo + 32 + total bs /\
                           (a = y \/ a = y + 8)).
  { destruct L as [L|(y & s & Hy & L)]; [left; exact L|right].
    exists y, s. pose proof (placed_bounds _ _ _ _ W' Hy) as [B1 B2].
    pose proof (placed_wf _ _ _ _ _ W Hy) as [U _]. consts. simpl in *.
    repeat split; try assumption; lia. }
  clear L.
  destruct G as [(z & b & Hz & Hx)|[Hx|(z & s & Hz & Hx)]].
  - apply placed_all_inv in Hz. destruct Hz as [[Ez Eb]|Hz].
    + subst. unfold prologue in Hx. simpl in Hx.
      destruct La as [E|(y & s & Hy & S & B1 & B2 & E)]; lia.
    + pose proof (placed_bounds _ _ _ _ W' Hz) as [B1 B2].
      pose proof (placed_wf _ _ _ _ _ W Hz) as [U _]. consts.
      destruct La as [E|(y & s & Hy & S & C1 & C2 & E)]; [lia|].
      destruct (placed_sep _ _ _ _ _ _ W' Hy Hz) as [[E1 E2]|D].
      * subst. simpl in *. lia.
      * simpl in D. lia.
  - pose proof (total_nonneg _ W').
    destruct La as [E|(y & s & Hy & S & C1 & C2 & E)]; lia.
  - pose proof (placed_bounds _ _ _ _ W' Hz) as [B1 B2]. simpl in B2.
    destruct La as [E|(y & s' & Hy & S & C1 & C2 & E)]; [lia|].
    destruct (placed_sep _ _ _ _ _ _ W' Hy Hz) as [[E1 E2]|D].
    + discriminate.
    + simpl in D. lia.
Qed.

Lemma quiet_mem_delete (lo : Z) (bs : list block) (m : memory) (x : Z) :
  Forall wf_user bs ->
  link_addr lo bs (load m (x + 8)) ->
  (load m x = 0 \/ link_addr lo bs (load m x + 8)) ->
  quiet lo bs m (mem_delete m x).
Proof.
  intros W Lp Ln. unfold mem_delete.
  destruct (Z.eqb_spec (load m x) 0) as [E|E].
  - apply quiet_store_link; assumption.
  - destruct Ln as [Ln|Ln]; [contradiction|].
    eapply quiet_trans; apply quiet_store_link; assumption.
Qed.

Lemma quiet_mem_insert (lo : Z) (bs : list block) (m : memory) (x : Z) :
  Forall wf_user bs ->
  link_addr lo bs x -> link_addr lo bs (x + 8) ->
  (load m (lo + 8) = 0 \/ link_addr lo bs (load m (lo + 8) + 8)) ->
  quiet lo bs m (mem_insert m (lo + 8) x).
Proof.
  intros W L1 L2 Lt. unfold mem_insert.
  assert (Lh : link_addr lo bs (lo + 8)) by (left; reflexivity).
  destruct (Z.eqb_spec (load m (lo + 8)) 0) as [E|E].
  - eapply quiet_trans; [eapply quiet_trans|]; apply quiet_store_link; assumption.
  - destruct Lt as [Lt|Lt]; [contradiction|].
    eapply quiet_trans; [eapply quiet_trans; [eapply quiet_trans|]|];
      apply quiet_store_link; assumption.
Qed.

(** * [deleteblock] and [insertblock] on a represented heap *)

Lemma Rep_quiet (st : state) (bs : list block) (fl fl' : list Z) (m' : memory) :
  Rep st bs fl -> quiet (mem_start_brk st) bs (mem st) m' ->
  flist m' (mem_start_brk st + 8) fl' ->
  (forall x, In x fl' ->
     exists s, In (x, (s, false)) (placed (mem_start_brk st + 32) bs)) ->
  NoDup fl' ->
  Rep (with_mem m' st) bs fl'.
Proof.
  intros R Q F Hfree N.
  destruct R as [r_lo r_align r_hl r_brk r_top r_wf r_tags r_epi r_flist r_free r_nodup].
  constructor; simp_st; try assumption.
  - eapply quiet_tags; eassumption.
  - rewrite r_brk in *. rewrite (quiet_epi _ _ _ _ Q). exact r_epi.
Qed.

Lemma remove_middle (x : Z) (f1 f2 : list Z) :
  NoDup (f1 ++ x :: f2) -> remove Z.eq_dec x (f1 ++ x :: f2) = f1 ++ f2.
Proof.
  intros N. pose proof (NoDup_remove_2 _ _ _ N) as Nx.
  rewrite remove_app, remove_cons.
  rewrite !notin_remove; [reflexivity| |];
    intros H; apply Nx; apply in_or_app; [right|left]; exact H.
Qed.

(** [deleteblock] takes the node [x] out of the list and leaves the other
    nodes in their order. *)
Lemma deleteblock_at (st : state) (bs : list block) (fl : list Z) (x : Z) :
  Rep st bs fl -> In x fl ->
  deleteblock x st = Ret (tt, with_mem (mem_delete (mem st) x) st) /\
  Rep (with_mem (mem_delete (mem st) x) st) bs (remove Z.eq_dec x fl) /\
  quiet (mem_start_brk st) bs (mem st) (mem_delete (mem st) x).
Proof.
  intros R Hx.
  destruct (in_split _ _ Hx) as (f1 & f2 & E). subst fl.
  pose proof (rep_flist _ _ _ R) as F.
  destruct (flist_fields _ _ _ _ _ F) as [Ep En].
  pose proof (rep_lo _ _ _ R) as Hlo. pose proof (rep_top _ _ _ R) as Htop.
  pose proof (rep_wf _ _ _ R) as W.
  destruct (Rep_node _ _ _ R x Hx) as (sx & Px & Bx1 & Bx2 & Sx).
  assert (Lp : link_addr (mem_start_brk st) bs (load (mem st) (x + 8)) /\
               mem_start_brk st <= load (mem st) (x + 8) /\
               load (mem st) (x + 8) + 4 <= mem_brk st).
  { rewrite Ep. destruct (last_In_cons (mem_start_brk st + 8) f1) as [L|L].
    - rewrite <- L. split; [left; reflexivity|]. lia.
    - destruct (Rep_node _ _ _ R (last f1 (mem_start_brk st + 8))) as (s & P & B1 & B2 & S).
      { apply in_or_app. left. exact L. }
      split; [right; exists (last f1 (mem_start_brk st + 8)), s; split;
              [exact P|left; reflexivity]|lia]. }
  assert (Ln : load (mem st) x = 0 \/
               (link_addr (mem_start_brk st) bs (load (mem st) x + 8) /\
                mem_start_brk st <= load (mem st) x /\
                load (mem st) x + 12 <= mem_brk st)).
  { rewrite En. destruct f2 as [|t f2]; simpl; [left; reflexivity|right].
    destruct (Rep_node _ _ _ R t) as (s & P & B1 & B2 & S).
    { apply in_or_app. right. right. left. reflexivity. }
    split; [right; exists t, s; split; [exact P|right; reflexivity]|lia]. }
  assert (Q : quiet (mem_start_brk st) bs (mem st) (mem_delete (mem st) x)).
  { apply quiet_mem_delete; [exact W|tauto|tauto]. }
  rewrite (remove_middle _ _ _ (rep_nodup _ _ _ R)).
  split; [|split].
  - apply deleteblock_run; try lia; tauto.
  - apply (Rep_quiet _ _ _ _ _ R Q).
    + apply flist_delete; [exact F|exact (Rep_sep _ _ _ R)|lia|exact (Rep_pos _ _ _ R)].
    + intros y Hy. apply (rep_free _ _ _ R). apply in_app_or in Hy.
      apply in_or_app. destruct Hy; [left|right; right]; assumption.
    + eapply NoDup_remove_1. exact (rep_nodup _ _ _ R).
  - exact Q.
Qed.

Lemma deleteblock_spec (st : state) (bs : list block) (fl : list Z) (x : Z) :
  Rep st bs fl -> In x fl ->
  exists fl',
    deleteblock x st = Ret (tt, with_mem (mem_delete (mem st) x) st) /\
    Rep (with_mem (mem_delete (mem st) x) st) bs fl' /\
    (forall y, In y fl' <-> In y fl /\ y <> x) /\
(length fl' < length fl)%nat /\
    quiet (mem_start_brk st) bs (mem st) (mem_delete (mem st) x).
Proof.
  intros R Hx. destruct (deleteblock_at _ _ _ _ R Hx) as (Drun & R1 & Q).
  exists (remove Z.eq_dec x fl).
  split; [exact Drun|]. split; [exact R1|]. split; [|split; [|exact Q]].
  - intros y. split.
    + intros H. apply in_remove in H. exact H.
    + intros [H N]. apply in_in_remove; assumption.
  - apply remove_length_lt. exact Hx.
Qed.

Lemma insertblock_spec (st : state) (bs : list block) (fl : list Z) (x s : Z) :
  Rep st bs fl ->
  In (x, (s, false)) (placed (mem_start_brk st + 32) bs) -> ~ In x fl ->
  insertblock x st = Ret (tt, with_mem (mem_insert (mem st) (heap_listp st) x) st) /\
  Rep (with_mem (mem_insert (mem st) (heap_listp st) x) st) bs (x :: fl) /\
  quiet (mem_start_brk st) bs (mem st) (mem_insert (mem st) (heap_listp st) x).
Proof.
  intros R Px Nx.
  pose proof (rep_flist _ _ _ R) as F.
  pose proof (rep_lo _ _ _ R) as Hlo. pose proof (rep_top _ _ _ R) as Htop.
  pose proof (rep_wf _ _ _ R) as W.
  pose proof (Rep_total _ _ _ R) as Ht.
  pose proof (rep_brk _ _ _ R) as Hb.
  rewrite (rep_hl _ _ _ R).
  pose proof (Rep_block _ _ _ R _ _ Px) as (Bx1 & Bx2 & Sx & _). simpl in Bx2, Sx.
  assert (Lt : load (mem st) (mem_start_brk st + 8) = 0 \/
               (link_addr (mem_start_brk st) bs (load (mem st) (mem_start_brk st + 8) + 8) /\
                mem_start_brk st <= load (mem st) (mem_start_brk st + 8) /\
                load (mem st) (mem_start_brk st + 8) + 12 <= mem_brk st)).
  { destruct fl as [|t fl]; simpl in F; [left; exact F|right].
    destruct F as (F1 & _). rewrite F1.
    destruct (Rep_node _ _ _ R t (or_introl eq_refl)) as (s' & P & B1 & B2 & S).
    split; [right; exists t, s'; split; [exact P|right; reflexivity]|lia]. }
  assert (Q : quiet (mem_start_brk st) bs (mem st)
                    (mem_insert (mem st) (mem_start_brk st + 8) x)).
  { apply quiet_mem_insert; [exact W| | |tauto].
    - right. exists x, s. split; [exact Px|left; reflexivity].
    - right. exists x, s. split; [exact Px|right; reflexivity]. }
  split; [|split].
  - rewrite <- (rep_hl _ _ _ R). apply insertblock_run; rewrite ?(rep_hl _ _ _ R); lia.
  - apply (Rep_quiet _ _ _ _ _ R Q).
    + apply flist_insert; [exact F| |lia|lia|].
      * pose proof (Rep_sep _ _ _ R) as S. simpl in S. destruct S as [S1 S2].
        simpl. repeat split; try assumption.
        -- constructor; [unfold apart; lia|exact S1].
        -- apply Forall_forall. intros y Hy.
           destruct (Rep_node _ _ _ R y Hy) as (sy & Py & _ & _ & Sy).
           destruct (placed_sep _ _ _ _ _ _ (Forall_wf_user_block _ W) Px Py) as [[E _]|D].
           ++ subst. contradiction.
           ++ unfold apart. simpl in D. lia.
      * eapply Forall_impl; [|exact (Rep_pos _ _ _ R)]. simpl. intros; lia.
    + intros y [E|Hy]; [subst; exists s; exact Px|apply (rep_free _ _ _ R); exact Hy].
    + constructor; [exact Nx|exact (rep_nodup _ _ _ R)].
  - exact Q.
Qed.

(** * Rewriting the tags of a stretch of blocks *)

Lemma placed_3 (bp x : Z) (b : block) (l1 mid l2 : list block) :
  In (x, b) (placed bp (l1 ++ mid ++ l2)) <->
  In (x, b) (placed bp l1) \/
  In (x, b) (placed (bp + total l1) mid) \/
  In (x, b) (placed (bp + total l1 + total mid) l2).
Proof. rewrite !placed_app, !in_app_iff. tauto. Qed.

Lemma Forall_3 {A} (P : A -> Prop) (l1 mid l2 : list A) :
  Forall P (l1 ++ mid ++ l2) <-> Forall P l1 /\ Forall P mid /\ Forall P l2.
Proof. rewrite !Forall_app. tauto. Qed.

Lemma total_3 (l1 mid l2 : list block) :
  total (l1 ++ mid ++ l2) = total l1 + total mid + total l2.
Proof. rewrite !total_app. lia. Qed.

Section Retag.

Variables (st : state) (l1 old new l2 : list block) (fl : list Z).
Variables (m' : memory) (x : Z).
Hypothesis R : Rep st (l1 ++ old ++ l2) fl.
Hypothesis Hx : x = mem_start_brk st + 32 + total l1.
Hypothesis Htot : total new = total old.
Hypothesis Wnew : Forall wf_user new.
Hypothesis Tnew : tags m' x new.
Hypothesis Hout : forall a, a < x - 4 \/ x + total old - 4 <= a -> m' a = mem st a.

Lemma retag_wf : Forall wf_user l1 /\ Forall wf_user old /\ Forall wf_user l2.
Proof. apply Forall_3. exact (rep_wf _ _ _ R). Qed.

Lemma retag_below (y : Z) (b : block) :
  In (y, b) (placed (mem_start_brk st + 32) l1) ->
  mem_start_brk st + 32 <= y /\ y + fst b <= x /\ 32 <= fst b /\
  In (y, b) (placed (mem_start_brk st + 32) (l1 ++ new ++ l2)).
Proof.
  intros H. destruct retag_wf as (W1 & _ & _).
  pose proof (placed_bounds _ _ _ _ (Forall_wf_user_block _ W1) H) as [B1 B2].
  pose proof (placed_wf _ _ _ _ _ W1 H) as [U _]. consts.
  repeat split; try lia. apply placed_3. left. exact H.
Qed.

Lemma retag_above (y : Z) (b : block) :
  In (y, b) (placed (mem_start_brk st + 32 + total l1 + total old) l2) ->
  x + total old <= y /\ y + fst b <= mem_brk st /\ 32 <= fst b /\
  In (y, b) (placed (mem_start_brk st + 32) (l1 ++ new ++ l2)).
Proof.
  intros H. destruct retag_wf as (_ & _ & W2).
  pose proof (placed_bounds _ _ _ _ (Forall_wf_user_block _ W2) H) as [B1 B2].
  pose proof (placed_wf _ _ _ _ _ W2 H) as [U _]. consts.
  rewrite (rep_brk _ _ _ R), total_3.
  repeat split; try lia. apply placed_3. right. right. rewrite Htot. exact H.
Qed.

Lemma retag_total_old : 0 <= total old /\ 0 <= total l1 /\ 0 <= total l2.
Proof.
  destruct retag_wf as (W1 & W2 & W3).
  repeat split; apply total_nonneg; apply Forall_wf_user_block; assumption.
Qed.

Lemma retag_load_below (a : Z) : a + 4 <= x - 4 -> load m' a = load (mem st) a.
Proof. intros H. apply load_ext. intros z Hz. apply Hout. lia. Qed.

Lemma retag_load_above (a : Z) :
  x + total old - 4 <= a -> load m' a = load (mem st) a.
Proof. intros H. apply load_ext. intros z Hz. apply Hout. lia. Qed.

Hypothesis Hfl :
  forall y s, In y fl -> In (y, (s, false)) (placed x old) ->
    (exists s', In (y, (s', false)) (placed x new)) /\
    load m' y = load (mem st) y /\ load m' (y + 8) = load (mem st) (y + 8).

Lemma retag_node (y : Z) :
  In y fl ->
  (exists s, In (y, (s, false)) (placed (mem_start_brk st + 32) (l1 ++ new ++ l2))) /\
  load m' y = load (mem st) y /\ load m' (y + 8) = load (mem st) (y + 8).
Proof.
  intros Hy. destruct (rep_free _ _ _ R y Hy) as [s Hs].
  apply placed_3 in Hs. destruct Hs as [Hs|[Hs|Hs]].
  - destruct (retag_below _ _ Hs) as (B1 & B2 & B3 & B4). simpl in *.
    split; [exists s; exact B4|].
    split; apply retag_load_below; lia.
  - rewrite <- Hx in Hs. destruct (Hfl y s Hy Hs) as ((s' & Hs') & E).
    split; [|exact E]. exists s'. apply placed_3. right. left.
    rewrite <- Hx. exact Hs'.
  - destruct (retag_above _ _ Hs) as (B1 & B2 & B3 & B4). simpl in *.
    split; [exists s; exact B4|].
    split; apply retag_load_above; lia.
Qed.

Lemma Rep_retag : Rep (with_mem m' st) (l1 ++ new ++ l2) fl.
Proof.
  pose proof retag_total_old as (T0 & T1 & T2).
  destruct retag_wf as (W1 & W2 & W3).
  pose proof (rep_lo _ _ _ R). pose proof (rep_brk _ _ _ R) as Hb.
  rewrite total_3 in Hb.
  constructor; simp_st.
  - exact (rep_lo _ _ _ R).
  - exact (rep_align _ _ _ R).
  - exact (rep_hl _ _ _ R).
  - rewrite total_3, Htot. exact Hb.
  - exact (rep_top _ _ _ R).
  - apply Forall_3. repeat split; assumption.
  - pose proof (rep_tags _ _ _ R) as T.
    change (prologue :: l1 ++ new ++ l2) with ((prologue :: l1) ++ new ++ l2).
    change (prologue :: l1 ++ old ++ l2) with ((prologue :: l1) ++ old ++ l2) in T.
    apply tags_app in T. destruct T as [Ta T]. apply tags_app in T. destruct T as [_ Tb].
    assert (Ex : mem_start_brk st + 8 + total (prologue :: l1) = x). { change (total (prologue :: l1)) with (24 + total l1). lia. }
    apply tags_app. split; [|apply tags_app; split].
    + apply (tags_ext (mem st)); [exact Ta|].
      intros y b Hin.
      assert (Wp : Forall wf_block (prologue :: l1))
        by (constructor; [exact wf_prologue|apply Forall_wf_user_block; exact W1]).
      pose proof (placed_bounds _ _ _ _ Wp Hin) as [B1 B2].
      pose proof (placed_wf _ _ _ _ _ Wp Hin) as [U _].
      split; apply retag_load_below; lia.
    + rewrite Ex. exact Tnew.
    + rewrite Ex in *. rewrite Htot.
      apply (tags_ext (mem st)); [exact Tb|].
      intros y b Hin.
      pose proof (placed_bounds _ _ _ _ (Forall_wf_user_block _ W3) Hin) as [B1 B2].
      pose proof (placed_wf _ _ _ _ _ W3 Hin) as [U _]. consts.
      split; apply retag_load_above; lia.
  - rewrite retag_load_above by lia. exact (rep_epi _ _ _ R).
  - apply (flist_ext (mem st)); [exact (rep_flist _ _ _ R)| |].
    + apply retag_load_below. lia.
    + intros y Hy. apply retag_node. exact Hy.
  - intros y Hy. apply retag_node. exact Hy.
  - exact (rep_nodup _ _ _ R).
Qed.

Lemma retag_keeps :
  Forall (fun b => snd b = false) old ->
  keeps (mem_start_brk st) (l1 ++ old ++ l2) (mem st) m'.
Proof.
  intros Hfree y s a Hin Ha. apply Hout.
  apply placed_3 in Hin. destruct Hin as [Hs|[Hs|Hs]].
  - destruct (retag_below _ _ Hs) as (B1 & B2 & B3 & B4). simpl in *. lia.
  - rewrite Forall_forall in Hfree. apply placed_In in Hs.
    specialize (Hfree _ Hs). discriminate.
  - destruct (retag_above _ _ Hs) as (B1 & B2 & B3 & B4). simpl in *. lia.
Qed.

Lemma retag_alloc_kept (y s : Z) :
  Forall (fun b => snd b = false) old ->
  In (y, (s, true)) (placed (mem_start_brk st + 32) (l1 ++ old ++ l2)) ->
  In (y, (s, true)) (placed (mem_start_brk st + 32) (l1 ++ new ++ l2)).
Proof.
  intros Hfree Hin. apply placed_3 in Hin. apply placed_3.
  destruct Hin as [Hs|[Hs|Hs]].
  - left. exact Hs.
  - rewrite Forall_forall in Hfree. apply placed_In in Hs.
    specialize (Hfree _ Hs). discriminate.
  - right. right. rewrite Htot. exact Hs.
Qed.

End Retag.

(** * [place] *)

Lemma size_plus0 (a : Z) : a mod 8 = 0 -> 8 * (a / 8) = a.
Proof. intros H. Z.div_mod_to_equations. lia. Qed.

Lemma size_plus1 (a : Z) : a mod 8 = 0 -> 8 * ((a + 1) / 8) = a.
Proof. intros H. Z.div_mod_to_equations. lia. Qed.

Lemma alloc_plus0 (a : Z) : a mod 8 = 0 -> a mod 2 = 0.
Proof. intros H. Z.div_mod_to_equations. lia. Qed.

Lemma alloc_plus1 (a : Z) : a mod 8 = 0 -> (a + 1) mod 2 = 1.
Proof. intros H. Z.div_mod_to_equations. lia. Qed.

Lemma tag_free (s : Z) : tag (s, false) = s.
Proof. unfold tag. simpl. lia. Qed.

Lemma tag_used (s : Z) : tag (s, true) = s + 1.
Proof. reflexivity. Qed.

Lemma tags_one (m : memory) (x : Z) (b : block) :
  load m (x - 4) = tag b -> load m (x + fst b - 8) = tag b -> tags m x [b].
Proof. intros H1 H2. apply tags_cons. split; [split; assumption|apply tags_nil]. Qed.

Lemma tags_two (m : memory) (x : Z) (b1 b2 : block) :
  load m (x - 4) = tag b1 -> load m (x + fst b1 - 8) = tag b1 ->
  load m (x + fst b1 - 4) = tag b2 -> load m (x + fst b1 + fst b2 - 8) = tag b2 ->
  tags m x [b1; b2].
Proof.
  intros H1 H2 H3 H4. apply tags_cons. split; [split; assumption|].
  apply tags_one; assumption.
Qed.

Ltac so := simp_st; try (unfold wB in *; lia); try assumption.

Lemma place_spec (st : state) (l1 l2 : list block) (fl : list Z) (x c a : Z) :
  Rep st (l1 ++ [(c, false)] ++ l2) fl ->
  all_listed st (l1 ++ [(c, false)] ++ l2) fl ->
  x = mem_start_brk st + 32 + total l1 ->
  a mod 8 = 0 -> MINBLOCK <= a <= c ->
  exists st' fl',
    place x a st = Ret (tt, st') /\
    Rep st' (l1 ++ placed_blocks c a ++ l2) fl' /\
    all_listed st' (l1 ++ placed_blocks c a ++ l2) fl' /\
    same_region st st' /\
    keeps (mem_start_brk st) (l1 ++ [(c, false)] ++ l2) (mem st) (mem st') /\
    (forall y, In y fl' <->
               (MINBLOCK <= c - a /\ y = x + a) \/ (In y fl /\ y <> x)) /\
    (MINBLOCK <= c - a -> hd 0 fl' = x + a) /\
    (length fl' <= length fl)%nat.
Proof.
  intros R AL Hx Ha Hac.
  set (bs := l1 ++ [(c, false)] ++ l2) in *.
  assert (Px : In (x, (c, false)) (placed (mem_start_brk st + 32) bs)).
  { unfold bs. rewrite Hx. apply placed_mid. }
  assert (Fx : In x fl) by (eapply AL; exact Px).
  pose proof (Rep_block _ _ _ R _ _ Px) as (Bx1 & Bx2 & Sx & Mx & Ax & Th & Tf).
  simpl fst in *. rewrite tag_free in Th, Tf.
  pose proof (rep_lo _ _ _ R) as Hlo. pose proof (rep_top _ _ _ R) as Htop.
  destruct (deleteblock_spec _ _ _ _ R Fx) as (fl1 & Drun & R1 & Hfl1 & Len1 & Q1).
  set (m1 := mem_delete (mem st) x) in *.
  assert (Nx1 : ~ In x fl1) by (intros H; apply Hfl1 in H; tauto).
  assert (Th1 : load m1 (x - 4) = c).
  { pose proof (Rep_block _ _ _ R1 _ _ Px) as (_ & _ & _ & _ & _ & T & _).
    rewrite tag_free in T. exact T. }
  assert (Hold : forall y s, In y fl1 -> In (y, (s, false)) (placed x [(c, false)]) -> False).
  { intros y s Hy [E|[]]. inversion E; subst y. contradiction. }
  unfold place.
  rewrite (step_size_hdr st Hlo Htop x c) by (so; rewrite Th; apply size_plus0; exact Mx).
  rewrite (bind_run _ _ _ _ _ Drun).
  consts. unfold placed_blocks, MINBLOCK, DSIZE, PSIZE, OVERHEAD.
  rewrite (wrap_small (c - a)) by (unfold wB; lia).
  change (8 + 2 * 8 + 8) with 32.
  destruct (Z.leb_spec 32 (c - a)) as [Hsplit|Hwhole].
  - (* split *)
    rewrite !PACK_0. rewrite !PACK_1 by exact Ha.
    rewrite (step_put_hdr (with_mem m1 st) Hlo Htop) by so. simp_st.
    set (m2 := store m1 (x - 4) (a + 1)).
    rewrite (step_FTRP (with_mem m2 st) Hlo Htop x a)
      by (so; unfold m2; ls; apply size_plus1; exact Ha).
    rewrite (step_PUT (with_mem m2 st)) by so. simp_st.
    set (m3 := store m2 (x + a - 8) (a + 1)).
    rewrite (step_NEXT_BLKP (with_mem m3 st) Hlo Htop x a)
      by (so; unfold m3, m2; ls; apply size_plus1; exact Ha).
    rewrite (step_put_hdr (with_mem m3 st) Hlo Htop) by so. simp_st.
    set (m4 := store m3 (x + a - 4) (c - a)).
    assert (Mca : (c - a) mod 8 = 0) by (Z.div_mod_to_equations; lia).
    rewrite (step_FTRP (with_mem m4 st) Hlo Htop (x + a) (c - a))
      by (so; unfold m4; ls; apply size_plus0; exact Mca).
    rewrite (step_PUT (with_mem m4 st)) by so. simp_st.
    set (m5 := store m4 (x + a + (c - a) - 8) (c - a)).
    assert (R5 : Rep (with_mem m5 (with_mem m1 st)) (l1 ++ [(a, true); (c - a, false)] ++ l2) fl1).
    { apply (Rep_retag (with_mem m1 st) l1 [(c, false)] [(a, true); (c - a, false)] l2 fl1 m5 x R1).
      - so.
      - simpl. lia.
      - repeat constructor; simpl; consts; try lia; assumption.
      - apply tags_two; simpl fst; rewrite ?tag_used, ?tag_free;
          unfold m5, m4, m3, m2; ls; reflexivity.
      - intros z Hz. simpl in Hz. simp_st.
        unfold m5, m4, m3, m2. rewrite !store_out by lia. reflexivity.
      - intros y s Hy Hin. exfalso. eapply Hold; eassumption. }
    simp_st.
    set (bs' := l1 ++ [(a, true); (c - a, false)] ++ l2) in *.
    assert (Py : In (x + a, (c - a, false)) (placed (mem_start_brk st + 32) bs')).
    { unfold bs'. apply placed_3. right. left. rewrite <- Hx. simpl. right. left. reflexivity. }
    assert (Ny : ~ In (x + a) fl1).
    { intros H. apply Hfl1 in H. destruct H as [H _].
      destruct (Rep_node _ _ _ R _ H) as (s & Ps & _ & _ & Ss).
      pose proof (Forall_wf_user_block _ (rep_wf _ _ _ R)) as W.
      destruct (placed_sep _ _ _ _ _ _ W Ps Px) as [[E _]|D]; simpl in *; lia. }
    destruct (insertblock_spec _ _ _ _ _ R5 Py Ny) as (Irun & R6 & Q6).
    simp_st.
    exists (with_mem (mem_insert m5 (heap_listp st) (x + a)) st), ((x + a) :: fl1).
    split; [exact Irun|]. split; [exact R6|]. split; [|split; [|split; [|split; [|split]]]].
    + intros y s Hy. simp_st. apply placed_3 in Hy. destruct Hy as [Hy|[Hy|Hy]].
      * right. apply Hfl1. split.
        -- eapply AL. apply placed_3. left. exact Hy.
        -- pose proof (rep_wf _ _ _ R) as W. apply Forall_3 in W. destruct W as (W1 & _).
           pose proof (placed_bounds _ _ _ _ (Forall_wf_user_block _ W1) Hy).
           pose proof (placed_wf _ _ _ _ _ W1 Hy) as [U _]. consts. simpl in *. lia.
      * rewrite <- Hx in Hy. simpl in Hy. destruct Hy as [E|[E|[]]]; inversion E. left. reflexivity.
      * right. apply Hfl1.
        change (total [(a, true); (c - a, false)]) with (a + ((c - a) + 0)) in Hy.
        split.
        -- eapply AL. apply placed_3. right. right.
           change (total [(c, false)]) with (c + 0).
           replace (mem_start_brk st + 32 + total l1 + (c + 0))
             with (mem_start_brk st + 32 + total l1 + (a + (c - a + 0))) by lia.
           exact Hy.
        -- pose proof (rep_wf _ _ _ R) as W. apply Forall_3 in W. destruct W as (_ & _ & W2).
           pose proof (placed_bounds _ _ _ _ (Forall_wf_user_block _ W2) Hy). lia.
    + apply same_region_with_mem.
    + simp_st. apply (keeps_trans _ _ _ m1); [apply quiet_keeps; exact Q1|].
      apply (keeps_trans _ _ _ m5).
      * apply (retag_keeps (with_mem m1 st) l1 [(c, false)] [(c, false)] l2 fl1 m5 x R1);
          [so|reflexivity| |].
        -- intros z Hz. simpl in Hz. simp_st.
           unfold m5, m4, m3, m2. rewrite !store_out by lia. reflexivity.
        -- repeat constructor.
      * intros y s z Hin Hz. apply (quiet_keeps _ _ _ _ Q6 y s z); [|exact Hz].
        simp_st. unfold bs'.
        apply (retag_alloc_kept (with_mem m1 st) l1 [(c, false)]);
          [simpl; lia|repeat constructor|exact Hin].
    + intros y. simpl. rewrite Hfl1. split.
      * intros [E|H]; [left; split; [lia|congruence]|right; exact H].
      * intros [[_ E]|H]; [left; congruence|right; exact H].
    + intros _. reflexivity.
    + simpl. lia.
  - (* the whole block *)
    rewrite (step_put_hdr (with_mem m1 st) Hlo Htop) by so. simp_st.
    rewrite PACK_1 by exact Mx.
    set (m2 := store m1 (x - 4) (c + 1)).
    rewrite (step_FTRP (with_mem m2 st) Hlo Htop x c)
      by (so; unfold m2; ls; apply size_plus1; exact Mx).
    rewrite PUT_run by so. simp_st.
    set (m3 := store m2 (x + c - 8) (c + 1)).
    assert (R3 : Rep (with_mem m3 (with_mem m1 st)) (l1 ++ [(c, true)] ++ l2) fl1).
    { apply (Rep_retag (with_mem m1 st) l1 [(c, false)] [(c, true)] l2 fl1 m3 x R1).
      - so.
      - reflexivity.
      - repeat constructor; simpl; consts; try lia; assumption.
      - apply tags_one; simpl fst; rewrite ?tag_used; unfold m3, m2; ls; reflexivity.
      - intros z Hz. simpl in Hz. simp_st.
        unfold m3, m2. rewrite !store_out by lia. reflexivity.
      - intros y s Hy Hin. exfalso. eapply Hold; eassumption. }
    simp_st.
    exists (with_mem m3 st), fl1.
    split; [reflexivity|]. split; [exact R3|]. split; [|split; [|split; [|split; [|split]]]].
    + intros y s Hy. simp_st. apply placed_3 in Hy. destruct Hy as [Hy|[Hy|Hy]].
      * apply Hfl1. split.
        -- eapply AL. apply placed_3. left. exact Hy.
        -- pose proof (rep_wf _ _ _ R) as W. apply Forall_3 in W. destruct W as (W1 & _).
           pose proof (placed_bounds _ _ _ _ (Forall_wf_user_block _ W1) Hy).
           pose proof (placed_wf _ _ _ _ _ W1 Hy) as [U _]. consts. simpl in *. lia.
      * simpl in Hy. destruct Hy as [E|[]]; inversion E.
      * apply Hfl1. split.
        -- eapply AL. apply placed_3. right. right. exact Hy.
        -- pose proof (rep_wf _ _ _ R) as W. apply Forall_3 in W. destruct W as (_ & _ & W2).
           pose proof (placed_bounds _ _ _ _ (Forall_wf_user_block _ W2) Hy).
           change (total [(c, true)]) with (c + 0) in *. lia.
    + apply same_region_with_mem.
    + simp_st. apply (keeps_trans _ _ _ m1); [apply quiet_keeps; exact Q1|].
      apply (retag_keeps (with_mem m1 st) l1 [(c, false)] [(c, false)] l2 fl1 m3 x R1);
        [so|reflexivity| |].
      * intros z Hz. simpl in Hz. simp_st.
        unfold m3, m2. rewrite !store_out by lia. reflexivity.
      * repeat constructor.
    + intros y. rewrite Hfl1. split; [intros H; right; exact H|].
      intros [[H _]|H]; [lia|exact H].
    + intros H. lia.
    + lia.
Qed.

(** * [coalesce] *)

Lemma alloc_iff_retag (st : state) (l1 old new l2 : list block) (y s : Z) :
  total new = total old ->
  Forall (fun b => snd b = false) old -> Forall (fun b => snd b = false) new ->
  In (y, (s, true)) (placed (mem_start_brk st + 32) (l1 ++ old ++ l2)) <->
  In (y, (s, true)) (placed (mem_start_brk st + 32) (l1 ++ new ++ l2)).
Proof.
  intros E F1 F2. split.
  - apply (retag_alloc_kept st l1 old new l2 E y s F1).
  - apply (retag_alloc_kept st l1 new old l2 (eq_sym E) y s F2).
Qed.

(** A node of the free list is the address of no allocated block, nor the
    end of the heap. *)
Lemma node_not_next (st : state) (l1 l2 : list block) (fl : list Z) (x : Z) (b : block) :
  Rep st (l1 ++ [b] ++ l2) fl ->
  x = mem_start_brk st + 32 + total l1 ->
  next_bit l2 = 1 -> ~ In (x + fst b) fl.
Proof.
  intros R Hx Hn Hin.
  destruct (Rep_node _ _ _ R _ Hin) as (sy & Py & B1 & B2 & Sy).
  pose proof (rep_brk _ _ _ R) as Hb. rewrite total_3 in Hb.
  change (total [b]) with (fst b + 0) in Hb.
  destruct l2 as [|[sn an] l2'].
  - simpl in Hb. lia.
  - destruct an; [|discriminate].
    assert (Pn : In (x + fst b, (sn, true))
                    (placed (mem_start_brk st + 32) (l1 ++ [b] ++ (sn, true) :: l2'))).
    { apply placed_3. right. right. rewrite <- Hx. simpl. left. f_equal. lia. }
    pose proof (placed_fun _ _ _ _ _ (Forall_wf_user_block _ (rep_wf _ _ _ R)) Py Pn) as E.
    inversion E.
Qed.

(** The second half of [coalesce] on the sequence of blocks: the block is
    merged with a free successor, whose node leaves the list, and becomes
    the first node. *)
Lemma coalesce_next_blocks (st : state) (l1 l2 : list block) (fl : list Z) (x s : Z) :
  Rep st (l1 ++ [(s, false)] ++ l2) fl ->
  x = mem_start_brk st + 32 + total l1 ->
  ~ In x fl ->
  others_listed st (l1 ++ [(s, false)] ++ l2) fl x ->
  exists st' sr,
    coalesce_next (next_bit l2) x s st = Ret (x, st') /\
    Rep st' (l1 ++ merge_next s l2) (x :: remove Z.eq_dec (x + s) fl) /\
    all_listed st' (l1 ++ merge_next s l2) (x :: remove Z.eq_dec (x + s) fl) /\
    same_region st st' /\
    keeps (mem_start_brk st) (l1 ++ [(s, false)] ++ l2) (mem st) (mem st') /\
    (forall y sy, In (y, (sy, true)) (placed (mem_start_brk st + 32) (l1 ++ [(s, false)] ++ l2)) <->
                  In (y, (sy, true)) (placed (mem_start_brk st + 32) (l1 ++ merge_next s l2))) /\
    In (x, (sr, false)) (placed (mem_start_brk st + 32) (l1 ++ merge_next s l2)) /\ s <= sr /\
    (length (x :: remove Z.eq_dec (x + s)%Z fl) <= length fl + 1)%nat.
Proof.
  intros R Hx Nx OL.
  set (bs := l1 ++ [(s, false)] ++ l2) in *.
  assert (Px : In (x, (s, false)) (placed (mem_start_brk st + 32) bs)).
  { unfold bs. rewrite Hx. apply placed_mid. }
  pose proof (Rep_block _ _ _ R _ _ Px) as (Bx1 & Bx2 & Sx & Mx & Ax & Th & Tf).
  simpl fst in *. rewrite tag_free in Th, Tf.
  pose proof (rep_lo _ _ _ R) as Hlo. pose proof (rep_top _ _ _ R) as Htop.
  unfold coalesce_next.
  assert (Skip : next_bit l2 = 1 ->
    exists st' sr,
      (insertblock x;; ret x) st = Ret (x, st') /\
      Rep st' bs (x :: remove Z.eq_dec (x + s) fl) /\
      all_listed st' bs (x :: remove Z.eq_dec (x + s) fl) /\ same_region st st' /\
      keeps (mem_start_brk st) bs (mem st) (mem st') /\
      (forall y sy, In (y, (sy, true)) (placed (mem_start_brk st + 32) bs) <->
                    In (y, (sy, true)) (placed (mem_start_brk st + 32) bs)) /\
      In (x, (sr, false)) (placed (mem_start_brk st + 32) bs) /\ s <= sr /\
      (length (x :: remove Z.eq_dec (x + s)%Z fl) <= length fl + 1)%nat).
  { intros Hnb. destruct (insertblock_spec _ _ _ _ _ R Px Nx) as (Irun & R1 & Q1).
    rewrite (notin_remove Z.eq_dec fl (x + s))
      by exact (node_not_next st l1 l2 fl x (s, false) R Hx Hnb).
    exists (with_mem (mem_insert (mem st) (heap_listp st) x) st), s.
    rewrite (bind_run _ _ _ _ _ Irun). unfold ret.
    split; [reflexivity|]. split; [exact R1|]. split; [|split; [|split; [|split; [|split; [|split]]]]].
    - intros y sy Hy. simp_st. destruct (Z.eq_dec y x) as [E|E]; [left; congruence|].
      right. eapply OL; eassumption.
    - apply same_region_with_mem.
    - simp_st. apply quiet_keeps. exact Q1.
    - intros; tauto.
    - exact Px.
    - lia.
    - simpl. lia. }
  destruct l2 as [|[sn an] l2'].
  - simpl next_bit. simpl. rewrite step_ret. apply Skip. reflexivity.
  - destruct an.
    + simpl next_bit. simpl Z.eqb. cbv iota. rewrite step_ret. apply Skip. reflexivity.
    + clear Skip. simpl next_bit. simpl Z.eqb. cbv iota.
      assert (Pn : In (x + s, (sn, false)) (placed (mem_start_brk st + 32) bs)).
      { unfold bs. apply placed_3. right. right. rewrite <- Hx. simpl.
        left. f_equal. lia. }
      pose proof (Rep_block _ _ _ R _ _ Pn) as (Bn1 & Bn2 & Sn & Mn & An & Tnh & Tnf).
      simpl fst in *. rewrite tag_free in Tnh, Tnf.
      assert (Fn : In (x + s) fl) by (eapply OL; [exact Pn|lia]).
      rewrite !bind_assoc.
      rewrite (step_NEXT_BLKP st Hlo Htop x s)
        by (so; rewrite Th; apply size_plus0; exact Mx).
      rewrite !bind_assoc.
      rewrite (step_size_hdr st Hlo Htop (x + s) sn)
        by (so; rewrite Tnh; apply size_plus0; exact Mn).
      rewrite (wrap_small (s + sn)) by (unfold wB in *; lia).
      rewrite !PACK_0.
      destruct (deleteblock_at _ _ _ _ R Fn) as (Drun & R1 & Q1).
      set (fl1 := remove Z.eq_dec (x + s) fl) in *.
      assert (Hfl1 : forall y, In y fl1 <-> In y fl /\ y <> x + s).
      { intros y. unfold fl1. split.
        - intros H. apply in_remove in H. exact H.
        - intros [H N]. apply in_in_remove; assumption. }
      assert (Len1 : (length fl1 < length fl)%nat)
        by (apply remove_length_lt; exact Fn).
      set (m1 := mem_delete (mem st) (x + s)) in *.
      rewrite !bind_assoc.
      rewrite (bind_run _ _ _ _ _ Drun).
      rewrite !bind_assoc.
      rewrite (step_put_hdr (with_mem m1 st) Hlo Htop) by so. simp_st.
      set (m2 := store m1 (x - 4) (s + sn)).
      assert (Ms : (s + sn) mod 8 = 0) by (Z.div_mod_to_equations; lia).
      rewrite !bind_assoc.
      rewrite (step_FTRP (with_mem m2 st) Hlo Htop x (s + sn))
        by (so; unfold m2; ls; apply size_plus0; exact Ms).
      rewrite ?bind_assoc.
      rewrite (step_PUT (with_mem m2 st)) by so. simp_st.
      set (m3 := store m2 (x + (s + sn) - 8) (s + sn)).
      change (l1 ++ [(s, false)] ++ (sn, false) :: l2')
        with (l1 ++ [(s, false)] ++ [(sn, false)] ++ l2') in bs.
      assert (Ebs : bs = l1 ++ [(s, false); (sn, false)] ++ l2') by reflexivity.
      rewrite Ebs in R1.
      assert (R3 : Rep (with_mem m3 (with_mem m1 st)) (l1 ++ [(s + sn, false)] ++ l2') fl1).
      { apply (Rep_retag (with_mem m1 st) l1 [(s, false); (sn, false)] [(s + sn, false)] l2' fl1 m3 x R1).
        - so.
        - simpl. lia.
        - repeat constructor; simpl; consts; try lia; assumption.
        - apply tags_one; simpl fst; rewrite ?tag_free; unfold m3, m2; ls; reflexivity.
        - intros z Hz. simpl in Hz. simp_st.
          unfold m3, m2. rewrite !store_out by lia. reflexivity.
        - intros y sy Hy Hin. exfalso. apply Hfl1 in Hy. destruct Hy as [Hy Ny].
          simpl in Hin. destruct Hin as [E|[E|[]]]; inversion E; subst y; contradiction. }
      simp_st.
      set (bs' := l1 ++ [(s + sn, false)] ++ l2') in *.
      assert (Px' : In (x, (s + sn, false)) (placed (mem_start_brk st + 32) bs')).
      { unfold bs'. rewrite Hx. apply placed_mid. }
      assert (Nx' : ~ In x fl1) by (intros H; apply Hfl1 in H; tauto).
      destruct (insertblock_spec _ _ _ _ _ R3 Px' Nx') as (Irun & R4 & Q4).
      simp_st.
      exists (with_mem (mem_insert m3 (heap_listp st) x) st), (s + sn).
      change (l1 ++ merge_next s ((sn, false) :: l2')) with bs'.
      rewrite (bind_run _ _ _ _ _ Irun). unfold ret.
      assert (AI : forall y sy,
                 In (y, (sy, true)) (placed (mem_start_brk st + 32) bs) <->
                 In (y, (sy, true)) (placed (mem_start_brk st + 32) bs')).
      { intros y sy. rewrite Ebs. unfold bs'.
        apply (alloc_iff_retag st l1 [(s, false); (sn, false)] [(s + sn, false)]);
          [simpl; lia|repeat constructor|repeat constructor]. }
      split; [reflexivity|]. split; [exact R4|]. split; [|split; [|split; [|split; [|split; [|split]]]]].
      * intros y sy Hy. simp_st. destruct (Z.eq_dec y x) as [E|E]; [left; congruence|].
        right. apply Hfl1.
        pose proof (rep_wf _ _ _ R) as W. rewrite Ebs in W.
        apply Forall_3 in W. destruct W as (W1 & _ & W2).
        apply placed_3 in Hy. destruct Hy as [Hy|[Hy|Hy]].
        -- pose proof (placed_bounds _ _ _ _ (Forall_wf_user_block _ W1) Hy).
           pose proof (placed_wf _ _ _ _ _ W1 Hy) as [U _]. consts. simpl in *.
           split; [|lia]. eapply OL; [|lia].
           apply (proj2 (placed_3 _ _ _ l1 [(s, false); (sn, false)] l2')). left. exact Hy.
        -- rewrite <- Hx in Hy. simpl in Hy. destruct Hy as [E'|[]]. inversion E'. congruence.
        -- pose proof (placed_bounds _ _ _ _ (Forall_wf_user_block _ W2) Hy).
           change (total [(s + sn, false)]) with (s + sn + 0) in *.
           split; [|lia]. eapply OL; [|lia].
           apply (proj2 (placed_3 _ _ _ l1 [(s, false); (sn, false)] l2')). right. right.
           change (total [(s, false); (sn, false)]) with (s + (sn + 0)).
           replace (mem_start_brk st + 32 + total l1 + (s + (sn + 0)))
             with (mem_start_brk st + 32 + total l1 + (s + sn + 0)) by lia.
           exact Hy.
      * apply same_region_with_mem.
      * simp_st. apply (keeps_trans _ _ _ m1); [apply quiet_keeps; exact Q1|].
        apply (keeps_trans _ _ _ m3).
        -- rewrite Ebs.
           apply (retag_keeps (with_mem m1 st) l1 [(s, false); (sn, false)]
                              [(s, false); (sn, false)] l2' fl1 m3 x R1);
             [so|reflexivity| |repeat constructor].
           intros z Hz. simpl in Hz. simp_st.
           unfold m3, m2. rewrite !store_out by lia. reflexivity.
        -- intros y sy z Hin Hz. apply (quiet_keeps _ _ _ _ Q4 y sy z); [|exact Hz].
           simp_st. apply AI. exact Hin.
      * exact AI.
      * exact Px'.
      * lia.
      * simpl. lia.
Qed.

Lemma coalesce_next_spec (st : state) (l1 l2 : list block) (fl : list Z) (x s : Z) :
  Rep st (l1 ++ [(s, false)] ++ l2) fl ->
  x = mem_start_brk st + 32 + total l1 ->
  ~ In x fl ->
  others_listed st (l1 ++ [(s, false)] ++ l2) fl x ->
  exists st' bs' fl' sr,
    coalesce_next (next_bit l2) x s st = Ret (x, st') /\
    Rep st' bs' fl' /\ all_listed st' bs' fl' /\ same_region st st' /\
    keeps (mem_start_brk st) (l1 ++ [(s, false)] ++ l2) (mem st) (mem st') /\
    (forall y sy, In (y, (sy, true)) (placed (mem_start_brk st + 32) (l1 ++ [(s, false)] ++ l2)) <->
                  In (y, (sy, true)) (placed (mem_start_brk st + 32) bs')) /\
    In (x, (sr, false)) (placed (mem_start_brk st + 32) bs') /\ s <= sr /\
    (length fl' <= length fl + 1)%nat.
Proof.
  intros R Hx Nx OL.
  destruct (coalesce_next_blocks _ _ _ _ _ _ R Hx Nx OL) as (st' & sr & H).
  exists st', (l1 ++ merge_next s l2), (x :: remove Z.eq_dec (x + s) fl), sr. exact H.
Qed.

Lemma list_last_case {A} (l : list A) : l = [] \/ exists l' a, l = l' ++ [a].
Proof.
  destruct l as [|a l]; [left; reflexivity|right].
  destruct (exists_last (l := a :: l)) as (l' & b & E); [discriminate|].
  exists l', b. exact E.
Qed.

Lemma next_bit_load (st : state) (l1 l2 : list block) (fl : list Z) (x s : Z) :
  Rep st (l1 ++ [(s, false)] ++ l2) fl ->
  x = mem_start_brk st + 32 + total l1 ->
  load (mem st) (x + s - 4) mod 2 = next_bit l2.
Proof.
  intros R Hx. destruct l2 as [|[sn an] l2']; simpl next_bit.
  - pose proof (rep_brk _ _ _ R) as Hb. rewrite total_3 in Hb.
    change (total [(s, false)]) with (s + 0) in Hb. simpl total in Hb.
    replace (x + s - 4) with (mem_brk st - 4) by lia.
    rewrite (rep_epi _ _ _ R). reflexivity.
  - assert (Pn : In (x + s, (sn, an)) (placed (mem_start_brk st + 32)
                                              (l1 ++ [(s, false)] ++ (sn, an) :: l2'))).
    { apply placed_3. right. right. rewrite <- Hx. simpl. left. f_equal. lia. }
    pose proof (Rep_block _ _ _ R _ _ Pn) as (_ & _ & _ & Mn & _ & Tnh & _).
    rewrite Tnh. apply tag_alloc. exact Mn.
Qed.

(** The block before a user block: the last block of [l1], or the prologue. *)
Lemma prev_block_last (st : state) (l1 l2 : list block) (fl : list Z) (x s : Z) :
  Rep st (l1 ++ [(s, false)] ++ l2) fl ->
  x = mem_start_brk st + 32 + total l1 ->
  exists sp ap,
    24 <= sp /\ sp mod 8 = 0 /\ mem_start_brk st + 8 <= x - sp /\
    load (mem st) (x - 8) = tag (sp, ap) /\
    load (mem st) (x - sp - 4) = tag (sp, ap) /\
    (ap = true \/ exists l1', l1 = l1' ++ [(sp, false)]) /\
    last l1 prologue = (sp, ap).
Proof.
  intros R Hx. destruct (list_last_case l1) as [E|(l1' & [sp ap] & E)]; subst l1.
  - exists 24, true. destruct (Rep_prologue _ _ _ R) as [P1 P2].
    simpl in Hx. subst x.
    replace (mem_start_brk st + 32 + 0 - 8) with (mem_start_brk st + 24) by lia.
    replace (mem_start_brk st + 32 + 0 - 24 - 4) with (mem_start_brk st + 4) by lia.
    repeat split; try lia; try assumption; try (left; reflexivity).
  - exists sp, ap.
    assert (Pp : In (x - sp, (sp, ap)) (placed (mem_start_brk st + 32)
                                               ((l1' ++ [(sp, ap)]) ++ [(s, false)] ++ l2))).
    { apply placed_3. left. rewrite placed_app. apply in_or_app. right. simpl. left.
      f_equal. rewrite total_app in Hx. simpl in Hx. lia. }
    pose proof (Rep_block _ _ _ R _ _ Pp) as (B1 & B2 & S & Mp & _ & T1 & T2).
    simpl fst in *.
    replace (x - sp + sp - 8) with (x - 8) in T2 by lia.
    split; [lia|]. split; [exact Mp|]. split; [lia|]. split; [exact T2|].
    split; [exact T1|]. split; [|apply last_last].
    destruct ap; [left; reflexivity|right]. exists l1'. reflexivity.
Qed.

Lemma prev_block (st : state) (l1 l2 : list block) (fl : list Z) (x s : Z) :
  Rep st (l1 ++ [(s, false)] ++ l2) fl ->
  x = mem_start_brk st + 32 + total l1 ->
  exists sp ap,
    24 <= sp /\ sp mod 8 = 0 /\ mem_start_brk st + 8 <= x - sp /\
    load (mem st) (x - 8) = tag (sp, ap) /\
    load (mem st) (x - sp - 4) = tag (sp, ap) /\
    (ap = true \/ exists l1', l1 = l1' ++ [(sp, false)]).
Proof.
  intros R Hx.
  destruct (prev_block_last _ _ _ _ _ _ R Hx) as (sp & ap & H1 & H2 & H3 & H4 & H5 & H6 & _).
  exists sp, ap. repeat split; assumption.
Qed.

(** [coalesce] on the sequence of blocks: the free block of size [s]
    between [l1] and [l2] is merged with its free neighbours, whose nodes
    leave the free list, and the merged block becomes the first node. *)
Lemma coalesce_blocks (st : state) (l1 l2 : list block) (fl : list Z) (x s : Z) :
  Rep st (l1 ++ [(s, false)] ++ l2) fl ->
  x = mem_start_brk st + 32 + total l1 ->
  ~ In x fl ->
  others_listed st (l1 ++ [(s, false)] ++ l2) fl x ->
  exists st' sr,
    coalesce x st = Ret (x - prev_free_size l1, st') /\
    Rep st' (merged l1 s l2)
        ((x - prev_free_size l1)
           :: remove Z.eq_dec (x + s) (remove Z.eq_dec (x - prev_free_size l1) fl)) /\
    all_listed st' (merged l1 s l2)
        ((x - prev_free_size l1)
           :: remove Z.eq_dec (x + s) (remove Z.eq_dec (x - prev_free_size l1) fl)) /\
    same_region st st' /\
    keeps (mem_start_brk st) (l1 ++ [(s, false)] ++ l2) (mem st) (mem st') /\
    (forall y sy, In (y, (sy, true)) (placed (mem_start_brk st + 32) (l1 ++ [(s, false)] ++ l2)) <->
                  In (y, (sy, true)) (placed (mem_start_brk st + 32) (merged l1 s l2))) /\
    In (x - prev_free_size l1, (sr, false))
       (placed (mem_start_brk st + 32) (merged l1 s l2)) /\ s <= sr /\
    (length (remove Z.eq_dec (x + s)%Z (remove Z.eq_dec (x - prev_free_size l1)%Z fl))
     <= length fl)%nat.
Proof.
  intros R Hx Nx OL.
  set (bs := l1 ++ [(s, false)] ++ l2) in *.
  assert (Px : In (x, (s, false)) (placed (mem_start_brk st + 32) bs)).
  { unfold bs. rewrite Hx. apply placed_mid. }
  pose proof (Rep_block _ _ _ R _ _ Px) as (Bx1 & Bx2 & Sx & Mx & Ax & Th & Tf).
  simpl fst in *. rewrite tag_free in Th, Tf.
  pose proof (rep_lo _ _ _ R) as Hlo. pose proof (rep_top _ _ _ R) as Htop.
  destruct (prev_block_last _ _ _ _ _ _ R Hx)
    as (sp & ap & Sp & Mp & Bp & Tpf & Tph & Cp & Elast).
  unfold merged, prev_free_size. rewrite Elast.
  pose proof (next_bit_load _ _ _ _ _ _ R Hx) as Enb.
  unfold coalesce.
  rewrite (step_PREV_BLKP st Hlo Htop x sp)
    by (so; rewrite Tpf; apply tag_size; exact Mp).
  rewrite (step_FTRP st Hlo Htop (x - sp) sp)
    by (so; rewrite Tph; apply tag_size; exact Mp).
  replace (x - sp + sp - 8) with (x - 8) by lia.
  rewrite (step_GET_ALLOC st (x - 8) (if ap then 1 else 0))
    by (so; rewrite Tpf; apply (tag_alloc (sp, ap)); exact Mp).
  rewrite (step_NEXT_BLKP st Hlo Htop x s)
    by (so; rewrite Th; apply size_plus0; exact Mx).
  rewrite (step_alloc_hdr st Hlo Htop (x + s) (next_bit l2)) by so.
  rewrite (step_size_hdr st Hlo Htop x s)
    by (so; rewrite Th; apply size_plus0; exact Mx).
  destruct ap.
  - (* the previous block is allocated *)
    simpl Z.eqb. cbv iota. rewrite step_ret.
    destruct (coalesce_next_blocks _ _ _ _ _ _ R Hx Nx OL)
      as (st' & sr & Crun & R' & AL' & SR' & K' & AI' & Pr & Ssr & Len').
    rewrite Z.sub_0_r. rewrite (notin_remove Z.eq_dec fl x Nx).
    exists st', sr. repeat (split; [assumption|]). simpl in Len'. lia.
  - (* the previous block is free *)
    destruct Cp as [Cp|(l1' & El1)]; [discriminate|].
    simpl Z.eqb. cbv iota. rewrite tag_free in Tpf, Tph.
    assert (Hxp : x - sp = mem_start_brk st + 32 + total l1').
    { rewrite El1, total_app in Hx. simpl in Hx. lia. }
    assert (Ebs : bs = l1' ++ [(sp, false); (s, false)] ++ l2).
    { unfold bs. rewrite El1, <- app_assoc. reflexivity. }
    assert (Pp : In (x - sp, (sp, false)) (placed (mem_start_brk st + 32) bs)).
    { rewrite Ebs, Hxp. apply placed_mid. }
    assert (Fp : In (x - sp) fl) by (eapply OL; [exact Pp|lia]).
    rewrite !bind_assoc.
    rewrite (step_PREV_BLKP st Hlo Htop x sp)
      by (so; rewrite Tpf; apply size_plus0; exact Mp).
    rewrite !bind_assoc.
    rewrite (step_size_hdr st Hlo Htop (x - sp) sp)
      by (so; rewrite Tph; apply size_plus0; exact Mp).
    rewrite (wrap_small (s + sp)) by (unfold wB in *; lia).
    rewrite !PACK_0.
    rewrite !bind_assoc.
    rewrite (step_FTRP st Hlo Htop x s)
      by (so; rewrite Th; apply size_plus0; exact Mx).
    rewrite !bind_assoc.
    rewrite (step_PUT st) by so.
    set (m1 := store (mem st) (x + s - 8) (s + sp)).
    rewrite !bind_assoc.
    rewrite (step_put_hdr (with_mem m1 st) Hlo Htop) by so. simp_st.
    set (m2 := store m1 (x - sp - 4) (s + sp)).
    assert (R0 : Rep st (l1' ++ [(sp, false); (s, false)] ++ l2) fl)
      by (rewrite <- Ebs; exact R).
    assert (Hout : forall a, a < x - sp - 4 \/ x - sp + total [(sp, false); (s, false)] - 4 <= a ->
                             m2 a = mem st a).
    { intros z Hz. simpl in Hz. unfold m2, m1. rewrite !store_out by lia. reflexivity. }
    assert (R2 : Rep (with_mem m2 st) (l1' ++ [(s + sp, false)] ++ l2) fl).
    { apply (Rep_retag st l1' [(sp, false); (s, false)] [(s + sp, false)] l2 fl m2 (x - sp) R0).
      - exact Hxp.
      - simpl. lia.
      - repeat constructor; simpl; consts; try lia.
        Z.div_mod_to_equations; lia.
      - apply tags_one; simpl fst; rewrite ?tag_free; unfold m2, m1.
        + ls. reflexivity.
        + replace (x - sp + (s + sp) - 8) with (x + s - 8) by lia. ls. reflexivity.
      - exact Hout.
      - intros y sy Hy Hin. simpl in Hin.
        assert (Ey : y = x - sp \/ y = x)
          by (destruct Hin as [E|[E|[]]]; inversion E; lia).
        destruct Ey as [Ey|Ey]; subst y; [|contradiction].
        split; [exists (s + sp); left; reflexivity|].
        unfold m2, m1. ls. split; reflexivity. }
    set (bs1 := l1' ++ [(s + sp, false)] ++ l2) in *.
    assert (Pp1 : In (x - sp, (s + sp, false)) (placed (mem_start_brk st + 32) bs1)).
    { unfold bs1. rewrite Hxp. apply placed_mid. }
    assert (AI : forall y sy,
               In (y, (sy, true)) (placed (mem_start_brk st + 32) bs) <->
               In (y, (sy, true)) (placed (mem_start_brk st + 32) bs1)).
    { intros y sy. rewrite Ebs. unfold bs1.
      apply (alloc_iff_retag st l1' [(sp, false); (s, false)] [(s + sp, false)]);
        [simpl; lia|repeat constructor|repeat constructor]. }
    destruct (deleteblock_at _ _ _ _ R2 Fp) as (Drun & R3 & Q3).
    set (fl1 := remove Z.eq_dec (x - sp) fl) in *.
    assert (Hfl1 : forall y, In y fl1 <-> In y fl /\ y <> x - sp).
    { intros y. unfold fl1. split.
      - intros H. apply in_remove in H. exact H.
      - intros [H N]. apply in_in_remove; assumption. }
    assert (Len1 : (length fl1 < length fl)%nat)
      by (apply remove_length_lt; exact Fp).
    simp_st. set (m3 := mem_delete m2 (x - sp)) in *.
    rewrite !bind_assoc.
    rewrite (bind_run _ _ _ _ _ Drun).
    rewrite step_ret.
    assert (Np : ~ In (x - sp) fl1) by (intros H; apply Hfl1 in H; tauto).
    assert (OL1 : others_listed (with_mem m3 st) bs1 fl1 (x - sp)).
    { intros y sy Hy Ny. simp_st. apply Hfl1. split; [|exact Ny].
      pose proof (rep_wf _ _ _ R0) as W.
      apply Forall_3 in W. destruct W as (W1 & _ & W2).
      apply (proj1 (placed_3 _ _ _ l1' [(s + sp, false)] l2)) in Hy.
      destruct Hy as [Hy|[Hy|Hy]].
      - pose proof (placed_bounds _ _ _ _ (Forall_wf_user_block _ W1) Hy).
        pose proof (placed_wf _ _ _ _ _ W1 Hy) as [U _]. consts. simpl in *.
        eapply OL; [|lia]. rewrite Ebs.
        apply (proj2 (placed_3 _ _ _ l1' [(sp, false); (s, false)] l2)). left. exact Hy.
      - rewrite <- Hxp in Hy. simpl in Hy. destruct Hy as [E'|[]]. inversion E'. congruence.
      - pose proof (placed_bounds _ _ _ _ (Forall_wf_user_block _ W2) Hy).
        change (total [(s + sp, false)]) with (s + sp + 0) in *.
        eapply OL; [|lia]. rewrite Ebs.
        apply (proj2 (placed_3 _ _ _ l1' [(sp, false); (s, false)] l2)). right. right.
        change (total [(sp, false); (s, false)]) with (sp + (s + 0)).
        replace (mem_start_brk st + 32 + total l1' + (sp + (s + 0)))
          with (mem_start_brk st + 32 + total l1' + (s + sp + 0)) by lia.
        exact Hy. }
    destruct (coalesce_next_blocks (with_mem m3 st) l1' l2 fl1 (x - sp) (s + sp) R3 Hxp Np OL1)
      as (st' & sr & Crun & R' & AL' & SR' & K' & AI' & Pr & Ssr & Len').
    simp_st.
    replace (x - sp + (s + sp)) with (x + s) in * by lia.
    rewrite El1, removelast_last.
    exists st', sr.
    split; [exact Crun|]. split; [exact R'|]. split; [exact AL'|].
    split; [|split; [|split; [|split; [|split]]]].
    + eapply same_region_trans; [apply (same_region_with_mem st m3)|exact SR'].
    + apply (keeps_trans _ _ _ m2).
      { rewrite Ebs.
        apply (retag_keeps st l1' [(sp, false); (s, false)] [(sp, false); (s, false)] l2 fl m2 (x - sp) R0);
          [exact Hxp|reflexivity|exact Hout|repeat constructor]. }
      apply (keeps_trans _ _ _ m3).
      { intros y sy z Hin Hz. apply (quiet_keeps _ _ _ _ Q3 y sy z); [|exact Hz].
        apply AI. exact Hin. }
      intros y sy z Hin Hz. apply (K' y sy z); [|exact Hz]. apply AI. exact Hin.
    + intros y sy. rewrite AI. apply AI'.
    + exact Pr.
    + lia.
    + simpl in Len'. lia.
Qed.

Lemma coalesce_spec (st : state) (l1 l2 : list block) (fl : list Z) (x s : Z) :
  Rep st (l1 ++ [(s, false)] ++ l2) fl ->
  x = mem_start_brk st + 32 + total l1 ->
  ~ In x fl ->
  others_listed st (l1 ++ [(s, false)] ++ l2) fl x ->
  exists r st' bs' fl' sr,
    coalesce x st = Ret (r, st') /\
    Rep st' bs' fl' /\ all_listed st' bs' fl' /\ same_region st st' /\
    keeps (mem_start_brk st) (l1 ++ [(s, false)] ++ l2) (mem st) (mem st') /\
    (forall y sy, In (y, (sy, true)) (placed (mem_start_brk st + 32) (l1 ++ [(s, false)] ++ l2)) <->
                  In (y, (sy, true)) (placed (mem_start_brk st + 32) bs')) /\
    In (r, (sr, false)) (placed (mem_start_brk st + 32) bs') /\ s <= sr /\
    (length fl' <= length fl + 1)%nat.
Proof.
  intros R Hx Nx OL.
  destruct (coalesce_blocks _ _ _ _ _ _ R Hx Nx OL)
    as (st' & sr & Crun & R' & AL' & SR' & K' & AI' & Pr & Ssr & Len').
  exists (x - prev_free_size l1), st', (merged l1 s l2),
    ((x - prev_free_size l1)
       :: remove Z.eq_dec (x + s) (remove Z.eq_dec (x - prev_free_size l1) fl)), sr.
  repeat (split; [assumption|]). simpl. lia.
Qed.

(** * [find_fit] *)

Lemma find_fit_loop_spec (st : state) (bs : list block) (fl : list Z) (asize : Z) :
  Rep st bs fl ->
  forall (l : list Z) (h : Z) (fuel : nat),
    flist (mem st) h l -> (forall y, In y l -> In y fl) ->
    (length l < fuel)%nat ->
    exists r,
      find_fit_loop fuel asize (load (mem st) h) st = Ret (r, st) /\
      ((r = 0 /\ forall y s, In y l ->
                  In (y, (s, false)) (placed (mem_start_brk st + 32) bs) -> s < asize)
       \/ (exists s, In r l /\ In (r, (s, false)) (placed (mem_start_brk st + 32) bs)
                     /\ asize <= s)).
Proof.
  intros R. pose proof (rep_lo _ _ _ R) as Hlo. pose proof (rep_top _ _ _ R) as Htop.
  induction l as [|y l IH]; intros h fuel F Hsub Hfuel.
  - simpl in F. rewrite F. destruct fuel as [|fuel]; [simpl in Hfuel; lia|].
    exists 0. simpl. split; [reflexivity|]. left. split; [reflexivity|].
    intros y s [].
  - simpl in F. destruct F as (F1 & F2 & F3). rewrite F1.
    destruct fuel as [|fuel]; [simpl in Hfuel; lia|].
    destruct (Rep_node _ _ _ R y (Hsub y (or_introl eq_refl))) as (s & Ps & B1 & B2 & Ss).
    pose proof (Rep_block _ _ _ R _ _ Ps) as (_ & _ & _ & Ms & _ & Th & _).
    simpl fst in *. rewrite tag_free in Th.
    simpl find_fit_loop. unfold NULL.
    destruct (Z.eqb_spec y 0) as [E|_]; [lia|].
    rewrite (step_size_hdr st Hlo Htop y s)
      by (so; rewrite Th; apply size_plus0; exact Ms).
    destruct (Z.leb_spec asize s) as [Hfit|Hno].
    + exists y. split; [reflexivity|]. right. exists s.
      split; [left; reflexivity|]. split; assumption.
    + rewrite (step_NEXT_EX st) by lia.
      destruct (IH y fuel F3) as (r & Hr & Hcase).
      { intros z Hz. apply Hsub. right. exact Hz. }
      { simpl in Hfuel. lia. }
      exists r. split; [exact Hr|].
      destruct Hcase as [[E Hall]|(s' & Hin & Hp & Hs)].
      * left. split; [exact E|]. intros z sz [Ez|Hz] Pz.
        -- subst z.
           pose proof (placed_fun _ _ _ _ _ (Forall_wf_user_block _ (rep_wf _ _ _ R)) Ps Pz) as Eq.
           inversion Eq. lia.
        -- eapply Hall; eassumption.
      * right. exists s'. split; [right; exact Hin|]. split; assumption.
Qed.

Lemma find_fit_spec (st : state) (bs : list block) (fl : list Z) (asize : Z) (fuel : nat) :
  Rep st bs fl -> (length fl < fuel)%nat ->
  exists r,
    find_fit fuel asize st = Ret (r, st) /\
    ((r = 0 /\ forall y s, In y fl ->
                In (y, (s, false)) (placed (mem_start_brk st + 32) bs) -> s < asize)
     \/ (exists s, In r fl /\ In (r, (s, false)) (placed (mem_start_brk st + 32) bs)
                   /\ asize <= s)).
Proof.
  intros R Hfuel. unfold find_fit.
  pose proof (rep_lo _ _ _ R) as Hlo. pose proof (rep_top _ _ _ R) as Htop.
  pose proof (Rep_total _ _ _ R). pose proof (rep_brk _ _ _ R).
  rewrite step_get_hl. rewrite (rep_hl _ _ _ R).
  rewrite (step_NEXT_EX st) by lia.
  apply (find_fit_loop_spec st bs fl asize R fl); [exact (rep_flist _ _ _ R)|auto|exact Hfuel].
Qed.

(** First fit: the node [find_fit] returns is the first one of the list
    whose block is large enough. *)
Lemma find_fit_loop_first (st : state) (bs : list block) (fl : list Z) (asize : Z) :
  Rep st bs fl ->
  forall (l : list Z) (h : Z) (fuel : nat),
    flist (mem st) h l -> (forall y, In y l -> In y fl) ->
    (length l < fuel)%nat ->
    exists r,
      find_fit_loop fuel asize (load (mem st) h) st = Ret (r, st) /\
      ((r = 0 /\ forall y s, In y l ->
                  In (y, (s, false)) (placed (mem_start_brk st + 32) bs) -> s < asize)
       \/ (exists f1 f2 s,
              l = f1 ++ r :: f2 /\
              In (r, (s, false)) (placed (mem_start_brk st + 32) bs) /\ asize <= s /\
              forall y sy, In y f1 ->
                In (y, (sy, false)) (placed (mem_start_brk st + 32) bs) -> sy < asize)).
Proof.
  intros R. pose proof (rep_lo _ _ _ R) as Hlo. pose proof (rep_top _ _ _ R) as Htop.
  induction l as [|y l IH]; intros h fuel F Hsub Hfuel.
  - simpl in F. rewrite F. destruct fuel as [|fuel]; [simpl in Hfuel; lia|].
    exists 0. simpl. split; [reflexivity|]. left. split; [reflexivity|].
    intros y s [].
  - simpl in F. destruct F as (F1 & F2 & F3). rewrite F1.
    destruct fuel as [|fuel]; [simpl in Hfuel; lia|].
    destruct (Rep_node _ _ _ R y (Hsub y (or_introl eq_refl))) as (s & Ps & B1 & B2 & Ss).
    pose proof (Rep_block _ _ _ R _ _ Ps) as (_ & _ & _ & Ms & _ & Th & _).
    simpl fst in *. rewrite tag_free in Th.
    simpl find_fit_loop. unfold NULL.
    destruct (Z.eqb_spec y 0) as [E|_]; [lia|].
    rewrite (step_size_hdr st Hlo Htop y s)
      by (so; rewrite Th; apply size_plus0; exact Ms).
    assert (Hy : forall z sz, z = y ->
               In (z, (sz, false)) (placed (mem_start_brk st + 32) bs) -> sz = s).
    { intros z sz -> Pz.
      pose proof (placed_fun _ _ _ _ _ (Forall_wf_user_block _ (rep_wf _ _ _ R)) Ps Pz) as Eq.
      inversion Eq. reflexivity. }
    destruct (Z.leb_spec asize s) as [Hfit|Hno].
    + exists y. split; [reflexivity|]. right. exists [], l, s.
      split; [reflexivity|]. split; [exact Ps|]. split; [exact Hfit|].
      intros z sz [].
    + rewrite (step_NEXT_EX st) by lia.
      destruct (IH y fuel F3) as (r & Hr & Hcase).
      { intros z Hz. apply Hsub. right. exact Hz. }
      { simpl in Hfuel. lia. }
      exists r. split; [exact Hr|].
      destruct Hcase as [[E Hall]|(f1 & f2 & s' & El & Hp & Hs & Hbefore)].
      * left. split; [exact E|]. intros z sz [Ez|Hz] Pz.
        -- rewrite (Hy z sz (eq_sym Ez) Pz). exact Hno.
        -- eapply Hall; eassumption.
      * right. exists (y :: f1), f2, s'.
        split; [rewrite El; reflexivity|]. split; [exact Hp|]. split; [exact Hs|].
        intros z sz [Ez|Hz] Pz.
        -- rewrite (Hy z sz (eq_sym Ez) Pz). exact Hno.
        -- eapply Hbefore; eassumption.
Qed.

Lemma find_fit_first (st : state) (bs : list block) (fl : list Z) (asize : Z) (fuel : nat) :
  Rep st bs fl -> (length fl < fuel)%nat ->
  exists r,
    find_fit fuel asize st = Ret (r, st) /\
    ((r = 0 /\ forall y s, In y fl ->
                In (y, (s, false)) (placed (mem_start_brk st + 32) bs) -> s < asize)
     \/ (exists f1 f2 s,
            fl = f1 ++ r :: f2 /\
            In (r, (s, false)) (placed (mem_start_brk st + 32) bs) /\ asize <= s /\
            forall y sy, In y f1 ->
              In (y, (sy, false)) (placed (mem_start_brk st + 32) bs) -> sy < asize)).
Proof.
  intros R Hfuel. unfold find_fit.
  pose proof (rep_lo _ _ _ R) as Hlo. pose proof (rep_top _ _ _ R) as Htop.
  pose proof (Rep_total _ _ _ R). pose proof (rep_brk _ _ _ R).
  rewrite step_get_hl. rewrite (rep_hl _ _ _ R).
  rewrite (step_NEXT_EX st) by lia.
  apply (find_fit_loop_first st bs fl asize R fl); [exact (rep_flist _ _ _ R)|auto|exact Hfuel].
Qed.

(** * [extend_heap] *)

Lemma words_size (R : Z) :
  R mod 8 = 0 -> 0 <= R < wB ->
  (if (R / WSIZE) mod 2 =? 0 then wrap (R / WSIZE * WSIZE)
   else wrap (wrap (R / WSIZE + 1) * WSIZE)) = R.
Proof.
  intros M B. unfold WSIZE.
  assert (E : (R / 4) mod 2 = 0) by (Z.div_mod_to_equations; lia).
  rewrite E. simpl.
  replace (R / 4 * 4) with R by (Z.div_mod_to_equations; lia).
  apply wrap_small. exact B.
Qed.

Lemma extend_heap_refused (st : state) (R : Z) :
  R mod 8 = 0 -> 0 <= R < wB ->
  mem_avail st (mem_brk st) R && (mem_brk st + R <? wB) = false ->
  extend_heap (R / WSIZE) st = Ret (NULL, st).
Proof.
  intros M B Hno. unfold extend_heap. rewrite (words_size R M B).
  unfold bind at 1. unfold mem_sbrk. rewrite Hno.
  unfold SBRK_FAILED. simpl. reflexivity.
Qed.

(** [extend_heap] on the sequence of blocks: the new area becomes a free
    block behind the last one and is coalesced with it when it is free. *)
Lemma extend_heap_blocks (st : state) (bs : list block) (fl : list Z) (R : Z) :
  Rep st bs fl -> all_listed st bs fl ->
  R mod 8 = 0 -> MINBLOCK <= R < wB ->
  mem_avail st (mem_brk st) R && (mem_brk st + R <? wB) = true ->
  exists st' sr,
    extend_heap (R / WSIZE) st = Ret (mem_brk st - prev_free_size bs, st') /\
    Rep st' (merged bs R [])
        ((mem_brk st - prev_free_size bs)
           :: remove Z.eq_dec (mem_brk st + R)
                (remove Z.eq_dec (mem_brk st - prev_free_size bs) fl)) /\
    all_listed st' (merged bs R [])
        ((mem_brk st - prev_free_size bs)
           :: remove Z.eq_dec (mem_brk st + R)
                (remove Z.eq_dec (mem_brk st - prev_free_size bs) fl)) /\
    same_region (with_brk (mem_brk st + R) st) st' /\
    keeps (mem_start_brk st) bs (mem st) (mem st') /\
    (forall y sy, In (y, (sy, true)) (placed (mem_start_brk st + 32) bs) <->
                  In (y, (sy, true)) (placed (mem_start_brk st + 32) (merged bs R []))) /\
    In (mem_brk st - prev_free_size bs, (sr, false))
       (placed (mem_start_brk st + 32) (merged bs R [])) /\ R <= sr /\
    (length (remove Z.eq_dec (mem_brk st + R)%Z
               (remove Z.eq_dec (mem_brk st - prev_free_size bs)%Z fl))
     <= length fl)%nat.
Proof.
  intros Rp AL M B Hyes.
  pose proof (rep_lo _ _ _ Rp) as Hlo. pose proof (rep_top _ _ _ Rp) as Htop.
  pose proof (Rep_total _ _ _ Rp) as Ht. pose proof (rep_brk _ _ _ Rp) as Hb.
  assert (Hyes' := Hyes).
  apply andb_true_iff in Hyes. destruct Hyes as [_ Hroom]. apply Z.ltb_lt in Hroom.
  unfold extend_heap. rewrite (words_size R M) by (consts; lia).
  unfold bind at 1. unfold mem_sbrk. rewrite Hyes'.
  set (st1 := with_brk (mem_brk st + R) st).
  set (b := mem_brk st) in *.
  assert (Hlo1 : 0 <= mem_start_brk st1) by exact Hlo.
  assert (Htop1 : mem_brk st1 < wB) by (simpl; lia).
  destruct (Z.eqb_spec b SBRK_FAILED) as [E|_]; [consts; lia|].
  rewrite !PACK_0. change (PACK 0 1) with 1.
  unfold MINBLOCK, DSIZE, PSIZE, OVERHEAD in B.
  rewrite (step_put_hdr st1 Hlo1 Htop1) by (simpl; lia).
  set (m1 := store (mem st1) (b - 4) R).
  rewrite (step_FTRP (with_mem m1 st1) Hlo1 Htop1 b R)
    by (simp_st; simpl; try (unfold wB in *; lia); unfold m1; ls; apply size_plus0; exact M).
  rewrite (step_PUT (with_mem m1 st1)) by (simp_st; simpl; lia). simp_st.
  set (m2 := store m1 (b + R - 8) R).
  rewrite (step_NEXT_BLKP (with_mem m2 st1) Hlo1 Htop1 b R)
    by (simp_st; simpl; try (unfold wB in *; lia); unfold m2, m1; ls; apply size_plus0; exact M).
  rewrite (step_put_hdr (with_mem m2 st1) Hlo1 Htop1) by (simp_st; simpl; lia). simp_st.
  set (m3 := store m2 (b + R - 4) 1).
  assert (Hm3 : forall a, a < b - 4 -> m3 a = mem st a).
  { intros a Ha. unfold m3, m2, m1. rewrite !store_out by lia. reflexivity. }
  assert (Hl3 : forall a, a + 4 <= b - 4 -> load m3 a = load (mem st) a).
  { intros a Ha. apply load_ext. intros z Hz. apply Hm3. lia. }
  assert (R3 : Rep (with_mem m3 st1) (bs ++ [(R, false)] ++ []) fl).
  { constructor; simp_st; simpl mem_start_brk; simpl mem_brk; simpl heap_listp.
    - exact Hlo.
    - exact (rep_align _ _ _ Rp).
    - exact (rep_hl _ _ _ Rp).
    - rewrite total_app. simpl. lia.
    - lia.
    - apply Forall_app. split; [exact (rep_wf _ _ _ Rp)|].
      repeat constructor; simpl; consts; lia || assumption.
    - change (prologue :: bs ++ [(R, false)] ++ []) with ((prologue :: bs) ++ [(R, false)]).
      apply tags_app. split.
      + apply (tags_ext (mem st)); [exact (rep_tags _ _ _ Rp)|].
        intros y c Hin.
        pose proof (placed_bounds _ _ _ _ (Rep_wf_all _ _ _ Rp) Hin) as [B1 B2].
        pose proof (placed_wf _ _ _ _ _ (Rep_wf_all _ _ _ Rp) Hin) as [U _].
        change (total (prologue :: bs)) with (24 + total bs) in B2.
        split; apply Hl3; lia.
      + change (total (prologue :: bs)) with (24 + total bs).
        replace (mem_start_brk st + 8 + (24 + total bs)) with b by lia.
        apply tags_one; simpl fst; rewrite ?tag_free; unfold m3, m2, m1; ls; reflexivity.
    - unfold m3. replace (b + R - 4) with (b + R - 4) by lia. ls. reflexivity.
    - apply (flist_ext (mem st)); [exact (rep_flist _ _ _ Rp)| |].
      + apply Hl3. lia.
      + intros y Hy. destruct (Rep_node _ _ _ Rp y Hy) as (s & _ & B1 & B2 & S).
        split; apply Hl3; lia.
    - intros y Hy. destruct (rep_free _ _ _ Rp y Hy) as [s Hs].
      exists s. rewrite placed_app. apply in_or_app. left. exact Hs.
    - exact (rep_nodup _ _ _ Rp). }
  assert (Hx : b = mem_start_brk (with_mem m3 st1) + 32 + total bs) by (simp_st; simpl; lia).
  assert (Nx : ~ In b fl).
  { intros H. destruct (Rep_node _ _ _ Rp b H) as (s & _ & B1 & B2 & S). lia. }
  assert (OL : others_listed (with_mem m3 st1) (bs ++ [(R, false)] ++ []) fl b).
  { intros y s Hy Ny. simp_st. simpl mem_start_brk in Hy.
    rewrite placed_app in Hy. apply in_app_or in Hy. destruct Hy as [Hy|Hy].
    - eapply AL. exact Hy.
    - simpl in Hy. destruct Hy as [E|[]]. inversion E. lia. }
  destruct (coalesce_blocks _ _ _ _ _ _ R3 Hx Nx OL)
    as (st' & sr & Crun & R' & AL' & SR' & K' & AI' & Pr & Ssr & Len').
  simp_st. simpl mem_start_brk in *.
  exists st', sr.
  split; [exact Crun|]. split; [exact R'|]. split; [exact AL'|].
  assert (AI : forall y sy,
             In (y, (sy, true)) (placed (mem_start_brk st + 32) bs) <->
             In (y, (sy, true)) (placed (mem_start_brk st + 32) (bs ++ [(R, false)] ++ []))).
  { intros y sy. rewrite placed_app, in_app_iff. simpl. split; [tauto|].
    intros [H|[H|[]]]; [exact H|inversion H]. }
  split; [|split; [|split; [|split; [|split]]]].
  - eapply same_region_trans; [apply (same_region_with_mem st1 m3)|exact SR'].
  - apply (keeps_trans _ _ _ m3).
    + intros y s a Hin Ha. apply Hm3.
      pose proof (Rep_block _ _ _ Rp _ _ Hin) as (B1 & B2 & _). simpl in B2. lia.
    + intros y s a Hin Ha. apply (K' y s a); [|exact Ha]. apply AI. exact Hin.
  - intros y sy. rewrite AI. apply AI'.
  - exact Pr.
  - exact Ssr.
  - exact Len'.
Qed.

Lemma extend_heap_spec (st : state) (bs : list block) (fl : list Z) (R : Z) :
  Rep st bs fl -> all_listed st bs fl ->
  R mod 8 = 0 -> MINBLOCK <= R < wB ->
  mem_avail st (mem_brk st) R && (mem_brk st + R <? wB) = true ->
  exists r st' bs' fl' sr,
    extend_heap (R / WSIZE) st = Ret (r, st') /\
    Rep st' bs' fl' /\ all_listed st' bs' fl' /\
    same_region (with_brk (mem_brk st + R) st) st' /\
    keeps (mem_start_brk st) bs (mem st) (mem st') /\
    (forall y sy, In (y, (sy, true)) (placed (mem_start_brk st + 32) bs) <->
                  In (y, (sy, true)) (placed (mem_start_brk st + 32) bs')) /\
    In (r, (sr, false)) (placed (mem_start_brk st + 32) bs') /\ R <= sr /\
    (length fl' <= length fl + 1)%nat.
Proof.
  intros Rp AL M B Hyes.
  destruct (extend_heap_blocks _ _ _ _ Rp AL M B Hyes)
    as (st' & sr & Crun & R' & AL' & SR' & K' & AI' & Pr & Ssr & Len').
  exists (mem_brk st - prev_free_size bs), st', (merged bs R []),
    ((mem_brk st - prev_free_size bs)
       :: remove Z.eq_dec (mem_brk st + R)
            (remove Z.eq_dec (mem_brk st - prev_free_size bs) fl)), sr.
  repeat (split; [assumption|]). simpl. lia.
Qed.

(** * [mm_malloc] *)

Lemma realSize_small (n : Z) :
  0 <= n -> n + 31 < wB ->
  realSize_of n = 8 * ((n + 31) / 8) /\ realSize_of n mod 8 = 0 /\
  n + 24 <= realSize_of n <= n + 31.
Proof.
  intros H0 H1. unfold realSize_of, DSIZE, OVERHEAD, PSIZE.
  replace (n + 8 + 2 * 8 + (8 - 1)) with (n + 31) by lia.
  rewrite (wrap_small (n + 31)) by lia.
  rewrite wrap_small by (unfold wB in *; Z.div_mod_to_equations; lia).
  repeat split; Z.div_mod_to_equations; lia.
Qed.

Lemma same_region_grown (st st' : state) : same_region st st' -> grown st st'.
Proof.
  unfold same_region, grown. intros (A1 & A2 & A3 & A4 & A5 & A6).
  repeat split; try assumption. lia.
Qed.

Lemma grown_trans (s1 s2 s3 : state) : grown s1 s2 -> grown s2 s3 -> grown s1 s3.
Proof.
  unfold grown. intros (A1 & A2 & A3 & A4 & A5 & A6) (B1 & B2 & B3 & B4 & B5 & B6).
  repeat split; try congruence. lia.
Qed.

Lemma place_at (st : state) (bs : list block) (fl : list Z) (x c a : Z) :
  Rep st bs fl -> all_listed st bs fl ->
  In (x, (c, false)) (placed (mem_start_brk st + 32) bs) ->
  a mod 8 = 0 -> MINBLOCK <= a <= c ->
  exists st' bs' fl' sr,
    place x a st = Ret (tt, st') /\
    Rep st' bs' fl' /\ all_listed st' bs' fl' /\ same_region st st' /\
    keeps (mem_start_brk st) bs (mem st) (mem st') /\
    (forall y sy, In (y, (sy, true)) (placed (mem_start_brk st + 32) bs) ->
                  In (y, (sy, true)) (placed (mem_start_brk st + 32) bs')) /\
    (forall y sy, In (y, (sy, true)) (placed (mem_start_brk st + 32) bs') ->
                  y = x \/ In (y, (sy, true)) (placed (mem_start_brk st + 32) bs)) /\
    In (x, (sr, true)) (placed (mem_start_brk st + 32) bs') /\ a <= sr /\
    (length fl' <= length fl)%nat.
Proof.
  intros R AL Px Ha Hac.
  destruct (placed_split _ _ _ _ Px) as (l1 & l2 & Ebs & Hx).
  change (l1 ++ (c, false) :: l2) with (l1 ++ [(c, false)] ++ l2) in Ebs. subst bs.
  destruct (place_spec st l1 l2 fl x c a R AL Hx Ha Hac)
    as (st' & fl' & Prun & R' & AL' & SR & K & Hfl & _ & Len).
  exists st', (l1 ++ placed_blocks c a ++ l2), fl'.
  exists (if MINBLOCK <=? c - a then a else c).
  split; [exact Prun|]. split; [exact R'|]. split; [exact AL'|]. split; [exact SR|].
  split; [exact K|].
  assert (Etot : total (placed_blocks c a) = total [(c, false)]).
  { unfold placed_blocks. destruct (MINBLOCK <=? c - a); simpl; lia. }
  split; [|split; [|split; [|split]]].
  - intros y sy Hin.
    apply (retag_alloc_kept st l1 [(c, false)] (placed_blocks c a) l2 Etot y sy);
      [repeat constructor|exact Hin].
  - intros y sy Hin. apply placed_3 in Hin. destruct Hin as [Hin|[Hin|Hin]].
    + right. apply placed_3. left. exact Hin.
    + left. rewrite <- Hx in Hin. unfold placed_blocks in Hin.
      destruct (MINBLOCK <=? c - a); simpl in Hin.
      * destruct Hin as [E|[E|[]]]; inversion E. reflexivity.
      * destruct Hin as [E|[]]; inversion E. reflexivity.
    + right. apply placed_3. right. right. rewrite <- Etot. exact Hin.
  - apply placed_3. right. left. rewrite <- Hx. unfold placed_blocks.
    destruct (MINBLOCK <=? c - a); simpl; left; reflexivity.
  - destruct (MINBLOCK <=? c - a); lia.
  - exact Len.
Qed.

Lemma mm_malloc_spec (st : state) (bs : list block) (fl : list Z) (n : Z) (fuel : nat) :
  Rep st bs fl -> all_listed st bs fl ->
  0 < n -> n + 31 < wB -> (length fl < fuel)%nat ->
  exists r st',
    mm_malloc fuel n st = Ret (r, st') /\
    ((r = NULL /\ st' = st) \/
     (r <> NULL /\
      exists bs' fl' sr,
        Rep st' bs' fl' /\ all_listed st' bs' fl' /\ grown st st' /\
        keeps (mem_start_brk st) bs (mem st) (mem st') /\
        (forall y sy, In (y, (sy, true)) (placed (mem_start_brk st + 32) bs) ->
                      In (y, (sy, true)) (placed (mem_start_brk st + 32) bs')) /\
        (forall y sy, In (y, (sy, true)) (placed (mem_start_brk st + 32) bs') ->
                      y = r \/ In (y, (sy, true)) (placed (mem_start_brk st + 32) bs)) /\
        In (r, (sr, true)) (placed (mem_start_brk st + 32) bs') /\
        realSize_of n <= sr /\
        (forall s, ~ In (r, (s, true)) (placed (mem_start_brk st + 32) bs)) /\
        (length fl' <= length fl + 1)%nat)).
Proof.
  intros R AL Hn Hsmall Hfuel.
  destruct (realSize_small n ltac:(lia) Hsmall) as (ER & MR & BR).
  set (RS := realSize_of n) in *.
  pose proof (Forall_wf_user_block _ (rep_wf _ _ _ R)) as W.
  unfold mm_malloc. destruct (Z.eqb_spec n 0) as [E|_]; [lia|]. fold RS.
  destruct (find_fit_spec st bs fl RS fuel R Hfuel) as (r0 & Frun & Fcase).
  rewrite (bind_run _ _ _ _ _ Frun).
  destruct Fcase as [[E0 _]|(c & Hin & Pc & Hc)].
  - (* no fit: extend the heap *)
    subst r0. change (negb (0 =? NULL)) with false. cbv iota.
    destruct (mem_avail st (mem_brk st) RS && (mem_brk st + RS <? wB)) eqn:Hav.
    + destruct (extend_heap_spec st bs fl RS R AL MR ltac:(consts; lia) Hav)
        as (r & st1 & bs1 & fl1 & sr & Erun & R1 & AL1 & SR1 & K1 & AI1 & Pr & Ssr & Len1).
      rewrite (bind_run _ _ _ _ _ Erun).
      assert (Elo : mem_start_brk st1 = mem_start_brk st) by (destruct SR1 as (A & _); exact A).
      rewrite <- Elo in Pr.
      pose proof (Rep_block _ _ _ R1 _ _ Pr) as (B1 & _).
      pose proof (rep_lo _ _ _ R1).
      unfold NULL. destruct (Z.eqb_spec r 0) as [E|Nr]; [lia|].
      destruct (place_at st1 bs1 fl1 r sr RS R1 AL1 Pr MR ltac:(consts; lia))
        as (st' & bs' & fl' & sr' & Prun & R' & AL' & SR' & K' & AK' & AN' & Pr' & Ssr' & Len').
      rewrite (bind_run _ _ _ _ _ Prun). unfold ret.
      exists r, st'. split; [reflexivity|]. right. split; [exact Nr|].
      exists bs', fl', sr'. rewrite Elo in *.
      split; [exact R'|]. split; [|split; [|split; [|split; [|split; [|split; [|split; [|split]]]]]]].
      * exact AL'.
      * eapply grown_trans; [|apply same_region_grown; exact SR'].
        destruct SR1 as (A1 & A2 & A3 & A4 & A5 & A6). simpl in *.
        unfold grown. repeat split; try assumption. lia.
      * apply (keeps_trans _ _ _ (mem st1)); [exact K1|].
        intros y s a Hy Ha. apply (K' y s a); [|exact Ha]. apply AI1. exact Hy.
      * intros y sy Hy. apply AK'. apply AI1. exact Hy.
      * intros y sy Hy. destruct (AN' y sy Hy) as [E|Hy']; [left; exact E|right].
        apply AI1. exact Hy'.
      * exact Pr'.
      * lia.
      * intros s Hs. apply AI1 in Hs.
        pose proof (placed_fun _ _ _ _ _ (Forall_wf_user_block _ (rep_wf _ _ _ R1)) Hs Pr) as Eq.
        inversion Eq.
      * lia.
    + rewrite (bind_run _ _ _ _ _ (extend_heap_refused st RS MR ltac:(consts; lia) Hav)).
      simpl. exists NULL, st. split; [reflexivity|]. left. split; reflexivity.
  - (* a fit *)
    pose proof (Rep_block _ _ _ R _ _ Pc) as (B1 & _).
    pose proof (rep_lo _ _ _ R).
    unfold NULL. destruct (Z.eqb_spec r0 0) as [E|Nr]; [lia|].
    change (negb false) with true. cbv iota.
    destruct (place_at st bs fl r0 c RS R AL Pc MR ltac:(consts; lia))
      as (st' & bs' & fl' & sr' & Prun & R' & AL' & SR' & K' & AK' & AN' & Pr' & Ssr' & Len').
    rewrite (bind_run _ _ _ _ _ Prun). unfold ret.
    exists r0, st'. split; [reflexivity|]. right. split; [exact Nr|].
    exists bs', fl', sr'.
    split; [exact R'|]. split; [|split; [|split; [|split; [|split; [|split; [|split; [|split]]]]]]].
    + exact AL'.
    + apply same_region_grown. exact SR'.
    + exact K'.
    + exact AK'.
    + exact AN'.
    + exact Pr'.
    + exact Ssr'.
    + intros s Hs. pose proof (placed_fun _ _ _ _ _ W Hs Pc) as Eq. inversion Eq.
    + lia.
Qed.

(** * Writing into the payload of an allocated block *)

Lemma Rep_payload_write (st : state) (bs : list block) (fl : list Z)
      (m' : memory) (r sr : Z) :
  Rep st bs fl ->
  In (r, (sr, true)) (placed (mem_start_brk st + 32) bs) ->
  (forall a, a < r \/ r + sr - 8 <= a -> m' a = mem st a) ->
  Rep (with_mem m' st) bs fl.
Proof.
  intros R Pr Hout.
  destruct (placed_split _ _ _ _ Pr) as (l1 & l2 & Ebs & Hr).
  change (l1 ++ (sr, true) :: l2) with (l1 ++ [(sr, true)] ++ l2) in Ebs. subst bs.
  pose proof (Rep_block _ _ _ R _ _ Pr) as (B1 & B2 & S & M & A & Th & Tf).
  simpl fst in *.
  apply (Rep_retag st l1 [(sr, true)] [(sr, true)] l2 fl m' r R Hr).
  - reflexivity.
  - repeat constructor; simpl; consts; lia || assumption.
  - apply tags_one; simpl fst.
    + rewrite <- Th. apply load_ext. intros a Ha. apply Hout. lia.
    + rewrite <- Tf. apply load_ext. intros a Ha. apply Hout. lia.
  - intros a Ha. simpl in Ha. apply Hout. lia.
  - intros y s Hy Hin. simpl in Hin. destruct Hin as [E|[]]. inversion E.
Qed.

Lemma all_listed_with_mem (st : state) (bs : list block) (fl : list Z) (m : memory) :
  all_listed st bs fl -> all_listed (with_mem m st) bs fl.
Proof. intros AL y s Hy. eapply AL. exact Hy. Qed.

(** * [mm_free] *)

(** [mm_free] on the sequence of blocks: the block becomes free and is
    merged with its free neighbours. *)
Lemma mm_free_blocks (st : state) (l1 l2 : list block) (fl : list Z) (p s : Z) :
  Rep st (l1 ++ [(s, true)] ++ l2) fl ->
  all_listed st (l1 ++ [(s, true)] ++ l2) fl ->
  p = mem_start_brk st + 32 + total l1 ->
  exists st',
    mm_free p st = Ret (tt, st') /\
    Rep st' (merged l1 s l2)
        ((p - prev_free_size l1)
           :: remove Z.eq_dec (p + s) (remove Z.eq_dec (p - prev_free_size l1) fl)) /\
    all_listed st' (merged l1 s l2)
        ((p - prev_free_size l1)
           :: remove Z.eq_dec (p + s) (remove Z.eq_dec (p - prev_free_size l1) fl)) /\
    same_region st st' /\
    (forall y sy a,
        In (y, (sy, true)) (placed (mem_start_brk st + 32) (l1 ++ [(s, true)] ++ l2)) ->
        y <> p -> y <= a < y + sy - 8 -> mem st' a = mem st a) /\
    (forall y sy,
        In (y, (sy, true)) (placed (mem_start_brk st + 32) (merged l1 s l2)) <->
        In (y, (sy, true)) (placed (mem_start_brk st + 32) (l1 ++ [(s, true)] ++ l2))
        /\ y <> p) /\
    (length (remove Z.eq_dec (p + s)%Z (remove Z.eq_dec (p - prev_free_size l1)%Z fl))
     <= length fl)%nat /\
    exists sr,
      In (p - prev_free_size l1, (sr, false))
         (placed (mem_start_brk st + 32) (merged l1 s l2)) /\ s <= sr.
Proof.
  intros R AL Hp.
  assert (Pp : In (p, (s, true)) (placed (mem_start_brk st + 32) (l1 ++ [(s, true)] ++ l2)))
    by (rewrite Hp; apply placed_mid).
  set (bs := l1 ++ [(s, true)] ++ l2) in *.
  pose proof (Rep_block _ _ _ R _ _ Pp) as (B1 & B2 & S & M & A & Th & Tf).
  simpl fst in *. rewrite tag_used in Th, Tf.
  pose proof (rep_lo _ _ _ R) as Hlo. pose proof (rep_top _ _ _ R) as Htop.
  pose proof (Forall_wf_user_block _ (rep_wf _ _ _ R)) as W.
  unfold mm_free.
  rewrite (step_alloc_hdr st Hlo Htop p 1) by (so; rewrite Th; apply alloc_plus1; exact M).
  change (1 =? 0) with false. cbv iota.
  rewrite (step_size_hdr st Hlo Htop p s) by (so; rewrite Th; apply size_plus1; exact M).
  rewrite (step_put_hdr st Hlo Htop) by so.
  set (m1 := store (mem st) (p - 4) s).
  rewrite (step_FTRP (with_mem m1 st) Hlo Htop p s)
    by (so; unfold m1; ls; apply size_plus0; exact M).
  rewrite (step_size_hdr (with_mem m1 st) Hlo Htop p s)
    by (so; unfold m1; ls; apply size_plus0; exact M).
  rewrite (step_PUT (with_mem m1 st)) by so. simp_st.
  set (m2 := store m1 (p + s - 8) s).
  assert (Hout : forall a, a < p - 4 \/ p + total [(s, true)] - 4 <= a -> m2 a = mem st a).
  { intros z Hz. simpl in Hz. unfold m2, m1. rewrite !store_out by lia. reflexivity. }
  assert (R2 : Rep (with_mem m2 st) (l1 ++ [(s, false)] ++ l2) fl).
  { apply (Rep_retag st l1 [(s, true)] [(s, false)] l2 fl m2 p R Hp).
    - reflexivity.
    - repeat constructor; simpl; consts; lia || assumption.
    - apply tags_one; simpl fst; rewrite ?tag_free; unfold m2, m1; ls; reflexivity.
    - exact Hout.
    - intros y sy Hy Hin. simpl in Hin. destruct Hin as [E|[]]. inversion E. }
  set (bs1 := l1 ++ [(s, false)] ++ l2) in *.
  assert (Np : ~ In p fl).
  { intros H. destruct (rep_free _ _ _ R p H) as [s' Hs'].
    pose proof (placed_fun _ _ _ _ _ W Hs' Pp) as E. inversion E. }
  assert (Hfree1 : forall y sy, In (y, (sy, false)) (placed (mem_start_brk st + 32) bs1) ->
                                y = p \/ In (y, (sy, false)) (placed (mem_start_brk st + 32) bs)).
  { intros y sy Hy. apply placed_3 in Hy. destruct Hy as [Hy|[Hy|Hy]].
    - right. apply placed_3. left. exact Hy.
    - left. rewrite <- Hp in Hy. simpl in Hy. destruct Hy as [E|[]]. inversion E. reflexivity.
    - right. apply placed_3. right. right. exact Hy. }
  assert (Halloc1 : forall y sy, In (y, (sy, true)) (placed (mem_start_brk st + 32) bs1) <->
                                 In (y, (sy, true)) (placed (mem_start_brk st + 32) bs) /\ y <> p).
  { intros y sy. pose proof (rep_wf _ _ _ R) as Wu. apply Forall_3 in Wu.
    destruct Wu as (W1 & _ & W2).
    unfold bs1, bs. rewrite !placed_3. rewrite <- !Hp. split.
    - intros [Hy|[Hy|Hy]].
      + split; [left; exact Hy|].
        pose proof (placed_bounds _ _ _ _ (Forall_wf_user_block _ W1) Hy).
        pose proof (placed_wf _ _ _ _ _ W1 Hy) as [U _]. consts. simpl in *. lia.
      + simpl in Hy. destruct Hy as [E|[]]. inversion E.
      + split; [right; right; exact Hy|].
        pose proof (placed_bounds _ _ _ _ (Forall_wf_user_block _ W2) Hy).
        change (total [(s, false)]) with (s + 0) in *. lia.
    - intros [[Hy|[Hy|Hy]] Ny].
      + left. exact Hy.
      + simpl in Hy. destruct Hy as [E|[]]. inversion E. congruence.
      + right. right. exact Hy. }
  assert (OL : others_listed (with_mem m2 st) bs1 fl p).
  { intros y sy Hy Ny. simp_st. destruct (Hfree1 y sy Hy) as [E|Hy']; [contradiction|].
    eapply AL. exact Hy'. }
  destruct (coalesce_blocks (with_mem m2 st) l1 l2 fl p s R2 Hp Np OL)
    as (st' & sr & Crun & R' & AL' & SR' & K' & AI' & Pr & Ssr & Len').
  simp_st.
  rewrite (bind_run _ _ _ _ _ Crun). unfold ret.
  exists st'.
  split; [reflexivity|]. split; [exact R'|]. split; [exact AL'|].
  split; [|split; [|split]].
  - eapply same_region_trans; [apply (same_region_with_mem st m2)|exact SR'].
  - intros y sy a Hy Ny Ha.
    rewrite (K' y sy a); [|apply Halloc1; split; assumption|exact Ha].
    apply Hout. change (total [(s, true)]) with (s + 0).
    pose proof (Rep_block _ _ _ R _ _ Hy) as (C1 & C2 & C3 & _). simpl in C2, C3.
    destruct (placed_sep _ _ _ _ _ _ W Hy Pp) as [[E _]|D]; [contradiction|].
    simpl in D. lia.
  - intros y sy. rewrite <- AI'. apply Halloc1.
  - split; [exact Len'|]. exists sr. split; assumption.
Qed.

Lemma mm_free_spec (st : state) (bs : list block) (fl : list Z) (p s : Z) :
  Rep st bs fl -> all_listed st bs fl ->
  In (p, (s, true)) (placed (mem_start_brk st + 32) bs) ->
  exists st' bs' fl',
    mm_free p st = Ret (tt, st') /\
    Rep st' bs' fl' /\ all_listed st' bs' fl' /\ same_region st st' /\
    (forall y sy a, In (y, (sy, true)) (placed (mem_start_brk st + 32) bs) ->
                    y <> p -> y <= a < y + sy - 8 -> mem st' a = mem st a) /\
    (forall y sy, In (y, (sy, true)) (placed (mem_start_brk st + 32) bs') <->
                  In (y, (sy, true)) (placed (mem_start_brk st + 32) bs) /\ y <> p) /\
    (length fl' <= length fl + 1)%nat.
Proof.
  intros R AL Pp.
  destruct (placed_split _ _ _ _ Pp) as (l1 & l2 & Ebs & Hp).
  change (l1 ++ (s, true) :: l2) with (l1 ++ [(s, true)] ++ l2) in Ebs. subst bs.
  destruct (mm_free_blocks _ _ _ _ _ _ R AL Hp)
    as (st' & Frun & R' & AL' & SR' & K' & AI' & Len' & _).
  exists st', (merged l1 s l2),
    ((p - prev_free_size l1)
       :: remove Z.eq_dec (p + s) (remove Z.eq_dec (p - prev_free_size l1) fl)).
  repeat (split; [assumption|]). simpl. lia.
Qed.

(** * [mm_init] *)

Lemma mm_init_run (st : state) :
  mem_brk st = mem_start_brk st -> 0 <= mem_start_brk st ->
  mem_avail st (mem_brk st) 32 && (mem_brk st + 32 <? wB) = true ->
  mm_init st = Ret (0, init_state st).
Proof.
  intros Hb Hlo Hav. assert (Hav' := Hav).
  apply andb_true_iff in Hav'. destruct Hav' as [_ Hroom]. apply Z.ltb_lt in Hroom.
  unfold mm_init. change (4 * WSIZE + 2 * PSIZE) with 32.
  unfold bind at 1. unfold mem_sbrk. rewrite Hav.
  unfold bind at 1. unfold set_heap_listp.
  rewrite Hb.
  destruct (Z.eqb_spec (mem_start_brk st) SBRK_FAILED) as [E|_]; [consts; lia|].
  set (st1 := with_heap_listp (mem_start_brk st) (with_brk (mem_start_brk st + 32) st)).
  assert (Hlo1 : 0 <= mem_start_brk st1) by exact Hlo.
  assert (Htop1 : mem_brk st1 < wB) by (simpl; lia).
  rewrite step_get_hl. simpl heap_listp.
  unfold WSIZE, DSIZE, PSIZE, OVERHEAD, NULL.
  change (PACK (8 + 2 * 8) 1) with 25. change (PACK 0 1) with 1.
  rewrite !wrap_small by (unfold wB in *; lia).
  rewrite (step_PUT st1) by (simpl; lia).
  rewrite (step_PUT (with_mem _ st1)) by (simpl; lia). simp_st.
  rewrite (step_PUT_ADDR (with_mem _ st1)) by (simpl; lia). simp_st.
  rewrite (step_PUT_ADDR (with_mem _ st1)) by (simpl; lia). simp_st.
  rewrite (step_PUT (with_mem _ st1)) by (simpl; lia). simp_st.
  rewrite (step_PUT (with_mem _ st1)) by (simpl; lia). simp_st.
  unfold bind, set_heap_listp, ret.
  unfold init_state, init_mem.
  replace (mem_start_brk st + 8 + 8) with (mem_start_brk st + 16) by lia.
  replace (mem_start_brk st + 8 + 2 * 8) with (mem_start_brk st + 24) by lia.
  replace (mem_start_brk st + 4 + 8 + 2 * 8) with (mem_start_brk st + 28) by lia.
  reflexivity.
Qed.

Lemma mm_init_refused (st : state) :
  mem_avail st (mem_brk st) 32 && (mem_brk st + 32 <? wB) = false ->
  mm_init st = Ret (-1, with_heap_listp SBRK_FAILED st).
Proof.
  intros Hav. unfold mm_init. change (4 * WSIZE + 2 * PSIZE) with 32.
  unfold bind at 1. unfold mem_sbrk. rewrite Hav.
  unfold bind at 1. unfold set_heap_listp.
  rewrite Z.eqb_refl. reflexivity.
Qed.

Lemma init_state_Rep (st : state) :
  mem_brk st = mem_start_brk st -> 0 <= mem_start_brk st ->
  mem_start_brk st mod 8 = 0 -> mem_start_brk st + 32 < wB ->
  Rep (init_state st) [] [].
Proof.
  intros Hb Hlo Hal Hroom.
  constructor; unfold init_state; simpl.
  - exact Hlo.
  - exact Hal.
  - reflexivity.
  - lia.
  - exact Hroom.
  - constructor.
  - intros x b [E|[]]. inversion E; subst. unfold prologue, tag. simpl.
    unfold init_mem.
    replace (mem_start_brk st + 8 - 4) with (mem_start_brk st + 4) by lia.
    replace (mem_start_brk st + 8 + 24 - 8) with (mem_start_brk st + 24) by lia.
    split; ls; reflexivity.
  - unfold init_mem.
    replace (mem_start_brk st + 32 - 4) with (mem_start_brk st + 28) by lia.
    ls. reflexivity.
  - unfold init_mem. ls. reflexivity.
  - intros x [].
  - constructor.
Qed.

(** * What the code can return: results read off its text *)

Lemma GET_inv (p v : Z) (st st' : state) :
  GET p st = Ret (v, st') -> st' = st /\ v = load (mem st) p.
Proof.
  unfold GET. destruct (in_heap st p 4); [|discriminate].
  intros H. inversion H. split; reflexivity.
Qed.

Lemma GET_SIZE_inv (p v : Z) (st st' : state) :
  GET_SIZE p st = Ret (v, st') -> st' = st /\ v = 8 * (load (mem st) p / 8).
Proof.
  unfold GET_SIZE. intros H. apply bind_inv in H. destruct H as (a & s1 & H1 & H2).
  apply GET_inv in H1. destruct H1 as [-> ->].
  unfold ret in H2. inversion H2. rewrite land_lnot7. split; reflexivity.
Qed.

Lemma GET_ALLOC_inv (p v : Z) (st st' : state) :
  GET_ALLOC p st = Ret (v, st') -> st' = st /\ v = load (mem st) p mod 2.
Proof.
  unfold GET_ALLOC. intros H. apply bind_inv in H. destruct H as (a & s1 & H1 & H2).
  apply GET_inv in H1. destruct H1 as [-> ->].
  unfold ret in H2. inversion H2. rewrite land_1. split; reflexivity.
Qed.

Lemma FTRP_inv (bp v : Z) (st st' : state) :
  FTRP bp st = Ret (v, st') -> st' = st.
Proof.
  unfold FTRP. intros H. apply bind_inv in H. destruct H as (a & s1 & H1 & H2).
  apply GET_SIZE_inv in H1. destruct H1 as [-> _].
  unfold ret in H2. inversion H2. reflexivity.
Qed.

Lemma NEXT_BLKP_inv (bp v : Z) (st st' : state) :
  NEXT_BLKP bp st = Ret (v, st') -> st' = st.
Proof.
  unfold NEXT_BLKP. intros H. apply bind_inv in H. destruct H as (a & s1 & H1 & H2).
  apply GET_SIZE_inv in H1. destruct H1 as [-> _].
  unfold ret in H2. inversion H2. reflexivity.
Qed.

Lemma PREV_BLKP_inv (bp v : Z) (st st' : state) :
  PREV_BLKP bp st = Ret (v, st') ->
  st' = st /\ v = wrap (bp - 8 * (load (mem st) (wrap (bp - DSIZE)) / 8)).
Proof.
  unfold PREV_BLKP. intros H. apply bind_inv in H. destruct H as (a & s1 & H1 & H2).
  apply GET_SIZE_inv in H1. destruct H1 as [-> ->].
  unfold ret in H2. inversion H2. split; reflexivity.
Qed.

Ltac inv_bind H :=
  let a := fresh "a" in
  let s := fresh "s" in
  let H1 := fresh "H" in
  apply bind_inv in H; destruct H as (a & s & H1 & H).

(** [coalesce] returns the block it was given or the block before it. *)
Lemma coalesce_result (bp r : Z) (st st' : state) :
  coalesce bp st = Ret (r, st') ->
  r = bp \/ r = wrap (bp - 8 * (load (mem st) (wrap (bp - DSIZE)) / 8)).
Proof.
  unfold coalesce. intros H.
  inv_bind H. apply PREV_BLKP_inv in H0. destruct H0 as [-> _].
  inv_bind H. apply FTRP_inv in H0. subst s.
  inv_bind H. apply GET_ALLOC_inv in H0. destruct H0 as [-> _].
  inv_bind H. apply NEXT_BLKP_inv in H0. subst s.
  inv_bind H. apply GET_ALLOC_inv in H0. destruct H0 as [-> _].
  inv_bind H. apply GET_SIZE_inv in H0. destruct H0 as [-> _].
  inv_bind H.
  assert (Hr : fst a5 = bp \/ fst a5 = wrap (bp - 8 * (load (mem st) (wrap (bp - DSIZE)) / 8))).
  { destruct (a1 =? 0).
    - right. inv_bind H0. apply PREV_BLKP_inv in H1. destruct H1 as [-> ->].
      inv_bind H0. inv_bind H0. inv_bind H0. inv_bind H0. inv_bind H0.
      unfold ret in H0. inversion H0. reflexivity.
    - left. unfold ret in H0. inversion H0. reflexivity. }
  cbv zeta in H.
  inv_bind H. inv_bind H. unfold ret in H. inversion H. subst r. exact Hr.
Qed.

(** * [find_fit] never changes the state and returns a list node that fits *)

Lemma find_fit_loop_inv (st : state) (bs : list block) (fl : list Z) (asize : Z) :
  Rep st bs fl ->
  forall (l : list Z) (h : Z) (fuel : nat) (r : Z) (st' : state),
    flist (mem st) h l -> (forall y, In y l -> In y fl) ->
    find_fit_loop fuel asize (load (mem st) h) st = Ret (r, st') ->
    st' = st /\
    (r = 0 \/ exists s, In r l /\ asize <= s /\
                        In (r, (s, false)) (placed (mem_start_brk st + 32) bs)).
Proof.
  intros R. pose proof (rep_lo _ _ _ R) as Hlo. pose proof (rep_top _ _ _ R) as Htop.
  induction l as [|y l IH]; intros h fuel r st' F Hsub H.
  - simpl in F. rewrite F in H. destruct fuel as [|fuel]; [discriminate|].
    simpl in H. unfold ret in H. inversion H. split; [reflexivity|left; reflexivity].
  - simpl in F. destruct F as (F1 & F2 & F3). rewrite F1 in H.
    destruct fuel as [|fuel]; [discriminate|].
    destruct (Rep_node _ _ _ R y (Hsub y (or_introl eq_refl))) as (s & Ps & B1 & B2 & Ss).
    pose proof (Rep_block _ _ _ R _ _ Ps) as (_ & _ & _ & Ms & _ & Th & _).
    simpl fst in *. rewrite tag_free in Th.
    simpl find_fit_loop in H. unfold NULL in H.
    destruct (Z.eqb_spec y 0) as [E|_]; [lia|].
    rewrite (step_size_hdr st Hlo Htop y s) in H
      by (so; rewrite Th; apply size_plus0; exact Ms).
    destruct (Z.leb_spec asize s) as [Hfit|Hno].
    + unfold ret in H. injection H as Er Es. rewrite <- Er, <- Es.
      split; [reflexivity|]. right.
      exists s. split; [left; reflexivity|]. split; assumption.
    + rewrite (step_NEXT_EX st) in H by lia.
      destruct (IH y fuel r st' F3) as [E Hr]; [|exact H|].
      { intros z Hz. apply Hsub. right. exact Hz. }
      split; [exact E|]. destruct Hr as [Hr|(s' & Hin & Hs & Hp)]; [left; exact Hr|right].
      exists s'. split; [right; exact Hin|]. split; assumption.
Qed.

Lemma find_fit_inv (st st' : state) (bs : list block) (fl : list Z)
      (asize r : Z) (fuel : nat) :
  Rep st bs fl -> find_fit fuel asize st = Ret (r, st') ->
  st' = st /\
  (r = 0 \/ exists s, In r fl /\ asize <= s /\
                      In (r, (s, false)) (placed (mem_start_brk st + 32) bs)).
Proof.
  intros R H. unfold find_fit in H.
  pose proof (rep_lo _ _ _ R) as Hlo. pose proof (rep_top _ _ _ R) as Htop.
  pose proof (Rep_total _ _ _ R). pose proof (rep_brk _ _ _ R).
  rewrite step_get_hl in H. rewrite (rep_hl _ _ _ R) in H.
  rewrite (step_NEXT_EX st) in H by lia.
  apply (find_fit_loop_inv st bs fl asize R fl _ fuel r st' (rep_flist _ _ _ R)); auto.
Qed.

Lemma Rep_brk_mod8 (st : state) (bs : list block) (fl : list Z) :
  Rep st bs fl -> mem_brk st mod 8 = 0 /\ mem_start_brk st + 32 <= mem_brk st.
Proof.
  intros R. rewrite (rep_brk _ _ _ R).
  pose proof (rep_align _ _ _ R).
  pose proof (total_mod8 _ (Forall_wf_user_block _ (rep_wf _ _ _ R))).
  pose proof (Rep_total _ _ _ R).
  split; [Z.div_mod_to_equations; lia|lia].
Qed.

(** The block that ends at the break: the last user block, or the prologue. *)
Lemma last_block (st : state) (bs : list block) (fl : list Z) :
  Rep st bs fl ->
  exists sp ap,
    24 <= sp /\ sp mod 8 = 0 /\ mem_start_brk st + 8 <= mem_brk st - sp /\
    load (mem st) (mem_brk st - 8) = tag (sp, ap).
Proof.
  intros R. pose proof (rep_brk _ _ _ R) as Hb.
  destruct (list_last_case bs) as [E|(l & [sp ap] & E)]; subst bs.
  - exists 24, true. destruct (Rep_prologue _ _ _ R) as [_ P2].
    simpl in Hb. rewrite Hb.
    replace (mem_start_brk st + 32 + 0 - 8) with (mem_start_brk st + 24) by lia.
    repeat split; try lia. exact P2.
  - exists sp, ap. rewrite total_app in Hb. simpl in Hb.
    assert (Pp : In (mem_brk st - sp, (sp, ap)) (placed (mem_start_brk st + 32) (l ++ [(sp, ap)]))).
    { rewrite placed_app. apply in_or_app. right. simpl. left. f_equal. lia. }
    pose proof (Rep_block _ _ _ R _ _ Pp) as (B1 & B2 & S & Mp & _ & _ & T2).
    simpl fst in *.
    replace (mem_brk st - sp + sp - 8) with (mem_brk st - 8) in T2 by lia.
    repeat split; try lia; assumption.
Qed.

Lemma extend_size (w : Z) :
  let size := if w mod 2 =? 0 then wrap (w * WSIZE) else wrap (wrap (w + 1) * WSIZE) in
  size mod 8 = 0 /\ 0 <= size < wB.
Proof.
  simpl. unfold WSIZE.
  destruct (Z.eqb_spec (w mod 2) 0) as [E|E].
  - split; [|apply wrap_range]. apply wrap_mod8. Z.div_mod_to_equations. lia.
  - split; [|apply wrap_range]. apply wrap_mod8.
    assert (wrap (w + 1) mod 2 = 0).
    { unfold wrap, wB. Z.div_mod_to_equations. lia. }
    Z.div_mod_to_equations. lia.
Qed.

(** [extend_heap] either fails and leaves the state as it is, or returns
    an aligned pointer that is not NULL. *)
Lemma extend_heap_result (st st' : state) (bs : list block) (fl : list Z) (w r : Z) :
  Rep st bs fl -> extend_heap w st = Ret (r, st') ->
  (r = NULL /\ st' = st) \/ (r <> NULL /\ r mod 8 = 0).
Proof.
  intros R H.
  pose proof (rep_lo _ _ _ R) as Hlo. pose proof (rep_top _ _ _ R) as Htop.
  destruct (Rep_brk_mod8 _ _ _ R) as [Mb Bb].
  unfold extend_heap in H.
  destruct (extend_size w) as [Ms Bs].
  set (size := if w mod 2 =? 0 then wrap (w * WSIZE) else wrap (wrap (w + 1) * WSIZE)) in *.
  unfold bind at 1 in H. unfold mem_sbrk in H.
  destruct (mem_avail st (mem_brk st) size && (mem_brk st + size <? wB)) eqn:Hav.
  - right. apply andb_true_iff in Hav. destruct Hav as [_ Hroom]. apply Z.ltb_lt in Hroom.
    set (b := mem_brk st) in *.
    destruct (Z.eqb_spec b SBRK_FAILED) as [E|_].
    { exfalso. unfold SBRK_FAILED, wB in E. rewrite E in Mb. discriminate. }
    set (st1 := with_brk (b + size) st) in *.
    assert (Hlo1 : 0 <= mem_start_brk st1) by exact Hlo.
    assert (Htop1 : mem_brk st1 < wB) by (simpl; lia).
    assert (Hsz : size = 0 \/ 8 <= size) by (Z.div_mod_to_equations; lia).
    rewrite !PACK_0 in H. change (PACK 0 1) with 1 in H.
    rewrite (step_put_hdr st1 Hlo1 Htop1) in H by (simpl; lia).
    set (m1 := store (mem st1) (b - 4) size) in *.
    rewrite (step_FTRP (with_mem m1 st1) Hlo1 Htop1 b size) in H
      by (simp_st; simpl; try (unfold wB in *; lia); unfold m1; ls; apply size_plus0; exact Ms).
    rewrite (step_PUT (with_mem m1 st1)) in H by (simp_st; simpl; lia). simp_st.
    set (m2 := store m1 (b + size - 8) size) in *.
    rewrite (step_NEXT_BLKP (with_mem m2 st1) Hlo1 Htop1 b size) in H
      by (simp_st; simpl; try (unfold wB in *; lia); unfold m2, m1; ls; apply size_plus0; exact Ms).
    rewrite (step_put_hdr (with_mem m2 st1) Hlo1 Htop1) in H by (simp_st; simpl; lia).
    simp_st.
    set (m3 := store m2 (b + size - 4) 1) in *.
    apply coalesce_result in H. simp_st.
    destruct H as [E|E]; [subst r; unfold NULL; split; [lia|exact Mb]|].
    unfold DSIZE in E. rewrite (wrap_small (b - 8)) in E by (unfold wB in *; lia).
    destruct (last_block _ _ _ R) as (sp & ap & Sp & Mp & Bp & Tp). fold b in Bp, Tp.
    assert (Ek : 8 * (load m3 (b - 8) / 8) = 0 \/ 8 * (load m3 (b - 8) / 8) = sp).
    { destruct Hsz as [E0|E8].
      - left. unfold m3, m2, m1. rewrite E0.
        replace (b + 0 - 8) with (b - 8) by lia. ls. reflexivity.
      - right. unfold m3, m2, m1. ls. simpl mem. rewrite Tp.
        apply (tag_size (sp, ap)). exact Mp. }
    destruct Ek as [Ek|Ek]; rewrite Ek in E.
    + rewrite wrap_small in E by (unfold wB in *; lia).
      subst r. unfold NULL. split; [lia|]. replace (b - 0) with b by lia. exact Mb.
    + rewrite wrap_small in E by (unfold wB in *; lia).
      subst r. unfold NULL. split; [lia|]. Z.div_mod_to_equations. lia.
  - left. rewrite Z.eqb_refl in H. unfold ret in H. inversion H. split; reflexivity.
Qed.

(** [mm_malloc] returns NULL only when it has changed nothing. *)
Lemma mm_malloc_null (st st' : state) (bs : list block) (fl : list Z)
      (n : Z) (fuel : nat) :
  Rep st bs fl -> mm_malloc fuel n st = Ret (NULL, st') -> st' = st.
Proof.
  intros R H. unfold mm_malloc in H.
  destruct (n =? 0); [unfold ret in H; inversion H; reflexivity|].
  inv_bind H. destruct (find_fit_inv _ _ _ _ _ _ _ R H0) as [-> Ha].
  destruct (Z.eqb_spec a NULL) as [E|E]; simpl negb in H; cbv iota in H.
  - inv_bind H. destruct (extend_heap_result _ _ _ _ _ _ R H1) as [[E1 ->]|[N1 _]].
    + subst a0. rewrite Z.eqb_refl in H. unfold ret in H. inversion H. reflexivity.
    + destruct (Z.eqb_spec a0 NULL) as [E2|_]; [contradiction|].
      inv_bind H. unfold ret in H. inversion H. contradiction.
  - inv_bind H. unfold ret in H. inversion H. contradiction.
Qed.

(** Every pointer [mm_malloc] returns from a well-formed heap is NULL or
    aligned. *)
Lemma mm_malloc_aligned (st st' : state) (bs : list block) (fl : list Z)
      (n p : Z) (fuel : nat) :
  Rep st bs fl -> mm_malloc fuel n st = Ret (p, st') -> p = NULL \/ p mod 8 = 0.
Proof.
  intros R H. unfold mm_malloc in H.
  destruct (n =? 0); [unfold ret in H; inversion H; left; reflexivity|].
  inv_bind H. destruct (find_fit_inv _ _ _ _ _ _ _ R H0) as [-> Ha].
  destruct (Z.eqb_spec a NULL) as [E|E]; simpl negb in H; cbv iota in H.
  - inv_bind H. destruct (extend_heap_result _ _ _ _ _ _ R H1) as [[E1 _]|[N1 M1]].
    + subst a0. rewrite Z.eqb_refl in H. unfold ret in H. inversion H. left. reflexivity.
    + destruct (Z.eqb_spec a0 NULL) as [E2|_]; [contradiction|].
      inv_bind H. unfold ret in H. inversion H. subst. right. exact M1.
  - inv_bind H. unfold ret in H. inversion H. subst. right.
    destruct Ha as [Ha|(s & _ & _ & Ps)]; [contradiction|].
    pose proof (Rep_block _ _ _ R _ _ Ps) as (_ & _ & _ & _ & A & _). exact A.
Qed.

(** * [mm_realloc] *)

Lemma step_memcpy {B} (st : state) (dst src n : Z) (k : unit -> M B) :
  0 < n ->
  mem_start_brk st <= dst -> dst + n <= mem_brk st ->
  mem_start_brk st <= src -> src + n <= mem_brk st ->
  dst + n <= src \/ src + n <= dst ->
  bind (memcpy dst src n) k st = k tt (with_mem (copy_bytes (mem st) dst src n) st).
Proof.
  intros Hn D1 D2 S1 S2 Hd. apply bind_run. unfold memcpy.
  destruct (Z.eqb_spec n 0) as [E|_]; [lia|].
  rewrite !in_heap_true by assumption.
  assert (E : (dst + n <=? src) || (src + n <=? dst) = true).
  { apply orb_true_iff. destruct Hd; [left|right]; apply Z.leb_le; assumption. }
  rewrite E. reflexivity.
Qed.

Lemma next_header (st : state) (l1 l2 : list block) (fl : list Z) (x : Z) (b : block) :
  Rep st (l1 ++ [b] ++ l2) fl ->
  x = mem_start_brk st + 32 + total l1 ->
  x + fst b <= mem_brk st /\
  load (mem st) (x + fst b - 4) mod 2 = next_bit l2 /\
  8 * (load (mem st) (x + fst b - 4) / 8) <= mem_brk st.
Proof.
  intros R Hx.
  pose proof (rep_brk _ _ _ R) as Hb. rewrite total_3 in Hb.
  change (total [b]) with (fst b + 0) in Hb.
  pose proof (rep_wf _ _ _ R) as W. apply Forall_3 in W. destruct W as (W1 & W0 & W2).
  pose proof (total_nonneg _ (Forall_wf_user_block _ W2)) as T2.
  pose proof (total_nonneg _ (Forall_wf_user_block _ W1)) as T1.
  pose proof (Forall_inv W0) as [Wb _]. unfold MINBLOCK, DSIZE, PSIZE, OVERHEAD in Wb.
  pose proof (rep_lo _ _ _ R) as Hlo.
  destruct l2 as [|[sn an] l2']; simpl next_bit.
  - simpl total in Hb. replace (x + fst b - 4) with (mem_brk st - 4) by lia.
    rewrite (rep_epi _ _ _ R). change (8 * (1 / 8)) with 0.
    repeat split; try lia.
  - assert (Pn : In (x + fst b, (sn, an)) (placed (mem_start_brk st + 32)
                                                  (l1 ++ [b] ++ (sn, an) :: l2'))).
    { apply placed_3. right. right. rewrite <- Hx. simpl. left. f_equal. lia. }
    pose proof (Rep_block _ _ _ R _ _ Pn) as (B1 & B2 & Sn & Mn & _ & Tnh & _).
    simpl fst in *. rewrite Tnh.
    rewrite (tag_size (sn, an)) by exact Mn.
    rewrite (tag_alloc (sn, an)) by exact Mn. simpl.
    repeat split; try lia.
Qed.

Lemma wrap_neg (x : Z) : - wB <= x < 0 -> wrap x = x + wB.
Proof.
  intros H. unfold wrap.
  rewrite <- (Z.mod_add x 1 wB) by (unfold wB; lia).
  apply Z.mod_small. lia.
Qed.

Lemma MIN_le (x y : Z) : MIN x y <= x /\ MIN x y <= y.
Proof. unfold MIN. destruct (Z.gtb_spec x y); lia. Qed.

(** The block is large enough: [mm_realloc] returns its argument, and
    splits the block when the remainder is a block of its own. *)
Lemma mm_realloc_fits (st : state) (bs : list block) (fl : list Z)
      (p cur n : Z) (fuel : nat) :
  Rep st bs fl -> all_listed st bs fl -> allocated_at st bs p cur ->
  0 < n -> n + 31 < wB -> realSize_of n <= cur ->
  exists st' bs' fl' sr,
    mm_realloc fuel p n st = Ret (p, st') /\
    Rep st' bs' fl' /\ all_listed st' bs' fl' /\ same_region st st' /\
    allocated_at st' bs' p sr /\ realSize_of n <= sr <= cur /\
    (cur - realSize_of n < MINBLOCK -> st' = st) /\
    (forall i, 0 <= i < sr - 8 -> mem st' (p + i) = mem st (p + i)) /\
    (forall y sy, y <> p ->
       (In (y, (sy, true)) (placed (mem_start_brk st + 32) bs) <->
        In (y, (sy, true)) (placed (mem_start_brk st + 32) bs'))) /\
    (forall y sy a, In (y, (sy, true)) (placed (mem_start_brk st + 32) bs) ->
       y <> p -> y <= a < y + sy - 8 -> mem st' a = mem st a).
Proof.
  intros R AL Pp Hn Hsmall Hfit. unfold allocated_at in *.
  pose proof (rep_lo _ _ _ R) as Hlo. pose proof (rep_top _ _ _ R) as Htop.
  pose proof (Forall_wf_user_block _ (rep_wf _ _ _ R)) as W.
  pose proof (Rep_block _ _ _ R _ _ Pp) as (B1 & B2 & S & M & A & Th & Tf).
  simpl fst in *. rewrite tag_used in Th, Tf.
  destruct (realSize_small n ltac:(lia) ltac:(lia)) as (ER & MR & BR).
  destruct (placed_split _ _ _ _ Pp) as (l1 & l2 & Ebs & Hp).
  change (l1 ++ (cur, true) :: l2) with (l1 ++ [(cur, true)] ++ l2) in Ebs.
  unfold mm_realloc. set (RS := realSize_of n) in *.
  unfold NULL at 1. destruct (Z.eqb_spec p 0) as [E|_]; [lia|].
  destruct (Z.eqb_spec n 0) as [E|_]; [lia|].
  rewrite (step_size_hdr st Hlo Htop p cur) by (so; rewrite Th; apply size_plus1; exact M).
  rewrite (step_size_hdr st Hlo Htop p cur) by (so; rewrite Th; apply size_plus1; exact M).
  destruct (Z.leb_spec RS cur) as [_|Hgrow]; [|lia].
  rewrite (wrap_small (cur - RS)) by (unfold wB in *; lia).
  unfold MINBLOCK, DSIZE, PSIZE, OVERHEAD. change (8 + 2 * 8 + 8) with 32.
  destruct (Z.leb_spec 32 (cur - RS)) as [Hsplit|Hkeep].
  - (* shrink in place *)
    rewrite !PACK_0. rewrite !PACK_1 by exact MR.
    rewrite !bind_assoc.
    rewrite (step_put_hdr st Hlo Htop) by so.
    set (m2 := store (mem st) (p - 4) (RS + 1)).
    rewrite !bind_assoc.
    rewrite (step_FTRP (with_mem m2 st) Hlo Htop p RS)
      by (so; unfold m2; ls; apply size_plus1; exact MR).
    rewrite !bind_assoc.
    rewrite (step_PUT (with_mem m2 st)) by so. simp_st.
    set (m3 := store m2 (p + RS - 8) (RS + 1)).
    rewrite !bind_assoc.
    rewrite (step_NEXT_BLKP (with_mem m3 st) Hlo Htop p RS)
      by (so; unfold m3, m2; ls; apply size_plus1; exact MR).
    rewrite !bind_assoc.
    rewrite (step_put_hdr (with_mem m3 st) Hlo Htop) by so. simp_st.
    set (m4 := store m3 (p + RS - 4) (cur - RS)).
    assert (Mca : (cur - RS) mod 8 = 0) by (Z.div_mod_to_equations; lia).
    rewrite !bind_assoc.
    rewrite (step_FTRP (with_mem m4 st) Hlo Htop (p + RS) (cur - RS))
      by (so; unfold m4; ls; apply size_plus0; exact Mca).
    rewrite !bind_assoc.
    rewrite (step_PUT (with_mem m4 st)) by so. simp_st.
    set (m5 := store m4 (p + RS + (cur - RS) - 8) (cur - RS)).
    assert (R0 : Rep st (l1 ++ [(cur, true)] ++ l2) fl) by (rewrite <- Ebs; exact R).
    assert (Hout : forall z, z < p - 4 \/ p + cur - 4 <= z -> m5 z = mem st z).
    { intros z Hz. unfold m5, m4, m3, m2. rewrite !store_out by lia. reflexivity. }
    assert (R5 : Rep (with_mem m5 st) (l1 ++ [(RS, true); (cur - RS, false)] ++ l2) fl).
    { apply (Rep_retag st l1 [(cur, true)] [(RS, true); (cur - RS, false)] l2 fl m5 p R0 Hp).
      - simpl. lia.
      - repeat constructor; simpl; consts; try lia; assumption.
      - apply tags_two; simpl fst; rewrite ?tag_used, ?tag_free;
          unfold m5, m4, m3, m2; ls; reflexivity.
      - intros z Hz. simpl in Hz. apply Hout. lia.
      - intros y s Hy Hin. simpl in Hin. destruct Hin as [E|[]]. inversion E. }
    set (bs' := l1 ++ [(RS, true); (cur - RS, false)] ++ l2) in *.
    assert (Py : In (p + RS, (cur - RS, false)) (placed (mem_start_brk st + 32) bs')).
    { unfold bs'. apply placed_3. right. left. rewrite <- Hp. simpl. right. left. reflexivity. }
    assert (Ny : ~ In (p + RS) fl).
    { intros H. destruct (Rep_node _ _ _ R _ H) as (s & Ps & _ & _ & Ss).
      destruct (placed_sep _ _ _ _ _ _ W Ps Pp) as [[E _]|D]; simpl in *; lia. }
    destruct (insertblock_spec _ _ _ _ _ R5 Py Ny) as (Irun & R6 & Q6).
    simp_st. rewrite (bind_run _ _ _ _ _ Irun). unfold ret.
    assert (Pp' : In (p, (RS, true)) (placed (mem_start_brk st + 32) bs')).
    { unfold bs'. apply placed_3. right. left. rewrite <- Hp. simpl. left. reflexivity. }
    assert (AI : forall y sy, y <> p ->
               (In (y, (sy, true)) (placed (mem_start_brk st + 32) bs) <->
                In (y, (sy, true)) (placed (mem_start_brk st + 32) bs'))).
    { intros y sy Ny'. rewrite Ebs. unfold bs'. rewrite !placed_3. rewrite <- !Hp.
      change (total [(cur, true)]) with (cur + 0).
      change (total [(RS, true); (cur - RS, false)]) with (RS + ((cur - RS) + 0)).
      replace (p + (RS + (cur - RS + 0))) with (p + (cur + 0)) by lia.
      simpl. split.
      - intros [H|[[E|[]]|H]]; [left; exact H|inversion E; congruence|right; right; exact H].
      - intros [H|[[E|[E|[]]]|H]];
          [left; exact H|inversion E; congruence|inversion E|right; right; exact H]. }
    exists (with_mem (mem_insert m5 (heap_listp st) (p + RS)) st), bs', ((p + RS) :: fl), RS.
    split; [reflexivity|]. split; [exact R6|].
    split; [|split; [|split; [|split; [|split; [|split; [|split]]]]]].
    + intros y s Hy. simp_st. apply placed_3 in Hy. destruct Hy as [Hy|[Hy|Hy]].
      * right. eapply AL. rewrite Ebs. apply placed_3. left. exact Hy.
      * rewrite <- Hp in Hy. simpl in Hy. destruct Hy as [E|[E|[]]]; inversion E.
        left. reflexivity.
      * right. eapply AL. rewrite Ebs. apply placed_3. right. right.
        change (total [(RS, true); (cur - RS, false)]) with (RS + ((cur - RS) + 0)) in Hy.
        change (total [(cur, true)]) with (cur + 0).
        replace (mem_start_brk st + 32 + total l1 + (cur + 0))
          with (mem_start_brk st + 32 + total l1 + (RS + (cur - RS + 0))) by lia.
        exact Hy.
    + apply same_region_with_mem.
    + simp_st. exact Pp'.
    + lia.
    + intros Hlt. lia.
    + intros i Hi. simp_st.
      rewrite (quiet_keeps _ _ _ _ Q6 p RS (p + i) Pp') by lia.
      unfold m5, m4, m3, m2. rewrite !store_out by lia. reflexivity.
    + exact AI.
    + intros y sy a Hy Ny' Ha. simp_st.
      rewrite (quiet_keeps _ _ _ _ Q6 y sy a); [|apply AI; assumption|exact Ha].
      apply Hout.
      destruct (placed_sep _ _ _ _ _ _ W Hy Pp) as [[E _]|D]; [contradiction|].
      simpl in D. lia.
  - (* keep the block as it is *)
    rewrite step_ret. unfold ret.
    exists st, bs, fl, cur. split; [reflexivity|]. split; [exact R|]. split; [exact AL|].
    split; [apply same_region_refl|]. split; [exact Pp|]. split; [lia|].
    split; [reflexivity|]. split; [reflexivity|]. split; [tauto|reflexivity].
Qed.

(** The block is too small: below the wrap-around of the size arithmetic
    the test of the next block always fails, and [mm_realloc] allocates a
    block for the rounded size, copies and frees the old block. *)
Lemma mm_realloc_moves (st : state) (bs : list block) (fl : list Z)
      (p cur n : Z) (fuel : nat) :
  Rep st bs fl -> all_listed st bs fl -> allocated_at st bs p cur ->
  0 < n -> n + 55 + mem_brk st < wB -> (length fl < fuel)%nat ->
  cur < realSize_of n ->
  exists r st',
    mm_realloc fuel p n st = Ret (r, st') /\
    ((r = NULL /\ st' = st) \/
     (r <> NULL /\ r <> p /\
      exists bs' fl' sr,
        Rep st' bs' fl' /\ all_listed st' bs' fl' /\
        In (r, (sr, true)) (placed (mem_start_brk st' + 32) bs') /\
        realSize_of (realSize_of n) <= sr /\
        (forall s, ~ In (p, (s, true)) (placed (mem_start_brk st' + 32) bs')) /\
        (forall s, ~ In (r, (s, true)) (placed (mem_start_brk st + 32) bs)) /\
        (forall i, 0 <= i < MIN (cur - OVERHEAD) n -> mem st' (r + i) = mem st (p + i)) /\
        (forall y sy, In (y, (sy, true)) (placed (mem_start_brk st + 32) bs) -> y <> p ->
           In (y, (sy, true)) (placed (mem_start_brk st' + 32) bs') /\
           forall a, y <= a < y + sy - 8 -> mem st' a = mem st a))).
Proof.
  intros R AL Pp Hn Hsmall Hfuel Hgrow. unfold allocated_at in Pp.
  pose proof (rep_lo _ _ _ R) as Hlo. pose proof (rep_top _ _ _ R) as Htop.
  pose proof (Forall_wf_user_block _ (rep_wf _ _ _ R)) as W.
  pose proof (Rep_block _ _ _ R _ _ Pp) as (B1 & B2 & S & M & A & Th & Tf).
  simpl fst in *. rewrite tag_used in Th, Tf.
  destruct (Rep_brk_mod8 _ _ _ R) as [_ Bb].
  destruct (realSize_small n ltac:(lia) ltac:(lia)) as (ER & MR & BR).
  destruct (placed_split _ _ _ _ Pp) as (l1 & l2 & Ebs & Hp).
  change (l1 ++ (cur, true) :: l2) with (l1 ++ [(cur, true)] ++ l2) in Ebs.
  unfold mm_realloc. set (RS := realSize_of n) in *.
  unfold NULL at 1. destruct (Z.eqb_spec p 0) as [E|_]; [lia|].
  destruct (Z.eqb_spec n 0) as [E|_]; [lia|].
  rewrite (step_size_hdr st Hlo Htop p cur) by (so; rewrite Th; apply size_plus1; exact M).
  rewrite (step_size_hdr st Hlo Htop p cur) by (so; rewrite Th; apply size_plus1; exact M).
  unfold OVERHEAD.
  assert (Hmin : forall i, 0 <= i < MIN (cur - 8) n -> i < cur - 8 /\ i < n).
  { intros i Hi. pose proof (MIN_le (cur - 8) n). lia. }
  destruct (Z.leb_spec RS cur) as [Hfit|_]; [lia|].
  rewrite (wrap_neg (cur - RS)) by (unfold wB in *; lia).
  assert (R0 : Rep st (l1 ++ [(cur, true)] ++ l2) fl) by (rewrite <- Ebs; exact R).
  destruct (next_header st l1 l2 fl p (cur, true) R0 Hp) as (N1 & N2 & N3).
  simpl fst in *.
  rewrite (step_NEXT_BLKP st Hlo Htop p cur)
    by (so; rewrite Th; apply size_plus1; exact M).
  rewrite (step_alloc_hdr st Hlo Htop (p + cur) (next_bit l2)) by so.
  assert (Hfits :
    (fits <- (if next_bit l2 =? 0
              then ns <- GET_SIZE (HDRP (p + cur));; ret (cur - RS + wB <=? ns)
              else ret false);;
     ret fits) st = Ret (false, st)).
  { destruct (next_bit l2 =? 0).
    - rewrite bind_assoc.
      rewrite (step_size_hdr st Hlo Htop (p + cur) _) by (so; reflexivity).
      unfold ret. destruct (Z.leb_spec (cur - RS + wB) (8 * (load (mem st) (p + cur - 4) / 8)));
        [unfold wB in *; lia|reflexivity].
    - reflexivity. }
  apply bind_inv in Hfits. destruct Hfits as (f & sf & Hf1 & Hf2).
  unfold ret in Hf2. inversion Hf2. subst f sf.
  rewrite (bind_run _ _ _ _ _ Hf1).
  destruct (mm_malloc_spec st bs fl RS fuel R AL ltac:(lia) ltac:(unfold wB in *; lia) Hfuel)
    as (r & st1 & Mrun & Mcase).
  rewrite (bind_run _ _ _ _ _ Mrun).
  destruct Mcase as [[Er Es]|(Nr & bs1 & fl1 & sr & R1 & AL1 & G1 & K1 & AK1 & AN1 & Pr1 & Ssr & Nold & Len1)].
  - subst r st1. rewrite Z.eqb_refl. unfold ret.
    exists NULL, st. split; [reflexivity|]. left. split; reflexivity.
  - destruct (Z.eqb_spec r NULL) as [E|_]; [contradiction|].
    destruct G1 as (G1 & G2 & G3 & G4 & G5 & G6).
    pose proof (rep_lo _ _ _ R1) as Hlo1. pose proof (rep_top _ _ _ R1) as Htop1.
    assert (Pp1 : In (p, (cur, true)) (placed (mem_start_brk st1 + 32) bs1)).
    { rewrite G1. apply AK1. exact Pp. }
    rewrite <- G1 in Pr1.
    pose proof (Rep_block _ _ _ R1 _ _ Pp1) as (C1 & C2 & _ & _ & _ & Th1 & _).
    pose proof (Rep_block _ _ _ R1 _ _ Pr1) as (D1 & D2 & _ & _ & _ & _ & _).
    simpl fst in *. rewrite tag_used in Th1.
    rewrite (step_size_hdr st1 Hlo1 Htop1 p cur)
      by (so; rewrite Th1; apply size_plus1; exact M).
    destruct (realSize_small RS ltac:(lia) ltac:(unfold wB in *; lia)) as (_ & _ & BR2).
    pose proof (MIN_le n cur) as [Hc1 Hc2].
    assert (Hcpos : 0 < MIN n cur) by (unfold MIN; destruct (n >? cur); lia).
    assert (Nrp : r <> p).
    { intros Erp. subst r. apply (Nold cur). exact Pp. }
    pose proof (Forall_wf_user_block _ (rep_wf _ _ _ R1)) as W1.
    assert (Dsep : r + sr <= p \/ p + cur <= r).
    { destruct (placed_sep _ _ _ _ _ _ W1 Pr1 Pp1)
        as [[E _]|D]; [contradiction|simpl in D; exact D]. }
    rewrite (step_memcpy st1 r p (MIN n cur)) by lia.
    set (m2 := copy_bytes (mem st1) r p (MIN n cur)).
    assert (R2 : Rep (with_mem m2 st1) bs1 fl1).
    { apply (Rep_payload_write st1 bs1 fl1 m2 r sr R1 Pr1).
      intros a Ha. unfold m2. apply copy_bytes_out. lia. }
    assert (AL2 : all_listed (with_mem m2 st1) bs1 fl1)
      by (apply all_listed_with_mem; exact AL1).
    destruct (mm_free_spec (with_mem m2 st1) bs1 fl1 p cur R2 AL2 Pp1)
      as (st3 & bs3 & fl3 & Frun & R3 & AL3 & SR3 & K3 & A3 & Len3).
    rewrite (bind_run _ _ _ _ _ Frun). unfold ret.
    assert (Elo3 : mem_start_brk st3 = mem_start_brk st1)
      by (destruct SR3 as (E3 & _); exact E3).
    simp_st.
    exists r, st3. split; [reflexivity|]. right. split; [exact Nr|]. split; [exact Nrp|].
    exists bs3, fl3, sr. rewrite Elo3.
    split; [exact R3|]. split; [exact AL3|]. split; [apply A3; split; assumption|].
    split; [exact Ssr|]. split; [|split; [|split]].
    + intros s Hs. apply A3 in Hs. destruct Hs as [_ Hs]. apply Hs. reflexivity.
    + exact Nold.
    + intros i Hi. destruct (Hmin i Hi) as [Hi1 Hi2].
      rewrite (K3 r sr (r + i) Pr1 Nrp) by lia.
      simp_st. unfold m2.
      rewrite copy_bytes_in by (unfold MIN; destruct (n >? cur); lia).
      apply (K1 p cur (p + i) Pp). lia.
    + intros y sy Hy Ny.
      assert (Hy1 : In (y, (sy, true)) (placed (mem_start_brk st1 + 32) bs1))
        by (rewrite G1; apply AK1; exact Hy).
      split; [apply A3; split; assumption|].
      intros a Ha. rewrite (K3 y sy a Hy1 Ny Ha). simp_st. unfold m2.
      rewrite copy_bytes_out; [apply (K1 y sy a Hy Ha)|].
      assert (Nyr : y <> r) by (intros Eyr; subst y; apply (Nold sy); exact Hy).
      destruct (placed_sep _ _ _ _ _ _ W1 Hy1 Pr1) as [[E _]|D]; [contradiction|].
      simpl in D. lia.
Qed.

Lemma mm_realloc_spec (st : state) (bs : list block) (fl : list Z)
      (p cur n : Z) (fuel : nat) :
  Rep st bs fl -> all_listed st bs fl -> allocated_at st bs p cur ->
  0 < n -> n + 55 + mem_brk st < wB -> (length fl < fuel)%nat ->
  exists r st',
    mm_realloc fuel p n st = Ret (r, st') /\
    ((r = NULL /\ st' = st) \/
     (r <> NULL /\ Inv st' /\
      forall i, 0 <= i < MIN (cur - OVERHEAD) n -> mem st' (r + i) = mem st (p + i))).
Proof.
  intros R AL Pp Hn Hsmall Hfuel.
  pose proof (rep_lo _ _ _ R) as Hlo.
  pose proof (Rep_block _ _ _ R _ _ Pp) as (B1 & B2 & _).
  destruct (Rep_brk_mod8 _ _ _ R) as [_ Bb].
  destruct (realSize_small n ltac:(lia) ltac:(lia)) as (ER & MR & BR).
  destruct (Z.le_gt_cases (realSize_of n) cur) as [Hfit|Hgrow].
  - destruct (mm_realloc_fits st bs fl p cur n fuel R AL Pp Hn ltac:(lia) Hfit)
      as (st' & bs' & fl' & sr & Run & R' & AL' & _ & _ & Hsr & _ & Hbytes & _).
    exists p, st'. split; [exact Run|]. right. split; [unfold NULL; lia|].
    split; [exists bs', fl'; split; assumption|].
    intros i Hi. apply Hbytes. pose proof (MIN_le (cur - OVERHEAD) n). lia.
  - destruct (mm_realloc_moves st bs fl p cur n fuel R AL Pp Hn Hsmall Hfuel ltac:(lia))
      as (r & st' & Run & [Hnull|(Nr & _ & bs' & fl' & sr & R' & AL' & _ & _ & _ & _ & Hbytes & _)]).
    + exists r, st'. split; [exact Run|]. left. exact Hnull.
    + exists r, st'. split; [exact Run|]. right. split; [exact Nr|].
      split; [exists bs', fl'; split; assumption|exact Hbytes].
Qed.

(** [mm_realloc] on the move path: when [mm_malloc] fails, nothing has been
    written. *)
Lemma mm_realloc_move_failure (st st1 : state) (bs : list block) (fl : list Z)
      (p cur n : Z) (fuel : nat) :
  Rep st bs fl -> allocated_at st bs p cur ->
  n <> 0 ->
  cur < realSize_of n ->
  absorbs_next st p cur n = false ->
  mm_malloc fuel (realSize_of n) st = Ret (NULL, st1) ->
  mm_realloc fuel p n st = Ret (NULL, st) /\ st1 = st.
Proof.
  intros R Pp Hn Hgrow Habs Hm. unfold allocated_at in Pp.
  pose proof (mm_malloc_null _ _ _ _ _ _ R Hm) as E1. subst st1.
  split; [|reflexivity].
  pose proof (rep_lo _ _ _ R) as Hlo. pose proof (rep_top _ _ _ R) as Htop.
  pose proof (Rep_block _ _ _ R _ _ Pp) as (B1 & B2 & S & M & A & Th & Tf).
  simpl fst in *. rewrite tag_used in Th, Tf.
  unfold mm_realloc. set (RS := realSize_of n) in *.
  unfold NULL at 1. destruct (Z.eqb_spec p 0) as [E|_]; [lia|].
  destruct (Z.eqb_spec n 0) as [E|_]; [contradiction|].
  rewrite (step_size_hdr st Hlo Htop p cur) by (so; rewrite Th; apply size_plus1; exact M).
  rewrite (step_size_hdr st Hlo Htop p cur) by (so; rewrite Th; apply size_plus1; exact M).
  destruct (Z.leb_spec RS cur) as [Hfit|_]; [lia|].
  rewrite (step_NEXT_BLKP st Hlo Htop p cur)
    by (so; rewrite Th; apply size_plus1; exact M).
  rewrite (step_alloc_hdr st Hlo Htop (p + cur) _) by (so; reflexivity).
  unfold absorbs_next in Habs. fold RS in Habs.
  set (h := load (mem st) (p + cur - 4)) in *.
  assert (Hfits :
    (fits <- (if h mod 2 =? 0
              then ns <- GET_SIZE (HDRP (p + cur));; ret (wrap (cur - RS) <=? ns)
              else ret false);;
     ret fits) st = Ret (false, st)).
  { destruct (h mod 2 =? 0); cbn [andb] in Habs.
    - rewrite bind_assoc.
      rewrite (step_size_hdr st Hlo Htop (p + cur) _) by (so; reflexivity).
      unfold ret. fold h. rewrite Habs. reflexivity.
    - reflexivity. }
  apply bind_inv in Hfits. destruct Hfits as (f & sf & Hf1 & Hf2).
  unfold ret in Hf2. inversion Hf2. subst f sf.
  rewrite (bind_run _ _ _ _ _ Hf1).
  rewrite (bind_run _ _ _ _ _ Hm).
  rewrite Z.eqb_refl. reflexivity.
Qed.

(** Every pointer [mm_realloc] returns is NULL or aligned, when the pointer
    it was given is. *)
Lemma mm_realloc_aligned (st st' : state) (bs : list block) (fl : list Z)
      (ptr n p : Z) (fuel : nat) :
  Rep st bs fl -> ptr = NULL \/ ptr mod 8 = 0 ->
  mm_realloc fuel ptr n st = Ret (p, st') -> p = NULL \/ p mod 8 = 0.
Proof.
  intros R Hptr H. unfold mm_realloc in H.
  destruct (Z.eqb_spec ptr NULL) as [E|E].
  { eapply mm_malloc_aligned; eassumption. }
  destruct Hptr as [Hptr|Hptr]; [contradiction|].
  destruct (n =? 0).
  { inv_bind H. unfold ret in H. inversion H. left. reflexivity. }
  inv_bind H. apply GET_SIZE_inv in H0. destruct H0 as [-> _].
  inv_bind H. apply GET_SIZE_inv in H0. destruct H0 as [-> _].
  destruct (realSize_of n <=? a0).
  { inv_bind H. unfold ret in H. inversion H. subst. right. exact Hptr. }
  inv_bind H. apply NEXT_BLKP_inv in H0. subst s.
  inv_bind H. apply GET_ALLOC_inv in H0. destruct H0 as [-> _].
  inv_bind H.
  assert (s = st).
  { destruct (a2 =? 0).
    - inv_bind H0. apply GET_SIZE_inv in H1. destruct H1 as [-> _].
      unfold ret in H0. inversion H0. reflexivity.
    - unfold ret in H0. inversion H0. reflexivity. }
  subst s. destruct a3.
  - inv_bind H. inv_bind H. inv_bind H. inv_bind H.
    unfold ret in H. inversion H. subst. right. exact Hptr.
  - inv_bind H. pose proof (mm_malloc_aligned _ _ _ _ _ _ _ R H1) as Ha.
    destruct (a3 =? NULL).
    + unfold ret in H. inversion H. left. reflexivity.
    + inv_bind H. inv_bind H. inv_bind H. unfold ret in H. inversion H. subst. exact Ha.
Qed.

(** * Deciding the representation on a concrete heap *)

Lemma flistb_sound (m : memory) (fl : list Z) (prev : Z) :
  flistb m prev fl = true -> flist m prev fl.
Proof.
  revert prev. induction fl as [|x r IH]; intros prev H; simpl in *.
  - apply Z.eqb_eq. exact H.
  - apply andb_true_iff in H. destruct H as [H H3].
    apply andb_true_iff in H. destruct H as [H1 H2].
    apply Z.eqb_eq in H1. apply Z.eqb_eq in H2. auto.
Qed.

Lemma nodupb_sound (l : list Z) : nodupb l = true -> NoDup l.
Proof.
  induction l as [|x r IH]; intros H; simpl in H; constructor.
  - apply andb_true_iff in H. destruct H as [H _].
    apply negb_true_iff in H. intros Hin.
    assert (E : existsb (Z.eqb x) r = true).
    { apply existsb_exists. exists x. split; [exact Hin|apply Z.eqb_refl]. }
    congruence.
  - apply IH. apply andb_true_iff in H. tauto.
Qed.

Lemma Repb_sound (st : state) (bs : list block) (fl : list Z) :
  Repb st bs fl = true -> Rep st bs fl.
Proof.
  unfold Repb. rewrite !andb_true_iff.
  intros ((((((((((H1 & H2) & H3) & H4) & H5) & H6) & H7) & H8) & H9) & H10) & H11).
  constructor.
  - apply Z.leb_le. exact H1.
  - apply Z.eqb_eq. exact H2.
  - apply Z.eqb_eq. exact H3.
  - apply Z.eqb_eq. exact H4.
  - apply Z.ltb_lt. exact H5.
  - apply Forall_forall. intros b Hb. rewrite forallb_forall in H6.
    specialize (H6 b Hb). unfold wf_userb in H6. apply andb_true_iff in H6.
    destruct H6 as [A B]. split; [apply Z.leb_le; exact A|apply Z.eqb_eq; exact B].
  - intros x b Hin. unfold tagsb in H7. rewrite forallb_forall in H7.
    specialize (H7 (x, b) Hin). simpl in H7. apply andb_true_iff in H7.
    destruct H7 as [A B]. split; apply Z.eqb_eq; assumption.
  - apply Z.eqb_eq. exact H8.
  - apply flistb_sound. exact H9.
  - intros x Hx. rewrite forallb_forall in H10. specialize (H10 x Hx).
    apply existsb_exists in H10. destruct H10 as ([y [s a]] & Hin & Hy).
    unfold is_free_block in Hy. simpl in Hy. apply andb_true_iff in Hy.
    destruct Hy as [A B]. apply Z.eqb_eq in A. apply negb_true_iff in B. subst.
    exists s. exact Hin.
  - apply nodupb_sound. exact H11.
Qed.

Lemma all_listedb_sound (st : state) (bs : list block) (fl : list Z) :
  all_listedb st bs fl = true -> all_listed st bs fl.
Proof.
  unfold all_listedb. rewrite forallb_forall. intros H x s Hin.
  specialize (H (x, (s, false)) Hin). simpl in H.
  apply existsb_exists in H. destruct H as (y & Hy & E).
  apply Z.eqb_eq in E. subst. exact Hy.
Qed.

Lemma Inv_check (st : state) (bs : list block) (fl : list Z) :
  Repb st bs fl && all_listedb st bs fl = true -> Inv st.
Proof.
  intros H. apply andb_true_iff in H. destruct H as [H1 H2].
  exists bs, fl. split; [apply Repb_sound; exact H1|apply all_listedb_sound; exact H2].
Qed.

(** * [mm_checkheap] on a well-formed heap *)

Lemma step_print {B} (st : state) (msg : message) (k : unit -> M B) :
  bind (print msg) k st = k tt (with_console (console st ++ [msg]) st).
Proof. reflexivity. Qed.

Lemma checkblock_quiet (st : state) (x : Z) (b : block) :
  0 <= mem_start_brk st -> mem_brk st < wB ->
  mem_start_brk st + 4 <= x -> x + fst b <= mem_brk st -> 24 <= fst b ->
  x mod 8 = 0 -> fst b mod 8 = 0 ->
  load (mem st) (x - 4) = tag b -> load (mem st) (x + fst b - 8) = tag b ->
  checkblock x st = Ret (tt, st).
Proof.
  intros Hlo Htop B1 B2 S A M Th Tf. unfold checkblock.
  rewrite A. simpl Z.eqb. cbv iota. rewrite step_ret.
  rewrite (HDRP_eq st Hlo Htop) by lia.
  rewrite (step_GET st) by lia.
  rewrite (step_FTRP st Hlo Htop x (fst b)) by (so; rewrite Th; apply tag_size; exact M).
  rewrite (step_GET st) by lia.
  rewrite Th, Tf, Z.eqb_refl. reflexivity.
Qed.

Lemma checkheap_loop_spec (st : state) (bs : list block) (x : Z) (fuel : nat) :
  0 <= mem_start_brk st -> mem_brk st < wB ->
  Forall wf_block bs -> tags (mem st) x bs ->
  mem_start_brk st + 4 <= x -> x mod 8 = 0 ->
  x + total bs = mem_brk st -> load (mem st) (mem_brk st - 4) = 1 ->
  (length bs < fuel)%nat ->
  checkheap_loop fuel false x st = Ret (mem_brk st, st).
Proof.
  intros Hlo Htop. revert x fuel.
  induction bs as [|b bs IH]; intros x fuel W T B1 A Hend Hepi Hfuel.
  - destruct fuel as [|fuel]; [simpl in Hfuel; lia|]. simpl in Hend.
    simpl checkheap_loop.
    rewrite (step_size_hdr st Hlo Htop x 0)
      by (so; replace (x - 4) with (mem_brk st - 4) by lia; rewrite Hepi; reflexivity).
    simpl. unfold ret. f_equal. f_equal. lia.
  - destruct fuel as [|fuel]; [simpl in Hfuel; lia|].
    apply tags_cons in T. destruct T as [[Th Tf] T'].
    inversion W as [|? ? [Wb1 Wb2] W']; subst.
    pose proof (total_nonneg _ W') as Tn.
    simpl in Hend.
    simpl checkheap_loop.
    rewrite (step_size_hdr st Hlo Htop x (fst b))
      by (so; rewrite Th; apply tag_size; exact Wb2).
    destruct (Z.ltb_spec 0 (fst b)) as [_|Hz]; [|lia].
    rewrite step_ret.
    rewrite (bind_run _ _ _ _ _ (checkblock_quiet st x b Hlo Htop B1 ltac:(lia) Wb1 A Wb2 Th Tf)).
    rewrite (step_NEXT_BLKP st Hlo Htop x (fst b))
      by (so; rewrite Th; apply tag_size; exact Wb2).
    apply IH; try assumption; try lia.
    + Z.div_mod_to_equations. lia.
    + simpl in Hfuel. lia.
Qed.

(** On every well-formed heap the checker prints one line, the complaint
    about the prologue header. *)
Lemma mm_checkheap_spec (st : state) (bs : list block) (fl : list Z) (fuel : nat) :
  Rep st bs fl -> (length bs + 1 < fuel)%nat ->
  mm_checkheap fuel false st =
  Ret (tt, with_console (console st ++ [BadPrologueHeader]) st).
Proof.
  intros R Hfuel.
  pose proof (rep_lo _ _ _ R) as Hlo. pose proof (rep_top _ _ _ R) as Htop.
  destruct (Rep_prologue _ _ _ R) as [P1 P2].
  destruct (Rep_brk_mod8 _ _ _ R) as [Mb Bb].
  pose proof (rep_align _ _ _ R) as Al.
  unfold mm_checkheap. rewrite step_get_hl, (rep_hl _ _ _ R).
  rewrite step_ret.
  rewrite (step_size_hdr st Hlo Htop (mem_start_brk st + 8) 24)
    by (so; replace (mem_start_brk st + 8 - 4) with (mem_start_brk st + 4) by lia;
        rewrite P1; reflexivity).
  unfold DSIZE. simpl Z.eqb. cbv iota. rewrite step_ret.
  simpl negb. simpl orb. cbv iota.
  rewrite step_print.
  set (st1 := with_console (console st ++ [BadPrologueHeader]) st).
  assert (Hlo1 : 0 <= mem_start_brk st1) by exact Hlo.
  assert (Htop1 : mem_brk st1 < wB) by exact Htop.
  assert (Al8 : (mem_start_brk st + 8) mod 8 = 0) by (Z.div_mod_to_equations; lia).
  rewrite (bind_run _ _ _ _ _
             (checkblock_quiet st1 (mem_start_brk st + 8) prologue Hlo1 Htop1
                ltac:(simpl; lia) ltac:(simpl; lia) ltac:(simpl; lia) Al8 eq_refl
                ltac:(simpl; replace (mem_start_brk st + 8 - 4) with (mem_start_brk st + 4) by lia;
                      exact P1)
                ltac:(simpl; replace (mem_start_brk st + 8 + 24 - 8) with (mem_start_brk st + 24) by lia;
                      exact P2))).
  assert (L : checkheap_loop fuel false (mem_start_brk st + 8) st1 = Ret (mem_brk st1, st1)).
  { apply (checkheap_loop_spec st1 (prologue :: bs)); try assumption.
    - exact (Rep_wf_all _ _ _ R).
    - exact (rep_tags _ _ _ R).
    - simpl. lia.
    - change (total (prologue :: bs)) with (24 + total bs).
      simpl mem_brk. rewrite (rep_brk _ _ _ R). lia.
    - exact (rep_epi _ _ _ R).
    - simpl. lia. }
  rewrite (bind_run _ _ _ _ _ L). rewrite step_ret. simpl mem_brk.
  rewrite (step_size_hdr st1 Hlo1 Htop1 (mem_brk st) 0)
    by (simpl; try lia; rewrite (rep_epi _ _ _ R); reflexivity).
  simpl Z.eqb. cbv iota.
  rewrite (step_alloc_hdr st1 Hlo1 Htop1 (mem_brk st) 1)
    by (simpl; try lia; rewrite (rep_epi _ _ _ R); reflexivity).
  reflexivity.
Qed.

(** * Concrete heaps *)

Example heap0_rep : Repb heap0 [] [] && all_listedb heap0 [] [] = true.
Proof. vm_compute. reflexivity. Qed.

Example heap_one_rep :
  Repb heap_one [(32, true)] [] && all_listedb heap_one [(32, true)] [] = true.
Proof. vm_compute. reflexivity. Qed.

Example heap_free_next_rep :
  Repb heap_free_next [(32, true); (128, false)] [65600]
  && all_listedb heap_free_next [(32, true); (128, false)] [65600] = true.
Proof. vm_compute. reflexivity. Qed.

Example heap_small_free_rep :
  Repb heap_small_free [(128, true); (32, false)] [65696]
  && all_listedb heap_small_free [(128, true); (32, false)] [65696] = true.
Proof. vm_compute. reflexivity. Qed.

Example heap_written_rep :
  Repb heap_written [(128, true)] [] && all_listedb heap_written [(128, true)] [] = true.
Proof. vm_compute. reflexivity. Qed.

Example heap_abc_rep :
  Repb heap_abc [(264, false)] [65568] && all_listedb heap_abc [(264, false)] [65568] = true.
Proof. vm_compute. reflexivity. Qed.

Example heap_full_rep :
  Repb heap_full [(32, true)] [] && all_listedb heap_full [(32, true)] [] = true.
Proof. vm_compute. reflexivity. Qed.

(** * The properties of the specification *)

Lemma Rep_block_at (st : state) (bs : list block) (fl : list Z) (x s : Z) (a : bool) :
  Rep st bs fl -> In (x, (s, a)) (placed (mem_start_brk st + 32) bs) ->
  block_at st x s a.
Proof.
  intros R P. pose proof (Rep_block _ _ _ R _ _ P) as (_ & _ & _ & _ & _ & T1 & T2).
  split; assumption.
Qed.

Lemma Rep_list_head (st : state) (bs : list block) (fl : list Z) :
  Rep st bs fl -> list_head st = hd 0 fl.
Proof.
  intros R. unfold list_head. rewrite (rep_hl _ _ _ R).
  pose proof (rep_flist _ _ _ R) as F. destruct fl as [|x r]; simpl in *; tauto.
Qed.

(** [mm_realloc(p, 0)] for any [p] but NULL: the pointer goes to the C
    library and the heap stays as it is. *)
Lemma mm_realloc_zero (fuel : nat) (p : Z) (st : state) :
  p <> NULL ->
  mm_realloc fuel p 0 st = Ret (NULL, with_libc_freed (libc_freed st ++ [p]) st).
Proof.
  intros Hp. unfold mm_realloc.
  destruct (Z.eqb_spec p NULL) as [E|_]; [contradiction|]. reflexivity.
Qed.

(** C1: resize(p, 0) is equivalent to deallocate(p).  Not so in the code:
    on the heap that holds the one block [p = mm_malloc(8)],
    [mm_realloc(p, 0)] returns NULL, hands [p] to the C library's [free]
    and leaves the block allocated and the free list empty, where
    [mm_free(p)] marks the block free and puts it on the free list. *)
Theorem resize_zero_leaves_block_allocated :
  returned (mm_realloc 1 65568 0) heap_one = Some NULL /\
  block_at (exec (mm_realloc 1 65568 0) heap_one) 65568 32 true /\
  list_head (exec (mm_realloc 1 65568 0) heap_one) = NULL /\
  libc_freed (exec (mm_realloc 1 65568 0) heap_one) = [65568] /\
  block_at (exec (mm_free 65568) heap_one) 65568 32 false /\
  list_head (exec (mm_free 65568) heap_one) = 65568.
Proof. unfold block_at. vm_compute. repeat split; reflexivity. Qed.

(** C2: on a well-formed heap check() reports no violation and accepts
    the prologue that init() builds.  Not so in the code: the prologue
    has size 24, the checker compares its size with [DSIZE], and both
    after [mm_init] alone and after the A, B, C scenario it prints
    "Bad prologue header" (and nothing else). *)
Theorem check_rejects_the_prologue :
  block_at heap0 65544 24 true /\
  console (exec (mm_checkheap 3 false) heap0) = [BadPrologueHeader] /\
  block_at heap_abc 65568 264 false /\
  console (exec (mm_checkheap 3 false) heap_abc) = [BadPrologueHeader].
Proof.
  pose proof heap0_rep as H0. apply andb_true_iff in H0. destruct H0 as [H0 _].
  pose proof heap_abc_rep as H1. apply andb_true_iff in H1. destruct H1 as [H1 _].
  apply Repb_sound in H0. apply Repb_sound in H1.
  split; [unfold block_at; vm_compute; split; reflexivity|].
  split; [unfold exec; rewrite (mm_checkheap_spec _ _ _ 3%nat H0) by (simpl; lia); reflexivity|].
  split; [unfold block_at; vm_compute; split; reflexivity|].
  unfold exec. rewrite (mm_checkheap_spec _ _ _ 3%nat H1) by (simpl; lia). reflexivity.
Qed.

(** C3: when the block after [p] is free and large enough, resize absorbs
    it and returns [p].  Not so in the code: with [p] of size 32 followed
    by a free block of size 128, [mm_realloc(p, 40)] needs 64 bytes,
    [remainSize] wraps around, the successor is not absorbed and the call
    returns the address of a new block. *)
Theorem resize_moves_despite_free_successor :
  block_at heap_free_next 65568 32 true /\
  block_at heap_free_next 65600 128 false /\
  realSize_of 40 = 64 /\
  wrap (32 - realSize_of 40) = 4294967264 /\
  returned (mm_realloc 2 65568 40) heap_free_next = Some 65600.
Proof. unfold block_at. vm_compute. repeat split; reflexivity. Qed.

(** C4: for a free block that [find_fit] returns for the rounded size [a],
    of size [c >= a], [place] splits exactly when [c - a] is at least the
    minimum block size (which holds header, footer and two links): the
    front becomes an allocated block of size [a] and the remainder a free
    block at the head of the free list; otherwise the whole block is
    allocated at size [c]. *)
Theorem place_splits_when_remainder_is_a_block
        (st st1 : state) (bs : list block) (fl : list Z) (fuel : nat) (a x : Z) :
  Rep st bs fl -> all_listed st bs fl ->
  a mod 8 = 0 -> MINBLOCK <= a ->
  find_fit fuel a st = Ret (x, st1) -> x <> NULL ->
  OVERHEAD + 2 * PSIZE <= MINBLOCK /\
  exists c l1 l2 st' fl',
    st1 = st /\ bs = l1 ++ [(c, false)] ++ l2 /\
    x = mem_start_brk st + 32 + total l1 /\ a <= c /\
    place x a st = Ret (tt, st') /\
    Rep st' (l1 ++ (if MINBLOCK <=? c - a then [(a, true); (c - a, false)]
                    else [(c, true)]) ++ l2) fl' /\
    all_listed st' (l1 ++ (if MINBLOCK <=? c - a then [(a, true); (c - a, false)]
                           else [(c, true)]) ++ l2) fl' /\
    (forall y, In y fl' <-> (MINBLOCK <= c - a /\ y = x + a) \/ (In y fl /\ y <> x)) /\
    (MINBLOCK <= c - a ->
       block_at st' x a true /\ block_at st' (x + a) (c - a) false /\
       list_head st' = x + a) /\
    (c - a < MINBLOCK -> block_at st' x c true).
Proof.
  intros R AL Ha Hmin Hfit Hx.
  split; [unfold MINBLOCK, OVERHEAD, PSIZE, DSIZE; lia|].
  destruct (find_fit_inv _ _ _ _ _ _ _ R Hfit) as [-> [E|(c & Hin & Hc & Pc)]];
    [contradiction|].
  destruct (placed_split _ _ _ _ Pc) as (l1 & l2 & Ebs & Hp).
  change (l1 ++ (c, false) :: l2) with (l1 ++ [(c, false)] ++ l2) in Ebs. subst bs.
  destruct (place_spec st l1 l2 fl x c a R AL Hp Ha ltac:(lia))
    as (st' & fl' & Prun & R' & AL' & SR & K & Hfl & Hhd & Len).
  assert (Elo : mem_start_brk st' = mem_start_brk st) by (destruct SR as (A & _); exact A).
  exists c, l1, l2, st', fl'. unfold placed_blocks in R', AL'.
  split; [reflexivity|]. split; [reflexivity|]. split; [exact Hp|].
  split; [exact Hc|]. split; [exact Prun|]. split; [exact R'|]. split; [exact AL'|].
  split; [exact Hfl|]. split.
  - intros Hsplit. destruct (Z.leb_spec MINBLOCK (c - a)) as [_|Hn]; [|lia].
    split; [|split].
    + apply (Rep_block_at _ _ _ _ _ _ R'). rewrite Elo. apply placed_3. right. left.
      rewrite <- Hp. simpl. left. reflexivity.
    + apply (Rep_block_at _ _ _ _ _ _ R'). rewrite Elo. apply placed_3. right. left.
      rewrite <- Hp. simpl. right. left. reflexivity.
    + rewrite (Rep_list_head _ _ _ R'). apply Hhd. exact Hsplit.
  - intros Hwhole. destruct (Z.leb_spec MINBLOCK (c - a)) as [Hn|_]; [lia|].
    apply (Rep_block_at _ _ _ _ _ _ R'). rewrite Elo. apply placed_3. right. left.
    rewrite <- Hp. simpl. left. reflexivity.
Qed.

(** C5: no two adjacent blocks are free after any public operation,
    resize included.  Not so in the code: with [p] of size 128 followed
    by a free block of size 32, [mm_realloc(p, 8)] shrinks [p] to 32
    bytes and inserts the remainder of 96 bytes without coalescing it
    with the free block behind it. *)
Theorem shrink_leaves_adjacent_free_blocks :
  no_adjacent_free 10 heap_small_free = Some true /\
  returned (mm_realloc 2 65568 8) heap_small_free = Some 65568 /\
  block_at (exec (mm_realloc 2 65568 8) heap_small_free) 65600 96 false /\
  block_at (exec (mm_realloc 2 65568 8) heap_small_free) 65696 32 false /\
  no_adjacent_free 10 (exec (mm_realloc 2 65568 8) heap_small_free) = Some false.
Proof. unfold block_at. vm_compute. repeat split; reflexivity. Qed.

(** C6: resize(nothing, n) behaves as allocate(n) for every n.  Not so in
    the code, which calls [mm_malloc] with the rounded size:
    [mm_malloc(0)] returns NULL and leaves the break where it is while
    [mm_realloc(NULL, 0)] returns a block of 48 bytes, and [mm_malloc(1)]
    builds a block of 32 bytes while [mm_realloc(NULL, 1)] builds one of
    56 bytes. *)
Theorem resize_of_nothing_is_not_allocate :
  returned (mm_malloc 1 0) heap0 = Some NULL /\
  mem_brk (exec (mm_malloc 1 0) heap0) = 65568 /\
  returned (mm_realloc 1 NULL 0) heap0 = Some 65568 /\
  mem_brk (exec (mm_realloc 1 NULL 0) heap0) = 65616 /\
  block_at (exec (mm_realloc 1 NULL 0) heap0) 65568 48 true /\
  block_at (exec (mm_malloc 1 1) heap0) 65568 32 true /\
  block_at (exec (mm_realloc 1 NULL 1) heap0) 65568 56 true.
Proof. unfold block_at. vm_compute. repeat split; reflexivity. Qed.

(** C7, as stated: resize keeps the first min(old payload, n) bytes for
    every n.  It does not for n = 2^32 - 1: the rounded size wraps to 24,
    the block of 128 bytes is "shrunk" in place, and the new footer and
    the remainder's header and links land in the caller's bytes. *)
Lemma resize_of_huge_size_overwrites_payload :
  returned (mm_realloc 1 65568 4294967295) heap_written = Some 65568 /\
  realSize_of 4294967295 = 24 /\
  ~ (forall i, 0 <= i < MIN (128 - OVERHEAD) 4294967295 ->
       mem (exec (mm_realloc 1 65568 4294967295) heap_written) (65568 + i)
       = mem heap_written (65568 + i)).
Proof.
  split; [vm_compute; reflexivity|]. split; [vm_compute; reflexivity|].
  intros H. specialize (H 16 ltac:(vm_compute; split; [discriminate|reflexivity])).
  vm_compute in H. discriminate.
Qed.

(** C7, amended: for every allocated block [p] of a well-formed heap and
    every size n > 0 small enough that no size computation wraps
    (n + 55 + heap end < 2^32), resize returns, and when it returns a
    block, the first min(old payload, n) bytes behind the returned pointer
    are the bytes [p] held before the call; the heap is well formed
    afterwards. *)
Theorem resize_preserves_content
        (st : state) (bs : list block) (fl : list Z) (p cur n : Z) (fuel : nat) :
  Rep st bs fl -> all_listed st bs fl -> allocated_at st bs p cur ->
  0 < n -> n + 55 + mem_brk st < wB -> (length fl < fuel)%nat ->
  exists r st',
    mm_realloc fuel p n st = Ret (r, st') /\
    ((r = NULL /\ st' = st) \/
     (r <> NULL /\ Inv st' /\
      forall i, 0 <= i < MIN (cur - OVERHEAD) n -> mem st' (r + i) = mem st (p + i))).
Proof. exact (mm_realloc_spec st bs fl p cur n fuel). Qed.

(** C8: when resize takes the move path (the block is too small and the
    next block is not absorbed) and the new allocation fails, resize
    returns NULL and the state, hence the block [p] with its size, tags
    and payload, is exactly as before. *)
Theorem resize_failure_keeps_the_block
        (st st1 : state) (bs : list block) (fl : list Z) (p cur n : Z) (fuel : nat) :
  Rep st bs fl -> allocated_at st bs p cur ->
  n <> 0 ->
  cur < realSize_of n ->
  absorbs_next st p cur n = false ->
  mm_malloc fuel (realSize_of n) st = Ret (NULL, st1) ->
  mm_realloc fuel p n st = Ret (NULL, st) /\
  st1 = st /\ block_at st p cur true /\ allocated_at st bs p cur.
Proof.
  intros R Pp Hn Hc Ha Hm.
  destruct (mm_realloc_move_failure st st1 bs fl p cur n fuel R Pp Hn Hc Ha Hm) as [H1 H2].
  split; [exact H1|]. split; [exact H2|]. split; [|exact Pp].
  eapply Rep_block_at; eassumption.
Qed.

(** C9: every pointer that allocate or resize returns from a well-formed
    heap, other than NULL, is a multiple of 8, whether the block comes
    from the free list or from an extension of the heap, and for every
    requested size. *)
Theorem returned_pointers_are_aligned (st : state) (bs : list block) (fl : list Z) :
  Rep st bs fl ->
  (forall fuel n p st',
      mm_malloc fuel n st = Ret (p, st') -> p <> NULL -> p mod 8 = 0) /\
  (forall fuel ptr cur n p st',
      ptr = NULL \/ allocated_at st bs ptr cur ->
      mm_realloc fuel ptr n st = Ret (p, st') -> p <> NULL -> p mod 8 = 0).
Proof.
  intros R. split.
  - intros fuel n p st' H Hp.
    destruct (mm_malloc_aligned _ _ _ _ _ _ _ R H) as [E|E]; [contradiction|exact E].
  - intros fuel ptr cur n p st' Hptr H Hp.
    assert (Hal : ptr = NULL \/ ptr mod 8 = 0).
    { destruct Hptr as [E|Pa]; [left; exact E|right].
      pose proof (Rep_block _ _ _ R _ _ Pa) as (_ & _ & _ & _ & A & _). exact A. }
    destruct (mm_realloc_aligned _ _ _ _ _ _ _ _ R Hal H) as [E|E]; [contradiction|exact E].
Qed.

Lemma extend_heap_no_memory (st : state) (w : Z) :
  (forall k, mem_avail st (mem_brk st) k = false) ->
  extend_heap w st = Ret (NULL, st).
Proof.
  intros Hno. unfold extend_heap. unfold bind at 1. unfold mem_sbrk.
  rewrite Hno. simpl andb. cbv iota. rewrite Z.eqb_refl. reflexivity.
Qed.

(** C10: right after a successful init() the free list is empty and the
    heap has no user block; every search of the free list fails, so a
    nonzero allocate goes through heap extension, and when the region
    refuses every further request, every nonzero allocate returns NULL. *)
Theorem first_allocation_needs_extension (st : state) :
  mem_brk st = mem_start_brk st -> 0 <= mem_start_brk st ->
  mem_start_brk st mod 8 = 0 ->
  mem_avail st (mem_brk st) 32 && (mem_brk st + 32 <? wB) = true ->
  mm_init st = Ret (0, init_state st) /\
  list_head (init_state st) = NULL /\
  Rep (init_state st) [] [] /\
  (forall fuel asize, find_fit (S fuel) asize (init_state st) = Ret (NULL, init_state st)) /\
  (forall fuel n, n <> 0 ->
     mm_malloc (S fuel) n (init_state st) =
     (bp <- extend_heap (realSize_of n / WSIZE) ;;
      if bp =? NULL then ret NULL else place bp (realSize_of n) ;; ret bp) (init_state st)) /\
  ((forall k, mem_avail st (mem_brk (init_state st)) k = false) ->
   forall fuel n, n <> 0 ->
     mm_malloc (S fuel) n (init_state st) = Ret (NULL, init_state st)).
Proof.
  intros Hb Hlo Hal Hav.
  assert (Hroom : mem_start_brk st + 32 < wB).
  { apply andb_true_iff in Hav. destruct Hav as [_ H]. apply Z.ltb_lt in H. lia. }
  pose proof (init_state_Rep st Hb Hlo Hal Hroom) as R.
  assert (Hhead : list_head (init_state st) = NULL).
  { rewrite (Rep_list_head _ _ _ R). reflexivity. }
  assert (Hfind : forall fuel asize,
             find_fit (S fuel) asize (init_state st) = Ret (NULL, init_state st)).
  { intros fuel asize. unfold find_fit. rewrite step_get_hl.
    rewrite (step_NEXT_EX (init_state st)) by (simpl; lia).
    unfold list_head in Hhead. rewrite Hhead. reflexivity. }
  assert (Hmalloc : forall fuel n, n <> 0 ->
     mm_malloc (S fuel) n (init_state st) =
     (bp <- extend_heap (realSize_of n / WSIZE) ;;
      if bp =? NULL then ret NULL else place bp (realSize_of n) ;; ret bp) (init_state st)).
  { intros fuel n Hn. unfold mm_malloc.
    destruct (Z.eqb_spec n 0) as [E|_]; [contradiction|].
    rewrite (bind_run _ _ _ _ _ (Hfind fuel (realSize_of n))). reflexivity. }
  split; [apply mm_init_run; assumption|].
  split; [exact Hhead|]. split; [exact R|]. split; [exact Hfind|].
  split; [exact Hmalloc|].
  intros Hno fuel n Hn. rewrite (Hmalloc fuel n Hn).
  rewrite (bind_run _ _ _ _ _ (extend_heap_no_memory (init_state st) _ Hno)).
  reflexivity.
Qed.

(** * The theorems at concrete heaps *)

Lemma check_Rep (st : state) (bs : list block) (fl : list Z) :
  Repb st bs fl && all_listedb st bs fl = true -> Rep st bs fl /\ all_listed st bs fl.
Proof.
  intros H. apply andb_true_iff in H. destruct H as [H1 H2].
  split; [apply Repb_sound; exact H1|apply all_listedb_sound; exact H2].
Defined.

(** [find_fit] finds the free block of 128 bytes for a request of 32, and
    [place] splits it. *)
Lemma place_splits_witness :
  (Rep heap_free_next [(32, true); (128, false)] [65600] /\
   all_listed heap_free_next [(32, true); (128, false)] [65600] /\
   32 mod 8 = 0 /\ MINBLOCK <= 32 /\
   find_fit 2 32 heap_free_next = Ret (65600, heap_free_next) /\ 65600 <> NULL) /\
  exists c l1 l2 st' fl',
    heap_free_next = heap_free_next /\
    [(32, true); (128, false)] = l1 ++ [(c, false)] ++ l2 /\
    65600 = mem_start_brk heap_free_next + 32 + total l1 /\ 32 <= c /\
    place 65600 32 heap_free_next = Ret (tt, st') /\
    Rep st' (l1 ++ (if MINBLOCK <=? c - 32 then [(32, true); (c - 32, false)]
                    else [(c, true)]) ++ l2) fl' /\
    all_listed st' (l1 ++ (if MINBLOCK <=? c - 32 then [(32, true); (c - 32, false)]
                           else [(c, true)]) ++ l2) fl' /\
    (forall y, In y fl' <->
               (MINBLOCK <= c - 32 /\ y = 65600 + 32) \/ (In y [65600] /\ y <> 65600)) /\
    (MINBLOCK <= c - 32 ->
       block_at st' 65600 32 true /\ block_at st' (65600 + 32) (c - 32) false /\
       list_head st' = 65600 + 32) /\
    (c - 32 < MINBLOCK -> block_at st' 65600 c true).
Proof.
  destruct (check_Rep _ _ _ heap_free_next_rep) as [R AL].
  assert (H1 : 32 mod 8 = 0) by reflexivity.
  assert (H2 : MINBLOCK <= 32) by (vm_compute; discriminate).
  assert (H3 : find_fit 2 32 heap_free_next = Ret (65600, heap_free_next))
    by (vm_compute; reflexivity).
  assert (H4 : 65600 <> NULL) by (vm_compute; discriminate).
  split; [exact (conj R (conj AL (conj H1 (conj H2 (conj H3 H4)))))|].
  exact (proj2 (place_splits_when_remainder_is_a_block
                  heap_free_next heap_free_next [(32, true); (128, false)] [65600]
                  2%nat 32 65600 R AL H1 H2 H3 H4)).
Defined.

(** [mm_realloc(p, 200)] on the block of 128 bytes the caller has written:
    the move path. *)
Lemma resize_preserves_content_witness :
  (Rep heap_written [(128, true)] [] /\ all_listed heap_written [(128, true)] [] /\
   allocated_at heap_written [(128, true)] 65568 128 /\
   0 < 200 /\ 200 + 55 + mem_brk heap_written < wB /\ (length (@nil Z) < 1)%nat) /\
  exists r st',
    mm_realloc 1 65568 200 heap_written = Ret (r, st') /\
    ((r = NULL /\ st' = heap_written) \/
     (r <> NULL /\ Inv st' /\
      forall i, 0 <= i < MIN (128 - OVERHEAD) 200 ->
                mem st' (r + i) = mem heap_written (65568 + i))).
Proof.
  destruct (check_Rep _ _ _ heap_written_rep) as [R AL].
  assert (H1 : allocated_at heap_written [(128, true)] 65568 128)
    by (vm_compute; left; reflexivity).
  assert (H2 : 0 < 200) by lia.
  assert (H3 : 200 + 55 + mem_brk heap_written < wB) by (vm_compute; reflexivity).
  assert (H4 : (length (@nil Z) < 1)%nat) by (simpl; lia).
  split; [exact (conj R (conj AL (conj H1 (conj H2 (conj H3 H4)))))|].
  exact (resize_preserves_content heap_written [(128, true)] [] 65568 128 200 1%nat
                                  R AL H1 H2 H3 H4).
Defined.

(** [mm_realloc(p, 100)] on a region that has no room left: the move path
    fails. *)
Lemma resize_failure_witness :
  (Rep heap_full [(32, true)] [] /\ allocated_at heap_full [(32, true)] 65568 32 /\
   100 <> 0 /\ 32 < realSize_of 100 /\ absorbs_next heap_full 65568 32 100 = false /\
   mm_malloc 1 (realSize_of 100) heap_full = Ret (NULL, heap_full)) /\
  mm_realloc 1 65568 100 heap_full = Ret (NULL, heap_full) /\
  heap_full = heap_full /\ block_at heap_full 65568 32 true /\
  allocated_at heap_full [(32, true)] 65568 32.
Proof.
  destruct (check_Rep _ _ _ heap_full_rep) as [R _].
  assert (H1 : allocated_at heap_full [(32, true)] 65568 32)
    by (vm_compute; left; reflexivity).
  assert (H2 : 100 <> 0) by discriminate.
  assert (H3 : 32 < realSize_of 100) by (vm_compute; reflexivity).
  assert (H4 : absorbs_next heap_full 65568 32 100 = false) by (vm_compute; reflexivity).
  assert (H5 : mm_malloc 1 (realSize_of 100) heap_full = Ret (NULL, heap_full))
    by (vm_compute; reflexivity).
  split; [exact (conj R (conj H1 (conj H2 (conj H3 (conj H4 H5)))))|].
  exact (resize_failure_keeps_the_block heap_full heap_full [(32, true)] [] 65568 32 100
                                        1%nat R H1 H2 H3 H4 H5).
Defined.

(** The first block that [mm_malloc] returns, and the block [mm_realloc]
    moves it to. *)
Lemma returned_pointers_witness :
  Rep heap0 [] [] /\
  mm_malloc 1 8 heap0 = Ret (65568, heap_one) /\ 65568 <> NULL /\ 65568 mod 8 = 0.
Proof.
  destruct (check_Rep _ _ _ heap0_rep) as [R _].
  assert (H1 : mm_malloc 1 8 heap0 = Ret (65568, heap_one)) by (vm_compute; reflexivity).
  assert (H2 : 65568 <> NULL) by (vm_compute; discriminate).
  split; [exact R|]. split; [exact H1|]. split; [exact H2|].
  exact (proj1 (returned_pointers_are_aligned heap0 [] [] R) 1%nat 8 65568 heap_one H1 H2).
Defined.

(** A region that grants the 32 bytes of [mm_init] and nothing more. *)
Lemma first_allocation_witness :
  (mem_brk (fresh init_only) = mem_start_brk (fresh init_only) /\
   0 <= mem_start_brk (fresh init_only) /\
   mem_start_brk (fresh init_only) mod 8 = 0 /\
   mem_avail (fresh init_only) (mem_brk (fresh init_only)) 32
   && (mem_brk (fresh init_only) + 32 <? wB) = true /\
   (forall k, mem_avail (fresh init_only) (mem_brk (init_state (fresh init_only))) k = false)) /\
  mm_init (fresh init_only) = Ret (0, init_state (fresh init_only)) /\
  list_head (init_state (fresh init_only)) = NULL /\
  mm_malloc 1 100 (init_state (fresh init_only)) = Ret (NULL, init_state (fresh init_only)).
Proof.
  assert (H1 : mem_brk (fresh init_only) = mem_start_brk (fresh init_only)) by reflexivity.
  assert (H2 : 0 <= mem_start_brk (fresh init_only)) by (vm_compute; discriminate).
  assert (H3 : mem_start_brk (fresh init_only) mod 8 = 0) by reflexivity.
  assert (H4 : mem_avail (fresh init_only) (mem_brk (fresh init_only)) 32
               && (mem_brk (fresh init_only) + 32 <? wB) = true) by reflexivity.
  assert (H5 : forall k, mem_avail (fresh init_only)
                                   (mem_brk (init_state (fresh init_only))) k = false)
    by (intros k; reflexivity).
  split; [exact (conj H1 (conj H2 (conj H3 (conj H4 H5))))|].
  destruct (first_allocation_needs_extension (fresh init_only) H1 H2 H3 H4)
    as (A & B & _ & _ & _ & C).
  split; [exact A|]. split; [exact B|].
  apply (C H5 0%nat 100). discriminate.
Defined.

(** * The sequence of blocks after an allocation *)

Lemma ends_free_snoc (pf : bool) (l : list block) (b : block) :
  ends_free pf (l ++ [b]) = negb (snd b).
Proof. revert pf. induction l as [|c l IH]; intros pf; [reflexivity|apply IH]. Qed.

Lemma last_block_case (bs : list block) :
  (front bs = bs /\ prev_free_size bs = 0 /\ ends_free false bs = false) \/
  (exists sp, bs = front bs ++ [(sp, false)] /\ prev_free_size bs = sp).
Proof.
  unfold front, prev_free_size.
  destruct (list_last_case bs) as [E|(l & [sp ap] & E)]; subst bs.
  - left. simpl. repeat split.
  - rewrite last_last, removelast_last. destruct ap.
    + left. repeat split. apply ends_free_snoc.
    + right. exists sp. split; reflexivity.
Qed.

Lemma merged_front (l1 l2 : list block) (s : Z) :
  merged l1 s l2 = front l1 ++ merge_next (s + prev_free_size l1) l2.
Proof.
  unfold merged, front, prev_free_size.
  destruct (last l1 prologue) as [sp [|]]; [rewrite Z.add_0_r|]; reflexivity.
Qed.

Lemma front_total (bs : list block) : total (front bs) = total bs - prev_free_size bs.
Proof.
  destruct (last_block_case bs) as [(E1 & E2 & _)|(sp & E1 & E2)].
  - rewrite E1, E2. lia.
  - rewrite E1 at 2. rewrite total_app, E2. simpl. lia.
Qed.

Lemma prev_free_size_bounds (bs : list block) :
  Forall wf_user bs -> prev_free_size bs = 0 \/ MINBLOCK <= prev_free_size bs.
Proof.
  intros W. destruct (last_block_case bs) as [(_ & E & _)|(sp & E1 & E2)]; [left; exact E|right].
  rewrite E1 in W. apply Forall_app in W. destruct W as [_ W].
  apply Forall_inv in W. destruct W as [W _]. rewrite E2. exact W.
Qed.

(** [mm_malloc] on the sequence of blocks.  Either the first node of the
    free list that is large enough is placed and the break stays, or no
    free block is large enough and the heap grows by the rounded size, or
    the region refuses and nothing changes. *)
Lemma mm_malloc_blocks (st : state) (bs : list block) (fl : list Z) (n : Z) (fuel : nat) :
  Rep st bs fl -> all_listed st bs fl ->
  0 < n -> n + 31 < wB -> (length fl < fuel)%nat ->
  exists r st',
    mm_malloc fuel n st = Ret (r, st') /\
    ((exists f1 f2 l1 l2 c fl',
         fl = f1 ++ r :: f2 /\ bs = l1 ++ [(c, false)] ++ l2 /\
         r = mem_start_brk st + 32 + total l1 /\ realSize_of n <= c /\
         (forall y sy, In y f1 ->
            In (y, (sy, false)) (placed (mem_start_brk st + 32) bs) -> sy < realSize_of n) /\
         Rep st' (l1 ++ placed_blocks c (realSize_of n) ++ l2) fl' /\
         all_listed st' (l1 ++ placed_blocks c (realSize_of n) ++ l2) fl' /\
         same_region st st' /\
         keeps (mem_start_brk st) bs (mem st) (mem st'))
     \/ ((forall y sy, In (y, (sy, false)) (placed (mem_start_brk st + 32) bs) ->
                       sy < realSize_of n) /\
         mem_avail st (mem_brk st) (realSize_of n)
           && (mem_brk st + realSize_of n <? wB) = true /\
         r = mem_brk st - prev_free_size bs /\
         exists fl',
           Rep st' (grown_blocks bs (realSize_of n)) fl' /\
           all_listed st' (grown_blocks bs (realSize_of n)) fl' /\
           same_region (with_brk (mem_brk st + realSize_of n) st) st' /\
           keeps (mem_start_brk st) bs (mem st) (mem st'))
     \/ ((forall y sy, In (y, (sy, false)) (placed (mem_start_brk st + 32) bs) ->
                       sy < realSize_of n) /\
         mem_avail st (mem_brk st) (realSize_of n)
           && (mem_brk st + realSize_of n <? wB) = false /\
         r = NULL /\ st' = st)).
Proof.
  intros R AL Hn Hsmall Hfuel.
  destruct (realSize_small n ltac:(lia) Hsmall) as (ER & MR & BR).
  set (RS := realSize_of n) in *.
  pose proof (Forall_wf_user_block _ (rep_wf _ _ _ R)) as W.
  pose proof (rep_lo _ _ _ R) as Hlo.
  unfold mm_malloc. destruct (Z.eqb_spec n 0) as [E|_]; [lia|]. fold RS.
  destruct (find_fit_first st bs fl RS fuel R Hfuel) as (r0 & Frun & Fcase).
  rewrite (bind_run _ _ _ _ _ Frun).
  destruct Fcase as [[E0 Hnone]|(f1 & f2 & c & Efl & Pc & Hc & Hbefore)].
  - (* no fit: extend the heap *)
    subst r0. change (negb (0 =? NULL)) with false. cbv iota.
    assert (Hall : forall y sy, In (y, (sy, false)) (placed (mem_start_brk st + 32) bs) ->
                                sy < RS).
    { intros y sy Hy. apply (Hnone y sy); [eapply AL; exact Hy|exact Hy]. }
    destruct (mem_avail st (mem_brk st) RS && (mem_brk st + RS <? wB)) eqn:Hav.
    + destruct (extend_heap_blocks st bs fl RS R AL MR ltac:(consts; lia) Hav)
        as (st1 & sr & Erun & R1 & AL1 & SR1 & K1 & AI1 & Pr & Ssr & Len1).
      rewrite (bind_run _ _ _ _ _ Erun).
      rewrite merged_front in R1, AL1, AI1. simpl merge_next in R1, AL1, AI1.
      set (r := mem_brk st - prev_free_size bs) in *.
      set (c := RS + prev_free_size bs) in *.
      assert (Elo : mem_start_brk st1 = mem_start_brk st) by (destruct SR1 as (A & _); exact A).
      pose proof (front_total bs) as Ft. pose proof (rep_brk _ _ _ R) as Hb.
      assert (Hr : r = mem_start_brk st1 + 32 + total (front bs)) by (unfold r; lia).
      pose proof (prev_free_size_bounds bs (rep_wf _ _ _ R)) as Hp. consts.
      assert (Wf : Forall wf_block (front bs)).
      { pose proof (rep_wf _ _ _ R1) as W1. apply Forall_app in W1.
        destruct W1 as [W1 _]. apply Forall_wf_user_block. exact W1. }
      pose proof (total_nonneg _ Wf) as Tf.
      unfold NULL. destruct (Z.eqb_spec r 0) as [E|Nr]; [lia|].
      destruct (place_spec st1 (front bs) [] _ r c RS R1 AL1 Hr MR ltac:(consts; lia))
        as (st' & fl' & Prun & R' & AL' & SR' & K' & _).
      rewrite (bind_run _ _ _ _ _ Prun). unfold ret.
      exists r, st'. split; [reflexivity|]. right. left.
      split; [exact Hall|]. split; [reflexivity|]. split; [reflexivity|].
      rewrite app_nil_r in R', AL'.
      exists fl'. split; [exact R'|]. split; [exact AL'|]. split.
      * eapply same_region_trans; [exact SR1|exact SR'].
      * apply (keeps_trans _ _ _ (mem st1)); [exact K1|].
        intros y s a Hy Ha. rewrite Elo in K'. apply (K' y s a); [|exact Ha].
        apply AI1. exact Hy.
    + rewrite (bind_run _ _ _ _ _ (extend_heap_refused st RS MR ltac:(consts; lia) Hav)).
      simpl. exists NULL, st. split; [reflexivity|]. right. right.
      split; [exact Hall|]. repeat split.
  - (* a fit *)
    pose proof (Rep_block _ _ _ R _ _ Pc) as (B1 & _).
    unfold NULL. destruct (Z.eqb_spec r0 0) as [E|Nr]; [lia|].
    change (negb false) with true. cbv iota.
    destruct (placed_split _ _ _ _ Pc) as (l1 & l2 & Ebs & Hx).
    change (l1 ++ (c, false) :: l2) with (l1 ++ [(c, false)] ++ l2) in Ebs.
    assert (R0 := R). assert (AL0 := AL). rewrite Ebs in R0, AL0.
    destruct (place_spec st l1 l2 fl r0 c RS R0 AL0 Hx MR ltac:(consts; lia))
      as (st' & fl' & Prun & R' & AL' & SR' & K' & _).
    rewrite (bind_run _ _ _ _ _ Prun). unfold ret.
    exists r0, st'. split; [reflexivity|]. left.
    exists f1, f2, l1, l2, c, fl'.
    split; [exact Efl|]. split; [exact Ebs|]. split; [exact Hx|]. split; [exact Hc|].
    split; [exact Hbefore|]. split; [exact R'|]. split; [exact AL'|]. split; [exact SR'|].
    rewrite Ebs. exact K'.
Qed.

(** * No two adjacent free blocks *)

Lemma no_adjb_app (pf : bool) (l1 l2 : list block) :
  no_adjb pf (l1 ++ l2) = no_adjb pf l1 && no_adjb (ends_free pf l1) l2.
Proof.
  revert pf. induction l1 as [|b l1 IH]; intros pf; simpl; [reflexivity|].
  destruct (pf && negb (snd b)); [reflexivity|apply IH].
Qed.

Lemma no_adjb_weaken (l : list block) : no_adjb true l = true -> no_adjb false l = true.
Proof.
  destruct l as [|[s a] l]; [reflexivity|]. simpl. destruct a; simpl; [auto|discriminate].
Qed.

Lemma no_adjb_merge_next (s : Z) (l2 : list block) :
  no_adjb false l2 = true -> no_adjb false (merge_next s l2) = true.
Proof.
  destruct l2 as [|[sn [|]] l2]; simpl; auto.
Qed.

Lemma no_adjb_front (l1 : list block) :
  no_adjb false l1 = true ->
  no_adjb false (front l1) = true /\ ends_free false (front l1) = false.
Proof.
  intros H. destruct (last_block_case l1) as [(E1 & _ & E3)|(sp & E1 & _)].
  - rewrite E1. split; assumption.
  - rewrite E1, no_adjb_app in H. apply andb_true_iff in H. destruct H as [H1 H2].
    split; [exact H1|]. simpl in H2. destruct (ends_free false (front l1)); [discriminate|reflexivity].
Qed.

Lemma no_adjb_merged (l1 l2 : list block) (s : Z) :
  no_adjb false l1 = true -> no_adjb false l2 = true ->
  no_adjb false (merged l1 s l2) = true.
Proof.
  intros H1 H2. rewrite merged_front, no_adjb_app.
  destruct (no_adjb_front l1 H1) as [F1 F2]. rewrite F1, F2.
  apply no_adjb_merge_next. exact H2.
Qed.

Lemma no_adjb_around (l1 l2 : list block) (s : Z) :
  no_adjb false (l1 ++ [(s, true)] ++ l2) = true ->
  no_adjb false l1 = true /\ no_adjb false l2 = true.
Proof.
  rewrite no_adjb_app. intros H. apply andb_true_iff in H. destruct H as [H1 H2].
  split; [exact H1|]. simpl in H2. rewrite andb_false_r in H2. exact H2.
Qed.

Lemma no_adjb_placed (l1 l2 : list block) (c a : Z) :
  no_adjb false (l1 ++ [(c, false)] ++ l2) = true ->
  no_adjb false (l1 ++ placed_blocks c a ++ l2) = true.
Proof.
  rewrite !no_adjb_app. intros H. apply andb_true_iff in H. destruct H as [H1 H2].
  rewrite H1. simpl in H2. rewrite andb_true_r in H2.
  destruct (ends_free false l1); [discriminate|].
  unfold placed_blocks. destruct (MINBLOCK <=? c - a); simpl.
  - exact H2.
  - apply no_adjb_weaken. exact H2.
Qed.

Lemma no_adjb_grown (bs : list block) (a : Z) :
  no_adjb false bs = true -> no_adjb false (grown_blocks bs a) = true.
Proof.
  intros H. unfold grown_blocks. rewrite no_adjb_app.
  destruct (no_adjb_front bs H) as [F1 F2]. rewrite F1, F2.
  unfold placed_blocks. destruct (MINBLOCK <=? a + prev_free_size bs - a); reflexivity.
Qed.

Lemma merged_length (l1 l2 : list block) (s : Z) :
  (length (merged l1 s l2) <= length (l1 ++ [(s, true)] ++ l2))%nat.
Proof.
  rewrite merged_front, !length_app.
  assert (L1 : (length (front l1) <= length l1)%nat).
  { destruct (last_block_case l1) as [(E & _)|(sp & E & _)]; [rewrite E; lia|].
    rewrite E at 2. rewrite length_app. lia. }
  assert (L2 : (length (merge_next (s + prev_free_size l1) l2) <= 1 + length l2)%nat).
  { destruct l2 as [|[sn [|]] l2]; simpl; lia. }
  change (length [(s, true)]) with 1%nat.
  apply Nat.add_le_mono; assumption.
Qed.

Lemma grown_length (bs : list block) (a : Z) :
  (length (grown_blocks bs a) <= length bs + 2)%nat.
Proof.
  unfold grown_blocks. rewrite length_app.
  assert (L1 : (length (front bs) <= length bs)%nat).
  { destruct (last_block_case bs) as [(E & _)|(sp & E & _)]; [rewrite E; lia|].
    rewrite E at 2. rewrite length_app. lia. }
  apply Nat.add_le_mono; [exact L1|].
  unfold placed_blocks. destruct (MINBLOCK <=? a + prev_free_size bs - a); simpl; lia.
Qed.

(** The walk over the block chain computes [no_adjb]. *)
Lemma no_adjacent_free_from_blocks (m : memory) (bs : list block) :
  forall (x : Z) (pf : bool) (fuel : nat),
    Forall wf_block bs -> tags m x bs ->
    load m (x + total bs - 4) = 1 ->
    (length bs < fuel)%nat ->
    no_adjacent_free_from fuel m x pf = Some (no_adjb pf bs).
Proof.
  induction bs as [|b bs IH]; intros x pf fuel W T Hepi Hfuel.
  - destruct fuel as [|fuel]; [simpl in Hfuel; lia|].
    simpl in Hepi. replace (x + 0 - 4) with (x - 4) in Hepi by lia.
    simpl. rewrite Hepi. reflexivity.
  - destruct fuel as [|fuel]; [simpl in Hfuel; lia|].
    apply tags_cons in T. destruct T as [[Th Tf] T'].
    inversion W as [|? ? [Wb1 Wb2] W']; subst.
    simpl no_adjacent_free_from. rewrite Th.
    rewrite land_lnot7, land_1, (tag_size b Wb2), (tag_alloc b Wb2).
    destruct (Z.eqb_spec (fst b) 0) as [E|_]; [lia|].
    simpl no_adjb.
    assert (Ef : ((if snd b then 1 else 0) =? 0) = negb (snd b)) by (destruct (snd b); reflexivity).
    rewrite Ef. destruct (pf && negb (snd b)); [reflexivity|].
    apply IH; try assumption.
    + simpl in Hepi. rewrite <- Hepi. f_equal. lia.
    + simpl in Hfuel. lia.
Qed.

Lemma no_adjacent_free_Rep (st : state) (bs : list block) (fl : list Z) (fuel : nat) :
  Rep st bs fl -> (length bs + 1 < fuel)%nat ->
  no_adjacent_free fuel st = Some (no_adjb false bs).
Proof.
  intros R Hfuel. unfold no_adjacent_free. rewrite (rep_hl _ _ _ R).
  rewrite (no_adjacent_free_from_blocks (mem st) (prologue :: bs)).
  - reflexivity.
  - exact (Rep_wf_all _ _ _ R).
  - exact (rep_tags _ _ _ R).
  - change (total (prologue :: bs)) with (24 + total bs).
    rewrite <- (rep_epi _ _ _ R), (rep_brk _ _ _ R). f_equal. lia.
  - simpl. lia.
Qed.

(** * Auxiliary facts *)

Lemma bind_ret_r {A} (c : M A) (st : state) : bind c ret st = c st.
Proof. unfold bind, ret. destruct (c st) as [[a st1]| |]; reflexivity. Qed.

(** * The verbose checker *)

Lemma printblock_block (st : state) (x : Z) (b : block) :
  0 <= mem_start_brk st -> mem_brk st < wB ->
  mem_start_brk st + 4 <= x -> x + fst b <= mem_brk st -> 24 <= fst b ->
  fst b mod 8 = 0 ->
  load (mem st) (x - 4) = tag b -> load (mem st) (x + fst b - 8) = tag b ->
  printblock x st = Ret (tt, with_console (console st ++ [block_line (x, b)]) st).
Proof.
  intros Hlo Htop B1 B2 S M Th Tf. unfold printblock.
  rewrite (step_size_hdr st Hlo Htop x (fst b)) by (so; rewrite Th; apply tag_size; exact M).
  rewrite (step_alloc_hdr st Hlo Htop x (if snd b then 1 else 0))
    by (so; rewrite Th; apply tag_alloc; exact M).
  rewrite (step_FTRP st Hlo Htop x (fst b)) by (so; rewrite Th; apply tag_size; exact M).
  rewrite (step_GET_SIZE st (x + fst b - 8) (fst b))
    by (so; rewrite Tf; apply tag_size; exact M).
  rewrite (step_FTRP st Hlo Htop x (fst b)) by (so; rewrite Th; apply tag_size; exact M).
  rewrite (step_GET_ALLOC st (x + fst b - 8) (if snd b then 1 else 0))
    by (so; rewrite Tf; apply tag_alloc; exact M).
  destruct (Z.eqb_spec (fst b) 0) as [E|_]; [lia|]. reflexivity.
Qed.

Lemma printblock_epilogue (st : state) :
  0 <= mem_start_brk st -> mem_brk st < wB ->
  mem_start_brk st + 32 <= mem_brk st -> load (mem st) (mem_brk st - 4) = 1 ->
  printblock (mem_brk st) st = Ret (tt, with_console (console st ++ [EOL (mem_brk st)]) st).
Proof.
  intros Hlo Htop Hb Hepi. unfold printblock.
  rewrite (step_size_hdr st Hlo Htop (mem_brk st) 0) by (so; rewrite Hepi; reflexivity).
  rewrite (step_alloc_hdr st Hlo Htop (mem_brk st) 1) by (so; rewrite Hepi; reflexivity).
  rewrite (step_FTRP st Hlo Htop (mem_brk st) 0) by (so; rewrite Hepi; reflexivity).
  rewrite (step_GET_SIZE st (mem_brk st + 0 - 8) _) by (so; reflexivity).
  rewrite (step_FTRP st Hlo Htop (mem_brk st) 0) by (so; rewrite Hepi; reflexivity).
  rewrite (step_GET_ALLOC st (mem_brk st + 0 - 8) _) by (so; reflexivity).
  reflexivity.
Qed.

Lemma checkheap_loop_verbose (st : state) (bs : list block) :
  0 <= mem_start_brk st -> mem_brk st < wB ->
  load (mem st) (mem_brk st - 4) = 1 ->
  forall (x : Z) (fuel : nat) (c : list message),
    Forall wf_block bs -> tags (mem st) x bs ->
    mem_start_brk st + 4 <= x -> x mod 8 = 0 ->
    x + total bs = mem_brk st ->
    (length bs < fuel)%nat ->
    checkheap_loop fuel true x (with_console c st)
    = Ret (mem_brk st, with_console (c ++ map block_line (placed x bs)) st).
Proof.
  intros Hlo Htop Hepi.
  induction bs as [|b bs IH]; intros x fuel c W T B1 A Hend Hfuel.
  - destruct fuel as [|fuel]; [simpl in Hfuel; lia|]. simpl in Hend.
    simpl checkheap_loop.
    rewrite (step_size_hdr (with_console c st) Hlo Htop x 0)
      by (simpl; try lia; replace (x - 4) with (mem_brk st - 4) by lia; rewrite Hepi; reflexivity).
    simpl. unfold ret. rewrite app_nil_r. f_equal. f_equal. lia.
  - destruct fuel as [|fuel]; [simpl in Hfuel; lia|].
    apply tags_cons in T. destruct T as [[Th Tf] T'].
    inversion W as [|? ? [Wb1 Wb2] W']; subst.
    pose proof (total_nonneg _ W') as Tn.
    simpl in Hend.
    simpl checkheap_loop.
    rewrite (step_size_hdr (with_console c st) Hlo Htop x (fst b))
      by (simpl; try lia; rewrite Th; apply tag_size; exact Wb2).
    destruct (Z.ltb_spec 0 (fst b)) as [_|Hz]; [|lia].
    rewrite (bind_run _ _ _ _ _
               (printblock_block (with_console c st) x b Hlo Htop B1 ltac:(simpl; lia)
                                 Wb1 Wb2 Th Tf)).
    simpl console.
    change (with_console (c ++ [block_line (x, b)]) (with_console c st))
      with (with_console (c ++ [block_line (x, b)]) st).
    rewrite (bind_run _ _ _ _ _
               (checkblock_quiet (with_console (c ++ [block_line (x, b)]) st) x b
                                 Hlo Htop B1 ltac:(simpl; lia) Wb1 A Wb2 Th Tf)).
    rewrite (step_NEXT_BLKP (with_console (c ++ [block_line (x, b)]) st) Hlo Htop x (fst b))
      by (simpl; try (unfold wB in *; lia); rewrite Th; apply tag_size; exact Wb2).
    rewrite (IH (x + fst b) fuel (c ++ [block_line (x, b)])); try assumption; try lia.
    + simpl. rewrite <- app_assoc. reflexivity.
    + Z.div_mod_to_equations. lia.
    + simpl in Hfuel. lia.
Qed.

(** With [verbose] set the checker prints the banner, the complaint about
    the prologue header, one line for every block from the prologue on,
    and the end-of-list line. *)
Lemma mm_checkheap_verbose (st : state) (bs : list block) (fl : list Z) (fuel : nat) :
  Rep st bs fl -> (length bs + 1 < fuel)%nat ->
  mm_checkheap fuel true st =
  Ret (tt, with_console
             (console st ++ [HeapBanner (heap_listp st); BadPrologueHeader]
                ++ map block_line (placed (heap_listp st) (prologue :: bs))
                ++ [EOL (mem_brk st)]) st).
Proof.
  intros R Hfuel.
  pose proof (rep_lo _ _ _ R) as Hlo. pose proof (rep_top _ _ _ R) as Htop.
  destruct (Rep_prologue _ _ _ R) as [P1 P2].
  destruct (Rep_brk_mod8 _ _ _ R) as [Mb Bb].
  pose proof (rep_align _ _ _ R) as Al.
  unfold mm_checkheap. rewrite step_get_hl, (rep_hl _ _ _ R).
  cbv iota. rewrite step_print.
  set (c1 := console st ++ [HeapBanner (mem_start_brk st + 8)]).
  rewrite (step_size_hdr (with_console c1 st) Hlo Htop (mem_start_brk st + 8) 24)
    by (simpl; try lia; replace (mem_start_brk st + 8 - 4) with (mem_start_brk st + 4) by lia;
        rewrite P1; reflexivity).
  unfold DSIZE. simpl Z.eqb. cbv iota. rewrite step_ret.
  simpl negb. simpl orb. cbv iota.
  rewrite step_print. simpl console.
  change (with_console (c1 ++ [BadPrologueHeader]) (with_console c1 st))
    with (with_console (c1 ++ [BadPrologueHeader]) st).
  set (c2 := c1 ++ [BadPrologueHeader]).
  assert (Al8 : (mem_start_brk st + 8) mod 8 = 0) by (Z.div_mod_to_equations; lia).
  rewrite (bind_run _ _ _ _ _
             (checkblock_quiet (with_console c2 st) (mem_start_brk st + 8) prologue Hlo Htop
                ltac:(simpl; lia) ltac:(simpl; lia) ltac:(simpl; lia) Al8 eq_refl
                ltac:(simpl; replace (mem_start_brk st + 8 - 4) with (mem_start_brk st + 4) by lia;
                      exact P1)
                ltac:(simpl; replace (mem_start_brk st + 8 + 24 - 8) with (mem_start_brk st + 24) by lia;
                      exact P2))).
  rewrite (bind_run _ _ _ _ _
             (checkheap_loop_verbose st (prologue :: bs) Hlo Htop (rep_epi _ _ _ R)
                (mem_start_brk st + 8) fuel c2 (Rep_wf_all _ _ _ R) (rep_tags _ _ _ R)
                ltac:(lia) Al8
                ltac:(change (total (prologue :: bs)) with (24 + total bs);
                      rewrite (rep_brk _ _ _ R); lia)
                ltac:(simpl; lia))).
  cbv iota.
  set (c3 := c2 ++ map block_line (placed (mem_start_brk st + 8) (prologue :: bs))).
  rewrite (bind_run _ _ _ _ _
             (printblock_epilogue (with_console c3 st) Hlo Htop Bb (rep_epi _ _ _ R))).
  simpl console. simpl mem_brk.
  change (with_console (c3 ++ [EOL (mem_brk st)]) (with_console c3 st))
    with (with_console (c3 ++ [EOL (mem_brk st)]) st).
  set (c4 := c3 ++ [EOL (mem_brk st)]).
  rewrite (step_size_hdr (with_console c4 st) Hlo Htop (mem_brk st) 0)
    by (simpl; try lia; rewrite (rep_epi _ _ _ R); reflexivity).
  simpl Z.eqb. cbv iota.
  rewrite (step_alloc_hdr (with_console c4 st) Hlo Htop (mem_brk st) 1)
    by (simpl; try lia; rewrite (rep_epi _ _ _ R); reflexivity).
  simpl. unfold ret. f_equal. f_equal. f_equal.
  unfold c4, c3, c2, c1. rewrite <- !app_assoc. reflexivity.
Qed.

Lemma filter_block_lines (l : list (Z * block)) :
  filter to_stderr (map block_line l) = map block_line l /\
  filter (fun msg => negb (to_stderr msg)) (map block_line l) = [].
Proof.
  induction l as [|xb l [IH1 IH2]]; [split; reflexivity|].
  simpl. rewrite IH1, IH2. split; reflexivity.
Qed.

(** * The checker on a heap whose footers may be damaged *)

Lemma with_console_same (st : state) : with_console (console st ++ []) st = st.
Proof. rewrite app_nil_r. destruct st; reflexivity. Qed.

Lemma checkblock_report (st : state) (x : Z) (b : block) :
  0 <= mem_start_brk st -> mem_brk st < wB ->
  mem_start_brk st + 4 <= x -> x + fst b <= mem_brk st -> 24 <= fst b ->
  x mod 8 = 0 -> fst b mod 8 = 0 ->
  load (mem st) (x - 4) = tag b ->
  checkblock x st
  = Ret (tt, with_console (console st ++ footer_report (mem st) (x, b)) st).
Proof.
  intros Hlo Htop B1 B2 S A M Th. unfold checkblock.
  rewrite A. simpl Z.eqb. cbv iota. rewrite step_ret.
  rewrite (HDRP_eq st Hlo Htop) by lia.
  rewrite (step_GET st) by lia.
  rewrite (step_FTRP st Hlo Htop x (fst b)) by (so; rewrite Th; apply tag_size; exact M).
  rewrite (step_GET st) by lia.
  unfold footer_report. simpl fst. simpl snd.
  destruct (load (mem st) (x - 4) =? load (mem st) (x + fst b - 8)).
  - rewrite with_console_same. reflexivity.
  - reflexivity.
Qed.

Lemma headers_cons (m : memory) (bp : Z) (b : block) (bs : list block) :
  headers m bp (b :: bs) <-> load m (bp - 4) = tag b /\ headers m (bp + fst b) bs.
Proof.
  unfold headers. simpl. split.
  - intros H. split; [apply H; left; reflexivity|].
    intros x c Hin. apply H. right. exact Hin.
  - intros [H1 H2] x c [Hin|Hin]; [inversion Hin; subst; exact H1|auto].
Qed.

Lemma checkheap_loop_report (st : state) (bs : list block) :
  0 <= mem_start_brk st -> mem_brk st < wB ->
  load (mem st) (mem_brk st - 4) = 1 ->
  forall (x : Z) (fuel : nat) (c : list message),
    Forall wf_block bs -> headers (mem st) x bs ->
    mem_start_brk st + 4 <= x -> x mod 8 = 0 ->
    x + total bs = mem_brk st ->
    (length bs < fuel)%nat ->
    checkheap_loop fuel false x (with_console c st)
    = Ret (mem_brk st,
           with_console (c ++ flat_map (footer_report (mem st)) (placed x bs)) st).
Proof.
  intros Hlo Htop Hepi.
  induction bs as [|b bs IH]; intros x fuel c W T B1 A Hend Hfuel.
  - destruct fuel as [|fuel]; [simpl in Hfuel; lia|]. simpl in Hend.
    simpl checkheap_loop.
    rewrite (step_size_hdr (with_console c st) Hlo Htop x 0)
      by (simpl; try lia; replace (x - 4) with (mem_brk st - 4) by lia; rewrite Hepi; reflexivity).
    simpl. unfold ret. rewrite app_nil_r. f_equal. f_equal. lia.
  - destruct fuel as [|fuel]; [simpl in Hfuel; lia|].
    apply headers_cons in T. destruct T as [Th T'].
    inversion W as [|? ? [Wb1 Wb2] W']; subst.
    pose proof (total_nonneg _ W') as Tn.
    simpl in Hend.
    simpl checkheap_loop.
    rewrite (step_size_hdr (with_console c st) Hlo Htop x (fst b))
      by (simpl; try lia; rewrite Th; apply tag_size; exact Wb2).
    destruct (Z.ltb_spec 0 (fst b)) as [_|Hz]; [|lia].
    rewrite step_ret.
    rewrite (bind_run _ _ _ _ _
               (checkblock_report (with_console c st) x b Hlo Htop B1 ltac:(simpl; lia)
                                  Wb1 A Wb2 Th)).
    simpl console. simpl mem.
    change (with_console (c ++ footer_report (mem st) (x, b)) (with_console c st))
      with (with_console (c ++ footer_report (mem st) (x, b)) st).
    rewrite (step_NEXT_BLKP (with_console (c ++ footer_report (mem st) (x, b)) st)
                            Hlo Htop x (fst b))
      by (simpl; try (unfold wB in *; lia); rewrite Th; apply tag_size; exact Wb2).
    rewrite (IH (x + fst b) fuel (c ++ footer_report (mem st) (x, b))); try assumption; try lia.
    + simpl flat_map. rewrite <- app_assoc. reflexivity.
    + Z.div_mod_to_equations. lia.
    + simpl in Hfuel. lia.
Qed.

(** Without [verbose] the checker prints the complaint about the prologue
    header and one complaint for every block whose footer differs from
    its header (the prologue is checked twice), as long as the headers and
    the epilogue are intact. *)
Lemma mm_checkheap_report (st : state) (bs : list block) (fuel : nat) :
  0 <= mem_start_brk st -> mem_brk st < wB -> mem_start_brk st mod 8 = 0 ->
  heap_listp st = mem_start_brk st + 8 ->
  mem_brk st = mem_start_brk st + 32 + total bs ->
  Forall wf_user bs ->
  headers (mem st) (mem_start_brk st + 8) (prologue :: bs) ->
  load (mem st) (mem_brk st - 4) = 1 ->
  (length bs + 1 < fuel)%nat ->
  mm_checkheap fuel false st
  = Ret (tt, with_console
               (console st ++ [BadPrologueHeader]
                  ++ footer_report (mem st) (mem_start_brk st + 8, prologue)
                  ++ flat_map (footer_report (mem st))
                       (placed (mem_start_brk st + 8) (prologue :: bs))) st).
Proof.
  intros Hlo Htop Al Hhl Hb W T Hepi Hfuel.
  pose proof (total_nonneg _ (Forall_wf_user_block _ W)) as Tn.
  assert (P1 : load (mem st) (mem_start_brk st + 8 - 4) = tag prologue)
    by (apply (T _ prologue); left; reflexivity).
  assert (Al8 : (mem_start_brk st + 8) mod 8 = 0) by (Z.div_mod_to_equations; lia).
  assert (Wall : Forall wf_block (prologue :: bs))
    by (constructor; [exact wf_prologue|apply Forall_wf_user_block; exact W]).
  unfold mm_checkheap. rewrite step_get_hl, Hhl.
  rewrite step_ret.
  rewrite (step_size_hdr st Hlo Htop (mem_start_brk st + 8) 24)
    by (so; rewrite P1; reflexivity).
  unfold DSIZE. simpl Z.eqb. cbv iota. rewrite step_ret.
  simpl negb. simpl orb. cbv iota.
  rewrite step_print.
  set (c1 := console st ++ [BadPrologueHeader]).
  rewrite (bind_run _ _ _ _ _
             (checkblock_report (with_console c1 st) (mem_start_brk st + 8) prologue Hlo Htop
                ltac:(simpl; lia) ltac:(simpl; lia) ltac:(simpl; lia) Al8 eq_refl P1)).
  simpl console. simpl mem.
  change (with_console (c1 ++ footer_report (mem st) (mem_start_brk st + 8, prologue))
                       (with_console c1 st))
    with (with_console (c1 ++ footer_report (mem st) (mem_start_brk st + 8, prologue)) st).
  set (c2 := c1 ++ footer_report (mem st) (mem_start_brk st + 8, prologue)).
  rewrite (bind_run _ _ _ _ _
             (checkheap_loop_report st (prologue :: bs) Hlo Htop Hepi
                (mem_start_brk st + 8) fuel c2 Wall T ltac:(lia) Al8
                ltac:(change (total (prologue :: bs)) with (24 + total bs); lia)
                ltac:(simpl; lia))).
  rewrite step_ret.
  set (c3 := c2 ++ flat_map (footer_report (mem st))
                            (placed (mem_start_brk st + 8) (prologue :: bs))).
  rewrite (step_size_hdr (with_console c3 st) Hlo Htop (mem_brk st) 0)
    by (simpl; try lia; rewrite Hepi; reflexivity).
  simpl Z.eqb. cbv iota.
  rewrite (step_alloc_hdr (with_console c3 st) Hlo Htop (mem_brk st) 1)
    by (simpl; try lia; rewrite Hepi; reflexivity).
  unfold ret. f_equal. f_equal. f_equal.
  unfold c3, c2, c1. rewrite <- !app_assoc. reflexivity.
Qed.

(** * More concrete heaps *)

Example heap_two_free_rep :
  Repb heap_two_free [(32, false); (32, true); (32, false)] [65632; 65568]
  && all_listedb heap_two_free [(32, false); (32, true); (32, false)] [65632; 65568] = true.
Proof. vm_compute. reflexivity. Qed.

Example heap_mid_rep :
  Repb heap_mid [(32, false); (32, false); (32, false)] [65632; 65568] = true.
Proof. vm_compute. reflexivity. Qed.

Example heap_unlinked_rep : Repb heap_unlinked [(264, false)] [] = true.
Proof. vm_compute. reflexivity. Qed.

(** * A client that allocates and frees *)

(** The tags of a heap determine its blocks. *)
Lemma tags_unique (m : memory) (bs : list block) :
  forall (bs' : list block) (x : Z),
    Forall wf_block bs -> Forall wf_block bs' ->
    tags m x bs -> tags m x bs' -> total bs = total bs' -> bs = bs'.
Proof.
  induction bs as [|b bs IH]; intros bs' x W W' T T' E.
  - destruct bs' as [|b' bs']; [reflexivity|].
    inversion W' as [|? ? [Wb _] Wr]; subst.
    pose proof (total_nonneg _ Wr). simpl in E. lia.
  - destruct bs' as [|b' bs'].
    + inversion W as [|? ? [Wb _] Wr]; subst.
      pose proof (total_nonneg _ Wr). simpl in E. lia.
    + inversion W as [|? ? [Wb1 Wb2] Wr]; subst.
      inversion W' as [|? ? [Wb1' Wb2'] Wr']; subst.
      apply tags_cons in T. destruct T as [[Th _] T].
      apply tags_cons in T'. destruct T' as [[Th' _] T'].
      assert (Eb : b = b').
      { pose proof (tag_size b Wb2) as S1. pose proof (tag_size b' Wb2') as S2.
        pose proof (tag_alloc b Wb2) as A1. pose proof (tag_alloc b' Wb2') as A2.
        rewrite <- Th in S1, A1. rewrite <- Th' in S2, A2.
        destruct b as [s a], b' as [s' a']. simpl in *.
        f_equal; [lia|]. destruct a, a'; try reflexivity; lia. }
      subst b'. f_equal. simpl in E.
      apply (IH bs' (x + fst b)); try assumption. lia.
Qed.

Lemma Rep_blocks_unique (st : state) (bs bs' : list block) (fl fl' : list Z) :
  Rep st bs fl -> Rep st bs' fl' -> bs = bs'.
Proof.
  intros R R'.
  assert (E : prologue :: bs = prologue :: bs'); [|injection E as E; exact E].
  apply (tags_unique (mem st) _ _ (mem_start_brk st + 8)).
  - exact (Rep_wf_all _ _ _ R).
  - exact (Rep_wf_all _ _ _ R').
  - exact (rep_tags _ _ _ R).
  - exact (rep_tags _ _ _ R').
  - pose proof (rep_brk _ _ _ R). pose proof (rep_brk _ _ _ R').
    change (24 + total bs = 24 + total bs'). lia.
Qed.

(** More fuel does not change what the search returns. *)
Lemma find_fit_loop_mono (asize : Z) (x : Z * state) :
  forall (k k' : nat) (bp : Z) (st : state),
    (k <= k')%nat ->
    find_fit_loop k asize bp st = Ret x -> find_fit_loop k' asize bp st = Ret x.
Proof.
  induction k as [|k IH]; intros k' bp st Hk H; [discriminate|].
  destruct k' as [|k']; [lia|].
  simpl in *. destruct (bp =? NULL); [exact H|].
  unfold bind in *. destruct (GET_SIZE (HDRP bp) st) as [[s st1]| |]; try discriminate.
  destruct (asize <=? s); [exact H|].
  destruct (NEXT_BLKP_EX bp st1) as [[nxt st2]| |]; try discriminate.
  apply IH; [lia|exact H].
Qed.

Lemma mm_malloc_mono (k k' : nat) (n : Z) (st : state) (x : Z * state) :
  (k <= k')%nat -> mm_malloc k n st = Ret x -> mm_malloc k' n st = Ret x.
Proof.
  intros Hk H. unfold mm_malloc in *. destruct (n =? 0); [exact H|].
  unfold bind at 1. unfold bind at 1 in H.
  destruct (find_fit k (realSize_of n) st) as [[bp st1]| |] eqn:F; try discriminate.
  assert (F' : find_fit k' (realSize_of n) st = Ret (bp, st1)).
  { unfold find_fit in *. unfold bind at 1. unfold bind at 1 in F.
    destruct (get_heap_listp st) as [[hl st0]| |]; try discriminate.
    unfold bind at 1. unfold bind at 1 in F.
    destruct (NEXT_BLKP_EX hl st0) as [[b0 st00]| |]; try discriminate.
    apply (find_fit_loop_mono _ _ k k'); assumption. }
  rewrite F'. exact H.
Qed.

Lemma NoDup_remove_all (x : Z) (l : list Z) : NoDup l -> NoDup (remove Z.eq_dec x l).
Proof.
  induction l as [|a l IH]; intros N; [constructor|].
  inversion N as [|? ? Na Nl]; subst. simpl.
  destruct (Z.eq_dec x a); [apply IH; exact Nl|].
  constructor; [|apply IH; exact Nl].
  intros H. apply in_remove in H. destruct H as [H _]. contradiction.
Qed.

(** At every quiescent point the heap is well formed, every free block is
    on the free list, no two neighbours are free, and the pointers the
    client holds are the allocated blocks. *)
Lemma quiescent_tidy (st : state) (live : list Z) :
  quiescent st live ->
  exists bs fl,
    Rep st bs fl /\ all_listed st bs fl /\ no_adjb false bs = true /\
    NoDup live /\ (forall p, In p live <-> exists s, allocated_at st bs p s).
Proof.
  induction 1 as [st0 st Hb Hlo Hal Hrun
                 |st1 st2 live fuel n r Hq IH Hn Hsmall Hrun
                 |st1 st2 live p Hq IH Hin Hrun].
  - (* mm_init *)
    destruct (mem_avail st0 (mem_brk st0) 32 && (mem_brk st0 + 32 <? wB)) eqn:Hav.
    + rewrite (mm_init_run st0 Hb Hlo Hav) in Hrun. injection Hrun as Est. subst st.
      assert (Hroom : mem_start_brk st0 + 32 < wB).
      { apply andb_true_iff in Hav. destruct Hav as [_ H]. apply Z.ltb_lt in H. lia. }
      exists [], []. split; [apply init_state_Rep; assumption|].
      split; [intros x s []|]. split; [reflexivity|]. split; [constructor|].
      intros p. split; [intros []|intros [s []]].
    + rewrite (mm_init_refused st0 Hav) in Hrun. discriminate.
  - (* mm_malloc *)
    destruct IH as (bs & fl & R & AL & Hno & ND & Hlive).
    set (F := Nat.max fuel (S (length fl))).
    assert (HF : mm_malloc F n st1 = Ret (r, st2))
      by (apply (mm_malloc_mono fuel F); [unfold F; lia|exact Hrun]).
    assert (HFl : (length fl < F)%nat) by (unfold F; lia).
    destruct (mm_malloc_spec st1 bs fl n F R AL Hn Hsmall HFl) as (r1 & s1 & Run1 & Hspec).
    rewrite HF in Run1. injection Run1 as Er1 Es1. subst r1 s1.
    destruct (mm_malloc_blocks st1 bs fl n F R AL Hn Hsmall HFl) as (r2 & s2 & Run2 & Hblk).
    rewrite HF in Run2. injection Run2 as Er2 Es2. subst r2 s2.
    destruct Hspec as [[Er Es]
                      |(Nr & bs' & fl' & sr & R' & AL' & G & K & AK & AN & Pr & Ssr & Nold & Len)].
    + subst r st2. rewrite Z.eqb_refl. exists bs, fl.
      repeat (split; [assumption|]). exact Hlive.
    + destruct (Z.eqb_spec r NULL) as [E|_]; [contradiction|].
      destruct G as (Elo & _).
      exists bs', fl'. split; [exact R'|]. split; [exact AL'|]. split; [|split].
      * destruct Hblk as [(f1 & f2 & l1 & l2 & c & fl2 & _ & Ebs & _ & _ & _ & R2 & _)
                         |[(_ & _ & _ & fl2 & R2 & _)|(_ & _ & Er & _)]].
        -- rewrite (Rep_blocks_unique _ _ _ _ _ R' R2).
           apply no_adjb_placed. rewrite Ebs in Hno. exact Hno.
        -- rewrite (Rep_blocks_unique _ _ _ _ _ R' R2).
           apply no_adjb_grown. exact Hno.
        -- contradiction.
      * constructor; [|exact ND].
        intros H. apply Hlive in H. destruct H as [s Hs]. apply (Nold s). exact Hs.
      * intros p. unfold allocated_at in *. rewrite Elo. split.
        -- intros [E|H]; [subst p; exists sr; exact Pr|].
           apply Hlive in H. destruct H as [s Hs]. exists s. apply AK. exact Hs.
        -- intros [s Hs]. destruct (AN p s Hs) as [E|H]; [left; symmetry; exact E|].
           right. apply Hlive. exists s. exact H.
  - (* mm_free *)
    destruct IH as (bs & fl & R & AL & Hno & ND & Hlive).
    destruct (proj1 (Hlive p) Hin) as [s Pp]. unfold allocated_at in *.
    destruct (placed_split _ _ _ _ Pp) as (l1 & l2 & Ebs & Hp).
    change (l1 ++ (s, true) :: l2) with (l1 ++ [(s, true)] ++ l2) in Ebs. subst bs.
    destruct (mm_free_blocks _ _ _ _ _ _ R AL Hp) as (st' & Frun & R' & AL' & SR' & _ & AI' & _).
    rewrite Hrun in Frun. injection Frun as Est. subst st'.
    assert (Elo : mem_start_brk st2 = mem_start_brk st1) by (destruct SR' as (E & _); exact E).
    destruct (no_adjb_around _ _ _ Hno) as [N1 N2].
    eexists (merged l1 s l2), _. split; [exact R'|]. split; [exact AL'|].
    split; [apply no_adjb_merged; assumption|].
    split; [apply NoDup_remove_all; exact ND|].
    intros q. rewrite Elo. split.
    + intros H. apply in_remove in H. destruct H as [H Nq].
      apply Hlive in H. destruct H as [sq Hs]. exists sq. apply AI'. split; assumption.
    + intros [sq Hs]. apply AI' in Hs. destruct Hs as [Hs Nq].
      apply in_in_remove; [exact Nq|]. apply Hlive. exists sq. exact Hs.
Qed.

(** * Further properties of the allocator *)

(** ** Tags and navigation *)

(** X1: a size and an allocated bit packed into a word with [PACK] and
    written with [PUT] are read back by [GET_SIZE] and [GET_ALLOC], for
    every size that is a multiple of 8 below 2^32. *)
Theorem packed_tag_round_trip (st : state) (p s a : Z) :
  mem_start_brk st <= p -> p + 4 <= mem_brk st ->
  0 <= s < wB -> s mod 8 = 0 -> a = 0 \/ a = 1 ->
  exists st',
    PUT p (PACK s a) st = Ret (tt, st') /\
    GET_SIZE p st' = Ret (s, st') /\ GET_ALLOC p st' = Ret (a, st').
Proof.
  intros H1 H2 Hs M Ha.
  exists (with_mem (store (mem st) p (PACK s a)) st).
  split; [apply PUT_run; assumption|].
  assert (Hv : 0 <= PACK s a < wB /\ 8 * (PACK s a / 8) = s /\ PACK s a mod 2 = a).
  { destruct Ha as [-> | ->].
    - rewrite PACK_0. split; [exact Hs|]. split; [apply size_plus0|apply alloc_plus0]; exact M.
    - rewrite (PACK_1 s M). split; [unfold wB in *; Z.div_mod_to_equations; lia|].
      split; [apply size_plus1|apply alloc_plus1]; exact M. }
  destruct Hv as (V1 & V2 & V3). split.
  - rewrite GET_SIZE_run by (simpl; assumption). simpl mem.
    rewrite (load_store_same _ _ _ V1), V2. reflexivity.
  - rewrite GET_ALLOC_run by (simpl; assumption). simpl mem.
    rewrite (load_store_same _ _ _ V1), V3. reflexivity.
Qed.

Lemma packed_tag_round_trip_witness :
  (mem_start_brk heap0 <= 65540 /\ 65540 + 4 <= mem_brk heap0 /\
   0 <= 24 < wB /\ 24 mod 8 = 0 /\ (1 = 0 \/ 1 = 1)) /\
  exists st',
    PUT 65540 (PACK 24 1) heap0 = Ret (tt, st') /\
    GET_SIZE 65540 st' = Ret (24, st') /\ GET_ALLOC 65540 st' = Ret (1, st').
Proof.
  assert (H1 : mem_start_brk heap0 <= 65540) by (vm_compute; discriminate).
  assert (H2 : 65540 + 4 <= mem_brk heap0) by (vm_compute; discriminate).
  assert (H3 : 0 <= 24 < wB) by (unfold wB; lia).
  assert (H4 : 24 mod 8 = 0) by reflexivity.
  assert (H5 : 1 = 0 \/ 1 = 1) by (right; reflexivity).
  split; [exact (conj H1 (conj H2 (conj H3 (conj H4 H5))))|].
  exact (packed_tag_round_trip heap0 65540 24 1 H1 H2 H3 H4 H5).
Defined.

(** X2: on a well-formed heap the boundary tags of every user block lead
    to its neighbours and back: [FTRP] is the last word of the block,
    [NEXT_BLKP] the block behind it, and [PREV_BLKP] of that one is the
    block again; none of them changes the state. *)
Theorem block_navigation_round_trip (st : state) (bs : list block) (fl : list Z)
        (x : Z) (b : block) :
  Rep st bs fl -> In (x, b) (placed (mem_start_brk st + 32) bs) ->
  HDRP x = x - 4 /\
  FTRP x st = Ret (x + fst b - 8, st) /\
  NEXT_BLKP x st = Ret (x + fst b, st) /\
  PREV_BLKP (x + fst b) st = Ret (x, st).
Proof.
  intros R Px.
  pose proof (rep_lo _ _ _ R) as Hlo. pose proof (rep_top _ _ _ R) as Htop.
  pose proof (Rep_block _ _ _ R _ _ Px) as (B1 & B2 & S & M & A & Th & Tf).
  split; [apply (HDRP_eq st Hlo Htop); lia|]. split; [|split].
  - rewrite <- (bind_ret_r (FTRP x) st).
    rewrite (step_FTRP st Hlo Htop x (fst b)) by (so; rewrite Th; apply tag_size; exact M).
    reflexivity.
  - rewrite <- (bind_ret_r (NEXT_BLKP x) st).
    rewrite (step_NEXT_BLKP st Hlo Htop x (fst b)) by (so; rewrite Th; apply tag_size; exact M).
    reflexivity.
  - rewrite <- (bind_ret_r (PREV_BLKP (x + fst b)) st).
    rewrite (step_PREV_BLKP st Hlo Htop (x + fst b) (fst b))
      by (so; rewrite Tf; apply tag_size; exact M).
    unfold ret. f_equal. f_equal. lia.
Qed.

Lemma block_navigation_witness :
  (Rep heap_free_next [(32, true); (128, false)] [65600] /\
   In (65568, (32, true))
      (placed (mem_start_brk heap_free_next + 32) [(32, true); (128, false)])) /\
  HDRP 65568 = 65568 - 4 /\
  FTRP 65568 heap_free_next = Ret (65568 + 32 - 8, heap_free_next) /\
  NEXT_BLKP 65568 heap_free_next = Ret (65568 + 32, heap_free_next) /\
  PREV_BLKP (65568 + 32) heap_free_next = Ret (65568, heap_free_next).
Proof.
  destruct (check_Rep _ _ _ heap_free_next_rep) as [R _].
  assert (H1 : In (65568, (32, true))
                  (placed (mem_start_brk heap_free_next + 32) [(32, true); (128, false)]))
    by (vm_compute; left; reflexivity).
  split; [exact (conj R H1)|].
  exact (block_navigation_round_trip heap_free_next [(32, true); (128, false)] [65600]
                                     65568 (32, true) R H1).
Defined.

(** ** The free list *)

(** X3: [insertblock] makes a free block that is not on the list its first
    node and leaves the other nodes behind it in their order; no tag and
    no payload byte of an allocated block changes. *)
Theorem insertblock_pushes_front (st : state) (bs : list block) (fl : list Z) (x s : Z) :
  Rep st bs fl ->
  In (x, (s, false)) (placed (mem_start_brk st + 32) bs) -> ~ In x fl ->
  exists st',
    insertblock x st = Ret (tt, st') /\
    Rep st' bs (x :: fl) /\ same_region st st' /\
    keeps (mem_start_brk st) bs (mem st) (mem st').
Proof.
  intros R Px Nx. destruct (insertblock_spec _ _ _ _ _ R Px Nx) as (Irun & R1 & Q1).
  exists (with_mem (mem_insert (mem st) (heap_listp st) x) st).
  split; [exact Irun|]. split; [exact R1|]. split; [apply same_region_with_mem|].
  apply quiet_keeps. exact Q1.
Qed.

Lemma insertblock_pushes_front_witness :
  (Rep heap_unlinked [(264, false)] [] /\
   In (65568, (264, false)) (placed (mem_start_brk heap_unlinked + 32) [(264, false)]) /\
   ~ In 65568 []) /\
  exists st',
    insertblock 65568 heap_unlinked = Ret (tt, st') /\
    Rep st' [(264, false)] [65568] /\ same_region heap_unlinked st' /\
    keeps (mem_start_brk heap_unlinked) [(264, false)] (mem heap_unlinked) (mem st').
Proof.
  pose proof (Repb_sound _ _ _ heap_unlinked_rep) as R.
  assert (H1 : In (65568, (264, false))
                  (placed (mem_start_brk heap_unlinked + 32) [(264, false)]))
    by (vm_compute; left; reflexivity).
  assert (H2 : ~ In 65568 []) by (intros []).
  split; [exact (conj R (conj H1 H2))|].
  exact (insertblock_pushes_front heap_unlinked [(264, false)] [] 65568 264 R H1 H2).
Defined.

(** X4: [deleteblock] takes a node out of the free list and leaves the
    nodes before and behind it linked in their order; no tag and no
    payload byte of an allocated block changes. *)
Theorem deleteblock_unlinks_in_order (st : state) (bs : list block)
        (f1 f2 : list Z) (x : Z) :
  Rep st bs (f1 ++ x :: f2) ->
  exists st',
    deleteblock x st = Ret (tt, st') /\
    Rep st' bs (f1 ++ f2) /\ same_region st st' /\
    keeps (mem_start_brk st) bs (mem st) (mem st').
Proof.
  intros R.
  assert (Hx : In x (f1 ++ x :: f2)) by (apply in_or_app; right; left; reflexivity).
  destruct (deleteblock_at _ _ _ _ R Hx) as (Drun & R1 & Q1).
  rewrite (remove_middle _ _ _ (rep_nodup _ _ _ R)) in R1.
  exists (with_mem (mem_delete (mem st) x) st).
  split; [exact Drun|]. split; [exact R1|]. split; [apply same_region_with_mem|].
  apply quiet_keeps. exact Q1.
Qed.

Lemma deleteblock_unlinks_witness :
  Rep heap_two_free [(32, false); (32, true); (32, false)] ([65632] ++ 65568 :: []) /\
  exists st',
    deleteblock 65568 heap_two_free = Ret (tt, st') /\
    Rep st' [(32, false); (32, true); (32, false)] ([65632] ++ []) /\
    same_region heap_two_free st' /\
    keeps (mem_start_brk heap_two_free) [(32, false); (32, true); (32, false)]
          (mem heap_two_free) (mem st').
Proof.
  destruct (check_Rep _ _ _ heap_two_free_rep) as [R _].
  split; [exact R|].
  exact (deleteblock_unlinks_in_order heap_two_free [(32, false); (32, true); (32, false)]
                                      [65632] [] 65568 R).
Defined.

(** X5: inserting a free block into the list and deleting it again leaves
    the list with the nodes it had, in their order. *)
Theorem insert_then_delete_restores_list (st : state) (bs : list block) (fl : list Z)
        (x s : Z) :
  Rep st bs fl ->
  In (x, (s, false)) (placed (mem_start_brk st + 32) bs) -> ~ In x fl ->
  exists st',
    (insertblock x ;; deleteblock x) st = Ret (tt, st') /\
    Rep st' bs fl /\ same_region st st' /\
    keeps (mem_start_brk st) bs (mem st) (mem st').
Proof.
  intros R Px Nx. destruct (insertblock_spec _ _ _ _ _ R Px Nx) as (Irun & R1 & Q1).
  set (st1 := with_mem (mem_insert (mem st) (heap_listp st) x) st) in *.
  destruct (deleteblock_at _ _ _ _ R1 (or_introl eq_refl)) as (Drun & R2 & Q2).
  change (remove Z.eq_dec x (x :: fl)) with (remove Z.eq_dec x ([] ++ x :: fl)) in R2.
  rewrite (remove_middle x [] fl (rep_nodup _ _ _ R1)) in R2.
  exists (with_mem (mem_delete (mem st1) x) st1).
  split; [rewrite (bind_run _ _ _ _ _ Irun); exact Drun|].
  split; [exact R2|]. split.
  - eapply same_region_trans; apply same_region_with_mem.
  - apply (keeps_trans _ _ _ (mem st1)); apply quiet_keeps; assumption.
Qed.

Lemma insert_then_delete_witness :
  (Rep heap_unlinked [(264, false)] [] /\
   In (65568, (264, false)) (placed (mem_start_brk heap_unlinked + 32) [(264, false)]) /\
   ~ In 65568 []) /\
  exists st',
    (insertblock 65568 ;; deleteblock 65568) heap_unlinked = Ret (tt, st') /\
    Rep st' [(264, false)] [] /\ same_region heap_unlinked st' /\
    keeps (mem_start_brk heap_unlinked) [(264, false)] (mem heap_unlinked) (mem st').
Proof.
  pose proof (Repb_sound _ _ _ heap_unlinked_rep) as R.
  assert (H1 : In (65568, (264, false))
                  (placed (mem_start_brk heap_unlinked + 32) [(264, false)]))
    by (vm_compute; left; reflexivity).
  assert (H2 : ~ In 65568 []) by (intros []).
  split; [exact (conj R (conj H1 H2))|].
  exact (insert_then_delete_restores_list heap_unlinked [(264, false)] [] 65568 264 R H1 H2).
Defined.

(** X6: [find_fit] is a first-fit search.  It returns the first node of
    the free list whose block has at least [asize] bytes, or NULL when
    every listed block is smaller, and it changes nothing. *)
Theorem find_fit_returns_first_fit (st : state) (bs : list block) (fl : list Z)
        (asize : Z) (fuel : nat) :
  Rep st bs fl -> (length fl < fuel)%nat ->
  exists r,
    find_fit fuel asize st = Ret (r, st) /\
    ((r = NULL /\ forall y s, In y fl ->
                   In (y, (s, false)) (placed (mem_start_brk st + 32) bs) -> s < asize)
     \/ (exists f1 f2 s,
            fl = f1 ++ r :: f2 /\
            In (r, (s, false)) (placed (mem_start_brk st + 32) bs) /\ asize <= s /\
            forall y sy, In y f1 ->
              In (y, (sy, false)) (placed (mem_start_brk st + 32) bs) -> sy < asize)).
Proof. exact (find_fit_first st bs fl asize fuel). Qed.

Lemma find_fit_first_fit_witness :
  (Rep heap_free_next [(32, true); (128, false)] [65600] /\
   (length [65600%Z] < 2)%nat) /\
  exists r,
    find_fit 2 100 heap_free_next = Ret (r, heap_free_next) /\
    ((r = NULL /\ forall y s, In y [65600] ->
        In (y, (s, false))
           (placed (mem_start_brk heap_free_next + 32) [(32, true); (128, false)]) ->
        s < 100)
     \/ (exists f1 f2 s,
            [65600] = f1 ++ r :: f2 /\
            In (r, (s, false))
               (placed (mem_start_brk heap_free_next + 32) [(32, true); (128, false)]) /\
            100 <= s /\
            forall y sy, In y f1 ->
              In (y, (sy, false))
                 (placed (mem_start_brk heap_free_next + 32) [(32, true); (128, false)]) ->
              sy < 100)).
Proof.
  destruct (check_Rep _ _ _ heap_free_next_rep) as [R _].
  assert (H1 : (length [65600%Z] < 2)%nat) by (simpl; lia).
  split; [exact (conj R H1)|].
  exact (find_fit_returns_first_fit heap_free_next [(32, true); (128, false)] [65600]
                                    100 2%nat R H1).
Defined.

(** ** Coalescing and extending *)

(** X7: [coalesce] merges the free block it is given with each physical
    neighbour that is free.  On the sequence of blocks it computes
    [merged]; it returns the start of the merged block, which becomes the
    first node of the free list while the nodes of the merged neighbours
    leave it, and no payload byte of an allocated block changes. *)
Theorem coalesce_merges_free_neighbours (st : state) (l1 l2 : list block) (fl : list Z)
        (x s : Z) :
  Rep st (l1 ++ [(s, false)] ++ l2) fl ->
  x = mem_start_brk st + 32 + total l1 ->
  ~ In x fl ->
  others_listed st (l1 ++ [(s, false)] ++ l2) fl x ->
  exists st' fl',
    coalesce x st = Ret (x - prev_free_size l1, st') /\
    fl' = (x - prev_free_size l1)
            :: remove Z.eq_dec (x + s) (remove Z.eq_dec (x - prev_free_size l1) fl) /\
    Rep st' (merged l1 s l2) fl' /\ all_listed st' (merged l1 s l2) fl' /\
    same_region st st' /\
    keeps (mem_start_brk st) (l1 ++ [(s, false)] ++ l2) (mem st) (mem st').
Proof.
  intros R Hx Nx OL.
  destruct (coalesce_blocks _ _ _ _ _ _ R Hx Nx OL)
    as (st' & sr & Crun & R' & AL' & SR' & K' & _).
  exists st'. eexists. split; [exact Crun|]. split; [reflexivity|].
  split; [exact R'|]. split; [exact AL'|]. split; assumption.
Qed.

Lemma coalesce_merges_witness :
  (Rep heap_mid ([(32, false)] ++ [(32, false)] ++ [(32, false)]) [65632; 65568] /\
   65600 = mem_start_brk heap_mid + 32 + total [(32, false)] /\
   ~ In 65600 [65632; 65568] /\
   others_listed heap_mid ([(32, false)] ++ [(32, false)] ++ [(32, false)])
                 [65632; 65568] 65600) /\
  exists st' fl',
    coalesce 65600 heap_mid = Ret (65600 - prev_free_size [(32, false)], st') /\
    fl' = (65600 - prev_free_size [(32, false)])
            :: remove Z.eq_dec (65600 + 32)
                 (remove Z.eq_dec (65600 - prev_free_size [(32, false)]) [65632; 65568]) /\
    Rep st' (merged [(32, false)] 32 [(32, false)]) fl' /\
    all_listed st' (merged [(32, false)] 32 [(32, false)]) fl' /\
    same_region heap_mid st' /\
    keeps (mem_start_brk heap_mid) ([(32, false)] ++ [(32, false)] ++ [(32, false)])
          (mem heap_mid) (mem st').
Proof.
  pose proof (Repb_sound _ _ _ heap_mid_rep) as R.
  assert (H1 : 65600 = mem_start_brk heap_mid + 32 + total [(32, false)]) by reflexivity.
  assert (H2 : ~ In 65600 [65632; 65568]).
  { intros [E|[E|[]]]; discriminate. }
  assert (H3 : others_listed heap_mid ([(32, false)] ++ [(32, false)] ++ [(32, false)])
                             [65632; 65568] 65600).
  { intros y sy Hy Ny. vm_compute in Hy.
    destruct Hy as [E|[E|[E|[]]]]; injection E as Ey _; subst y.
    - right. left. reflexivity.
    - contradiction.
    - left. reflexivity. }
  split; [exact (conj R (conj H1 (conj H2 H3)))|].
  exact (coalesce_merges_free_neighbours heap_mid [(32, false)] [(32, false)]
                                         [65632; 65568] 65600 32 R H1 H2 H3).
Defined.



(** X9: [extend_heap] allocates an even number of words: for an odd
    count it does what it does for the next even count. *)
Theorem extend_heap_rounds_up_to_even (st : state) (w : Z) :
  w mod 2 = 1 -> extend_heap w st = extend_heap (w + 1) st.
Proof.
  intros Hodd.
  assert (Heven : (w + 1) mod 2 = 0) by (Z.div_mod_to_equations; lia).
  assert (E : wrap (wrap (w + 1) * WSIZE) = wrap ((w + 1) * WSIZE)).
  { unfold wrap. apply Z.mul_mod_idemp_l. unfold wB. lia. }
  unfold extend_heap. rewrite Hodd, Heven.
  change (1 =? 0) with false. change (0 =? 0) with true. cbv iota.
  rewrite E. reflexivity.
Qed.

Lemma extend_heap_rounds_witness :
  15 mod 2 = 1 /\ extend_heap 15 heap0 = extend_heap (15 + 1) heap0.
Proof.
  assert (H1 : 15 mod 2 = 1) by reflexivity.
  split; [exact H1|]. exact (extend_heap_rounds_up_to_even heap0 15 H1).
Defined.

(** ** mm_init and mm_malloc *)

(** X10: when the region refuses the 32 bytes of the initial heap,
    [mm_init] returns -1 and writes nothing; the break stays, and
    [heap_listp] is left holding the failure value of [mem_sbrk]. *)
Theorem mm_init_refused_leaves_memory (st : state) :
  mem_avail st (mem_brk st) 32 && (mem_brk st + 32 <? wB) = false ->
  exists st',
    mm_init st = Ret (-1, st') /\
    mem st' = mem st /\ mem_brk st' = mem_brk st /\ heap_listp st' = SBRK_FAILED.
Proof.
  intros H. exists (with_heap_listp SBRK_FAILED st).
  split; [apply mm_init_refused; exact H|]. repeat split.
Qed.

Lemma mm_init_refused_witness :
  mem_avail (fresh no_room) (mem_brk (fresh no_room)) 32
  && (mem_brk (fresh no_room) + 32 <? wB) = false /\
  exists st',
    mm_init (fresh no_room) = Ret (-1, st') /\
    mem st' = mem (fresh no_room) /\ mem_brk st' = mem_brk (fresh no_room) /\
    heap_listp st' = SBRK_FAILED.
Proof.
  assert (H1 : mem_avail (fresh no_room) (mem_brk (fresh no_room)) 32
               && (mem_brk (fresh no_room) + 32 <? wB) = false) by reflexivity.
  split; [exact H1|]. exact (mm_init_refused_leaves_memory (fresh no_room) H1).
Defined.

(** X11: an allocation that returns NULL has changed nothing: neither the
    memory nor the break nor the free list, for every requested size. *)
Theorem mm_malloc_null_changes_nothing (st st' : state) (bs : list block) (fl : list Z)
        (n : Z) (fuel : nat) :
  Rep st bs fl -> mm_malloc fuel n st = Ret (NULL, st') -> st' = st.
Proof. exact (mm_malloc_null st st' bs fl n fuel). Qed.

Lemma mm_malloc_null_witness :
  (Rep heap_full [(32, true)] [] /\
   mm_malloc 1 100 heap_full = Ret (NULL, heap_full)) /\ heap_full = heap_full.
Proof.
  destruct (check_Rep _ _ _ heap_full_rep) as [R _].
  assert (H1 : mm_malloc 1 100 heap_full = Ret (NULL, heap_full)) by (vm_compute; reflexivity).
  split; [exact (conj R H1)|].
  exact (mm_malloc_null_changes_nothing heap_full heap_full [(32, true)] [] 100 1%nat R H1).
Defined.

(** X12: a successful [mm_malloc(n)] returns the payload address of an
    allocated block of the new, well-formed heap: the address is a
    multiple of 8, the block lies inside the heap, and its payload (the
    block without its two tags) has room for at least [n] bytes. *)
Theorem mm_malloc_returns_usable_block (st : state) (bs : list block) (fl : list Z)
        (n : Z) (fuel : nat) :
  Rep st bs fl -> all_listed st bs fl ->
  0 < n -> n + 31 < wB -> (length fl < fuel)%nat ->
  exists r st',
    mm_malloc fuel n st = Ret (r, st') /\
    ((r = NULL /\ st' = st) \/
     (exists bs' fl' sr,
         Rep st' bs' fl' /\ all_listed st' bs' fl' /\
         allocated_at st' bs' r sr /\ n <= sr - OVERHEAD /\ r mod 8 = 0 /\
         mem_start_brk st' + 32 <= r /\ r + sr <= mem_brk st')).
Proof.
  intros R AL Hn Hsmall Hfuel.
  destruct (mm_malloc_spec st bs fl n fuel R AL Hn Hsmall Hfuel) as (r & st' & Run & Hcase).
  exists r, st'. split; [exact Run|].
  destruct Hcase as [Hnull|(_ & bs' & fl' & sr & R' & AL' & G & _ & _ & _ & Pr & Ssr & _)];
    [left; exact Hnull|right].
  destruct G as (Elo & _).
  destruct (realSize_small n ltac:(lia) Hsmall) as (_ & _ & BR).
  rewrite <- Elo in Pr.
  pose proof (Rep_block _ _ _ R' _ _ Pr) as (B1 & B2 & _ & _ & A & _). simpl fst in *.
  exists bs', fl', sr. unfold allocated_at, OVERHEAD.
  repeat (split; [first [assumption|lia]|]). exact B2.
Qed.

Lemma mm_malloc_usable_witness :
  (Rep heap0 [] [] /\ all_listed heap0 [] [] /\ 0 < 8 /\ 8 + 31 < wB /\
   (length (@nil Z) < 1)%nat) /\
  exists r st',
    mm_malloc 1 8 heap0 = Ret (r, st') /\
    ((r = NULL /\ st' = heap0) \/
     (exists bs' fl' sr,
         Rep st' bs' fl' /\ all_listed st' bs' fl' /\
         allocated_at st' bs' r sr /\ 8 <= sr - OVERHEAD /\ r mod 8 = 0 /\
         mem_start_brk st' + 32 <= r /\ r + sr <= mem_brk st')).
Proof.
  destruct (check_Rep _ _ _ heap0_rep) as [R AL].
  assert (H1 : 0 < 8) by lia.
  assert (H2 : 8 + 31 < wB) by (unfold wB; lia).
  assert (H3 : (length (@nil Z) < 1)%nat) by (simpl; lia).
  split; [exact (conj R (conj AL (conj H1 (conj H2 H3))))|].
  exact (mm_malloc_returns_usable_block heap0 [] [] 8 1%nat R AL H1 H2 H3).
Defined.

(** X13: a successful [mm_malloc] leaves every block that was allocated
    before allocated at its address with its size and its payload bytes,
    and the new block overlaps none of them. *)
Theorem mm_malloc_keeps_other_blocks (st st' : state) (bs : list block) (fl : list Z)
        (n r : Z) (fuel : nat) :
  Rep st bs fl -> all_listed st bs fl ->
  0 < n -> n + 31 < wB -> (length fl < fuel)%nat ->
  mm_malloc fuel n st = Ret (r, st') -> r <> NULL ->
  exists bs' fl' sr,
    Rep st' bs' fl' /\ allocated_at st' bs' r sr /\
    forall y sy, allocated_at st bs y sy ->
      allocated_at st' bs' y sy /\ (r + sr <= y \/ y + sy <= r) /\
      forall a, y <= a < y + sy - 8 -> mem st' a = mem st a.
Proof.
  intros R AL Hn Hsmall Hfuel Run Nr.
  destruct (mm_malloc_spec st bs fl n fuel R AL Hn Hsmall Hfuel) as (r0 & st0 & Run0 & Hcase).
  rewrite Run in Run0. injection Run0 as Er Es. subst r0 st0.
  destruct Hcase as [[E _]|(_ & bs' & fl' & sr & R' & _ & G & K & AK & _ & Pr & _ & Nold & _)];
    [contradiction|].
  destruct G as (Elo & _).
  exists bs', fl', sr. unfold allocated_at. rewrite Elo.
  split; [exact R'|]. split; [exact Pr|].
  intros y sy Hy. split; [apply AK; exact Hy|]. split.
  - pose proof (Forall_wf_user_block _ (rep_wf _ _ _ R')) as W'.
    rewrite <- Elo in Pr. pose proof (AK y sy Hy) as Hy'. rewrite <- Elo in Hy'.
    destruct (placed_sep _ _ _ _ _ _ W' Pr Hy') as [[E _]|D].
    + exfalso. subst y. apply (Nold sy). exact Hy.
    + simpl in D. exact D.
  - intros a Ha. apply (K y sy a Hy Ha).
Qed.

Lemma mm_malloc_keeps_witness :
  (Rep heap_one [(32, true)] [] /\ all_listed heap_one [(32, true)] [] /\
   0 < 100 /\ 100 + 31 < wB /\ (length (@nil Z) < 1)%nat /\
   mm_malloc 1 100 heap_one = Ret (65600, exec (mm_malloc 1 100) heap_one) /\
   65600 <> NULL) /\
  exists bs' fl' sr,
    Rep (exec (mm_malloc 1 100) heap_one) bs' fl' /\
    allocated_at (exec (mm_malloc 1 100) heap_one) bs' 65600 sr /\
    forall y sy, allocated_at heap_one [(32, true)] y sy ->
      allocated_at (exec (mm_malloc 1 100) heap_one) bs' y sy /\
      (65600 + sr <= y \/ y + sy <= 65600) /\
      forall a, y <= a < y + sy - 8 ->
                mem (exec (mm_malloc 1 100) heap_one) a = mem heap_one a.
Proof.
  destruct (check_Rep _ _ _ heap_one_rep) as [R AL].
  assert (H1 : 0 < 100) by lia.
  assert (H2 : 100 + 31 < wB) by (unfold wB; lia).
  assert (H3 : (length (@nil Z) < 1)%nat) by (simpl; lia).
  assert (H4 : mm_malloc 1 100 heap_one = Ret (65600, exec (mm_malloc 1 100) heap_one))
    by (vm_compute; reflexivity).
  assert (H5 : 65600 <> NULL) by (vm_compute; discriminate).
  split; [exact (conj R (conj AL (conj H1 (conj H2 (conj H3 (conj H4 H5))))))|].
  exact (mm_malloc_keeps_other_blocks heap_one (exec (mm_malloc 1 100) heap_one)
                                      [(32, true)] [] 100 65600 1%nat
                                      R AL H1 H2 H3 H4 H5).
Defined.

(** X14: when some free block has room for the rounded size, [mm_malloc]
    does not ask the region for memory: it succeeds, the break stays where
    it is, and the block it returns is the first node of the free list
    that is large enough. *)
Theorem mm_malloc_takes_first_fit (st : state) (bs : list block) (fl : list Z)
        (n y c : Z) (fuel : nat) :
  Rep st bs fl -> all_listed st bs fl ->
  0 < n -> n + 31 < wB -> (length fl < fuel)%nat ->
  In (y, (c, false)) (placed (mem_start_brk st + 32) bs) -> realSize_of n <= c ->
  exists r st' f1 f2 cr,
    mm_malloc fuel n st = Ret (r, st') /\
    fl = f1 ++ r :: f2 /\
    In (r, (cr, false)) (placed (mem_start_brk st + 32) bs) /\ realSize_of n <= cr /\
    (forall z sz, In z f1 ->
       In (z, (sz, false)) (placed (mem_start_brk st + 32) bs) -> sz < realSize_of n) /\
    same_region st st' /\ Inv st'.
Proof.
  intros R AL Hn Hsmall Hfuel Py Hc.
  destruct (mm_malloc_blocks st bs fl n fuel R AL Hn Hsmall Hfuel) as (r & st' & Run & Hcase).
  destruct Hcase as [(f1 & f2 & l1 & l2 & cr & fl' & Efl & Ebs & Hr & Hcr & Hbefore & R' & AL' & SR' & _)
                    |[(Hall & _)|(Hall & _)]].
  - exists r, st', f1, f2, cr.
    split; [exact Run|]. split; [exact Efl|]. split.
    { rewrite Ebs, Hr. apply placed_mid. }
    split; [exact Hcr|]. split; [exact Hbefore|]. split; [exact SR'|].
    eexists _, fl'. split; eassumption.
  - pose proof (Hall y c Py). lia.
  - pose proof (Hall y c Py). lia.
Qed.

Lemma mm_malloc_first_fit_witness :
  (Rep heap_two_free [(32, false); (32, true); (32, false)] [65632; 65568] /\
   all_listed heap_two_free [(32, false); (32, true); (32, false)] [65632; 65568] /\
   0 < 8 /\ 8 + 31 < wB /\ (length [65632%Z; 65568%Z] < 3)%nat /\
   In (65568, (32, false))
      (placed (mem_start_brk heap_two_free + 32) [(32, false); (32, true); (32, false)]) /\
   realSize_of 8 <= 32) /\
  exists r st' f1 f2 cr,
    mm_malloc 3 8 heap_two_free = Ret (r, st') /\
    [65632; 65568] = f1 ++ r :: f2 /\
    In (r, (cr, false))
       (placed (mem_start_brk heap_two_free + 32) [(32, false); (32, true); (32, false)]) /\
    realSize_of 8 <= cr /\
    (forall z sz, In z f1 ->
       In (z, (sz, false))
          (placed (mem_start_brk heap_two_free + 32) [(32, false); (32, true); (32, false)]) ->
       sz < realSize_of 8) /\
    same_region heap_two_free st' /\ Inv st'.
Proof.
  destruct (check_Rep _ _ _ heap_two_free_rep) as [R AL].
  assert (H1 : 0 < 8) by lia.
  assert (H2 : 8 + 31 < wB) by (unfold wB; lia).
  assert (H3 : (length [65632%Z; 65568%Z] < 3)%nat) by (simpl; lia).
  assert (H4 : In (65568, (32, false))
                  (placed (mem_start_brk heap_two_free + 32)
                          [(32, false); (32, true); (32, false)]))
    by (vm_compute; left; reflexivity).
  assert (H5 : realSize_of 8 <= 32) by (vm_compute; discriminate).
  split; [exact (conj R (conj AL (conj H1 (conj H2 (conj H3 (conj H4 H5))))))|].
  exact (mm_malloc_takes_first_fit heap_two_free [(32, false); (32, true); (32, false)]
                                   [65632; 65568] 8 65568 32 3%nat R AL H1 H2 H3 H4 H5).
Defined.

(** X15: when no free block has room for the rounded size, [mm_malloc]
    asks the region for exactly the rounded size, whether or not the last
    block is free.  If the region grants it the break moves by that
    amount and the new block starts at the old break, or at the start of
    the free block that ended there; if the region refuses, the result is
    NULL and nothing has changed. *)
Theorem mm_malloc_grows_by_rounded_size (st : state) (bs : list block) (fl : list Z)
        (n : Z) (fuel : nat) :
  Rep st bs fl -> all_listed st bs fl ->
  0 < n -> n + 31 < wB -> (length fl < fuel)%nat ->
  (forall y sy, In (y, (sy, false)) (placed (mem_start_brk st + 32) bs) ->
                sy < realSize_of n) ->
  exists r st',
    mm_malloc fuel n st = Ret (r, st') /\
    ((mem_avail st (mem_brk st) (realSize_of n)
        && (mem_brk st + realSize_of n <? wB) = true /\
      r = mem_brk st - prev_free_size bs /\
      mem_brk st' = mem_brk st + realSize_of n /\
      exists fl',
        Rep st' (grown_blocks bs (realSize_of n)) fl' /\
        all_listed st' (grown_blocks bs (realSize_of n)) fl')
     \/ (mem_avail st (mem_brk st) (realSize_of n)
           && (mem_brk st + realSize_of n <? wB) = false /\
         r = NULL /\ st' = st)).
Proof.
  intros R AL Hn Hsmall Hfuel Hnone.
  destruct (mm_malloc_blocks st bs fl n fuel R AL Hn Hsmall Hfuel) as (r & st' & Run & Hcase).
  exists r, st'. split; [exact Run|].
  destruct Hcase as [(f1 & f2 & l1 & l2 & cr & fl' & _ & Ebs & Hr & Hcr & _)
                    |[(_ & Hav & Er & fl' & R' & AL' & SR' & _)|(_ & Hav & Er & Es)]].
  - exfalso. assert (H : cr < realSize_of n); [|lia].
    apply (Hnone r cr). rewrite Ebs, Hr. apply placed_mid.
  - left. split; [exact Hav|]. split; [exact Er|].
    split; [destruct SR' as (_ & E & _); exact E|].
    exists fl'. split; assumption.
  - right. repeat split; assumption.
Qed.

Lemma mm_malloc_grows_witness :
  (Rep heap_free_next [(32, true); (128, false)] [65600] /\
   all_listed heap_free_next [(32, true); (128, false)] [65600] /\
   0 < 200 /\ 200 + 31 < wB /\ (length [65600%Z] < 2)%nat /\
   (forall y sy,
      In (y, (sy, false))
         (placed (mem_start_brk heap_free_next + 32) [(32, true); (128, false)]) ->
      sy < realSize_of 200)) /\
  exists r st',
    mm_malloc 2 200 heap_free_next = Ret (r, st') /\
    ((mem_avail heap_free_next (mem_brk heap_free_next) (realSize_of 200)
        && (mem_brk heap_free_next + realSize_of 200 <? wB) = true /\
      r = mem_brk heap_free_next - prev_free_size [(32, true); (128, false)] /\
      mem_brk st' = mem_brk heap_free_next + realSize_of 200 /\
      exists fl',
        Rep st' (grown_blocks [(32, true); (128, false)] (realSize_of 200)) fl' /\
        all_listed st' (grown_blocks [(32, true); (128, false)] (realSize_of 200)) fl')
     \/ (mem_avail heap_free_next (mem_brk heap_free_next) (realSize_of 200)
           && (mem_brk heap_free_next + realSize_of 200 <? wB) = false /\
         r = NULL /\ st' = heap_free_next)).
Proof.
  destruct (check_Rep _ _ _ heap_free_next_rep) as [R AL].
  assert (H1 : 0 < 200) by lia.
  assert (H2 : 200 + 31 < wB) by (unfold wB; lia).
  assert (H3 : (length [65600%Z] < 2)%nat) by (simpl; lia).
  assert (H4 : forall y sy,
             In (y, (sy, false))
                (placed (mem_start_brk heap_free_next + 32) [(32, true); (128, false)]) ->
             sy < realSize_of 200).
  { intros y sy Hy. vm_compute in Hy.
    destruct Hy as [E|[E|[]]]; injection E as _ Es; [discriminate|].
    subst sy. vm_compute. reflexivity. }
  split; [exact (conj R (conj AL (conj H1 (conj H2 (conj H3 H4)))))|].
  exact (mm_malloc_grows_by_rounded_size heap_free_next [(32, true); (128, false)] [65600]
                                         200 2%nat R AL H1 H2 H3 H4).
Defined.

(** X16: [mm_malloc] keeps the heap free of adjacent free blocks: when the
    walk over the block chain finds no two free neighbours before the
    call, it finds none after it, whether the block comes from the free
    list or from an extension of the heap. *)
Theorem mm_malloc_keeps_no_adjacent_free (st : state) (bs : list block) (fl : list Z)
        (n : Z) (fuel : nat) :
  Rep st bs fl -> all_listed st bs fl ->
  0 < n -> n + 31 < wB -> (length fl < fuel)%nat -> (length bs + 3 < fuel)%nat ->
  no_adjacent_free fuel st = Some true ->
  exists r st',
    mm_malloc fuel n st = Ret (r, st') /\ Inv st' /\
    no_adjacent_free fuel st' = Some true.
Proof.
  intros R AL Hn Hsmall Hfuel Hlen Hno.
  rewrite (no_adjacent_free_Rep st bs fl fuel R ltac:(lia)) in Hno.
  injection Hno as Hno.
  destruct (mm_malloc_blocks st bs fl n fuel R AL Hn Hsmall Hfuel) as (r & st' & Run & Hcase).
  exists r, st'. split; [exact Run|].
  destruct Hcase as [(f1 & f2 & l1 & l2 & c & fl' & _ & Ebs & _ & _ & _ & R' & AL' & _)
                    |[(_ & _ & _ & fl' & R' & AL' & _)|(_ & _ & _ & Es)]].
  - split; [eexists _, fl'; split; eassumption|].
    rewrite (no_adjacent_free_Rep _ _ _ fuel R').
    + f_equal. apply no_adjb_placed. rewrite Ebs in Hno. exact Hno.
    + rewrite Ebs in Hlen. rewrite !length_app in *.
      change (length [(c, false)]) with 1%nat in Hlen.
      assert (L : (length (placed_blocks c (realSize_of n)) <= 2)%nat)
        by (unfold placed_blocks; destruct (MINBLOCK <=? c - realSize_of n); simpl; lia).
      unfold block in *. lia.
  - split; [eexists _, fl'; split; eassumption|].
    rewrite (no_adjacent_free_Rep _ _ _ fuel R').
    + f_equal. apply no_adjb_grown. exact Hno.
    + pose proof (grown_length bs (realSize_of n)) as L.
      unfold block in *. lia.
  - subst st'. split; [exists bs, fl; split; assumption|].
    rewrite (no_adjacent_free_Rep st bs fl fuel R ltac:(lia)). f_equal. exact Hno.
Qed.

Lemma mm_malloc_no_adjacent_witness :
  (Rep heap_free_next [(32, true); (128, false)] [65600] /\
   all_listed heap_free_next [(32, true); (128, false)] [65600] /\
   0 < 8 /\ 8 + 31 < wB /\ (length [65600%Z] < 6)%nat /\
   (length [(32, true); (128, false)] + 3 < 6)%nat /\
   no_adjacent_free 6 heap_free_next = Some true) /\
  exists r st',
    mm_malloc 6 8 heap_free_next = Ret (r, st') /\ Inv st' /\
    no_adjacent_free 6 st' = Some true.
Proof.
  destruct (check_Rep _ _ _ heap_free_next_rep) as [R AL].
  assert (H1 : 0 < 8) by lia.
  assert (H2 : 8 + 31 < wB) by (unfold wB; lia).
  assert (H3 : (length [65600%Z] < 6)%nat) by (simpl; lia).
  assert (H4 : (length [(32, true); (128, false)] + 3 < 6)%nat) by (simpl; lia).
  assert (H5 : no_adjacent_free 6 heap_free_next = Some true) by (vm_compute; reflexivity).
  split; [exact (conj R (conj AL (conj H1 (conj H2 (conj H3 (conj H4 H5))))))|].
  exact (mm_malloc_keeps_no_adjacent_free heap_free_next [(32, true); (128, false)] [65600]
                                          8 6%nat R AL H1 H2 H3 H4 H5).
Defined.

(** ** mm_free *)

(** X17: [mm_free] of an allocated block leaves a well-formed heap in
    which that address is no longer allocated.  Every other allocated
    block stays allocated with its size and its payload bytes, and the
    break does not move. *)
Theorem mm_free_releases_only_its_block (st : state) (bs : list block) (fl : list Z)
        (p s : Z) :
  Rep st bs fl -> all_listed st bs fl -> allocated_at st bs p s ->
  exists st' bs' fl',
    mm_free p st = Ret (tt, st') /\
    Rep st' bs' fl' /\ all_listed st' bs' fl' /\ same_region st st' /\
    (forall sy, ~ allocated_at st' bs' p sy) /\
    (forall y sy, y <> p -> (allocated_at st bs y sy <-> allocated_at st' bs' y sy)) /\
    (forall y sy a, allocated_at st bs y sy -> y <> p ->
                    y <= a < y + sy - 8 -> mem st' a = mem st a).
Proof.
  intros R AL Pp.
  destruct (mm_free_spec st bs fl p s R AL Pp)
    as (st' & bs' & fl' & Frun & R' & AL' & SR' & K' & AI' & _).
  assert (Elo : mem_start_brk st' = mem_start_brk st) by (destruct SR' as (E & _); exact E).
  exists st', bs', fl'. unfold allocated_at. rewrite Elo.
  split; [exact Frun|]. split; [exact R'|]. split; [exact AL'|]. split; [exact SR'|].
  split; [|split].
  - intros sy H. apply AI' in H. destruct H as [_ H]. apply H. reflexivity.
  - intros y sy Ny. rewrite AI'. tauto.
  - exact K'.
Qed.

Lemma mm_free_releases_witness :
  (Rep heap_two_free [(32, false); (32, true); (32, false)] [65632; 65568] /\
   all_listed heap_two_free [(32, false); (32, true); (32, false)] [65632; 65568] /\
   allocated_at heap_two_free [(32, false); (32, true); (32, false)] 65600 32) /\
  exists st' bs' fl',
    mm_free 65600 heap_two_free = Ret (tt, st') /\
    Rep st' bs' fl' /\ all_listed st' bs' fl' /\ same_region heap_two_free st' /\
    (forall sy, ~ allocated_at st' bs' 65600 sy) /\
    (forall y sy, y <> 65600 ->
       (allocated_at heap_two_free [(32, false); (32, true); (32, false)] y sy
        <-> allocated_at st' bs' y sy)) /\
    (forall y sy a,
       allocated_at heap_two_free [(32, false); (32, true); (32, false)] y sy ->
       y <> 65600 -> y <= a < y + sy - 8 -> mem st' a = mem heap_two_free a).
Proof.
  destruct (check_Rep _ _ _ heap_two_free_rep) as [R AL].
  assert (H1 : allocated_at heap_two_free [(32, false); (32, true); (32, false)] 65600 32)
    by (vm_compute; right; left; reflexivity).
  split; [exact (conj R (conj AL H1))|].
  exact (mm_free_releases_only_its_block heap_two_free
           [(32, false); (32, true); (32, false)] [65632; 65568] 65600 32 R AL H1).
Defined.

(** X18: [mm_free] of a block whose header says free returns at once: a
    second [mm_free] of a block that is still free changes nothing. *)
Theorem mm_free_of_free_block_is_noop (st : state) (bs : list block) (fl : list Z)
        (p s : Z) :
  Rep st bs fl ->
  In (p, (s, false)) (placed (mem_start_brk st + 32) bs) ->
  mm_free p st = Ret (tt, st).
Proof.
  intros R Pp.
  pose proof (rep_lo _ _ _ R) as Hlo. pose proof (rep_top _ _ _ R) as Htop.
  pose proof (Rep_block _ _ _ R _ _ Pp) as (B1 & B2 & S & M & A & Th & Tf).
  simpl fst in *. rewrite tag_free in Th.
  unfold mm_free.
  rewrite (step_alloc_hdr st Hlo Htop p 0) by (so; rewrite Th; apply alloc_plus0; exact M).
  reflexivity.
Qed.

Lemma mm_free_noop_witness :
  (Rep heap_free_next [(32, true); (128, false)] [65600] /\
   In (65600, (128, false))
      (placed (mem_start_brk heap_free_next + 32) [(32, true); (128, false)])) /\
  mm_free 65600 heap_free_next = Ret (tt, heap_free_next).
Proof.
  destruct (check_Rep _ _ _ heap_free_next_rep) as [R _].
  assert (H1 : In (65600, (128, false))
                  (placed (mem_start_brk heap_free_next + 32) [(32, true); (128, false)]))
    by (vm_compute; right; left; reflexivity).
  split; [exact (conj R H1)|].
  exact (mm_free_of_free_block_is_noop heap_free_next [(32, true); (128, false)] [65600]
                                       65600 128 R H1).
Defined.

(** X19: [mm_free] keeps the heap free of adjacent free blocks: when the
    walk over the block chain finds no two free neighbours before the
    call, it finds none after it, because the freed block is merged with
    each free neighbour. *)
Theorem mm_free_keeps_no_adjacent_free (st : state) (bs : list block) (fl : list Z)
        (p s : Z) (fuel : nat) :
  Rep st bs fl -> all_listed st bs fl -> allocated_at st bs p s ->
  (length bs + 1 < fuel)%nat ->
  no_adjacent_free fuel st = Some true ->
  exists st',
    mm_free p st = Ret (tt, st') /\ Inv st' /\
    no_adjacent_free fuel st' = Some true.
Proof.
  intros R AL Pp Hlen Hno.
  rewrite (no_adjacent_free_Rep st bs fl fuel R Hlen) in Hno. injection Hno as Hno.
  destruct (placed_split _ _ _ _ Pp) as (l1 & l2 & Ebs & Hp).
  change (l1 ++ (s, true) :: l2) with (l1 ++ [(s, true)] ++ l2) in Ebs. subst bs.
  destruct (mm_free_blocks _ _ _ _ _ _ R AL Hp) as (st' & Frun & R' & AL' & _).
  exists st'. split; [exact Frun|]. split; [eexists _, _; split; eassumption|].
  destruct (no_adjb_around _ _ _ Hno) as [N1 N2].
  rewrite (no_adjacent_free_Rep _ _ _ fuel R').
  - f_equal. apply no_adjb_merged; assumption.
  - pose proof (merged_length l1 l2 s) as L.
    unfold block in *. lia.
Qed.

Lemma mm_free_no_adjacent_witness :
  (Rep heap_two_free [(32, false); (32, true); (32, false)] [65632; 65568] /\
   all_listed heap_two_free [(32, false); (32, true); (32, false)] [65632; 65568] /\
   allocated_at heap_two_free [(32, false); (32, true); (32, false)] 65600 32 /\
   (length [(32, false); (32, true); (32, false)] + 1 < 5)%nat /\
   no_adjacent_free 5 heap_two_free = Some true) /\
  exists st',
    mm_free 65600 heap_two_free = Ret (tt, st') /\ Inv st' /\
    no_adjacent_free 5 st' = Some true.
Proof.
  destruct (check_Rep _ _ _ heap_two_free_rep) as [R AL].
  assert (H1 : allocated_at heap_two_free [(32, false); (32, true); (32, false)] 65600 32)
    by (vm_compute; right; left; reflexivity).
  assert (H2 : (length [(32, false); (32, true); (32, false)] + 1 < 5)%nat) by (simpl; lia).
  assert (H3 : no_adjacent_free 5 heap_two_free = Some true) by (vm_compute; reflexivity).
  split; [exact (conj R (conj AL (conj H1 (conj H2 H3))))|].
  exact (mm_free_keeps_no_adjacent_free heap_two_free
           [(32, false); (32, true); (32, false)] [65632; 65568] 65600 32 5%nat
           R AL H1 H2 H3).
Defined.

(** X20: the block [mm_free] leaves is found first by the next search: an
    [mm_malloc] right after [mm_free(p)] whose rounded size fits in the
    freed block succeeds without moving the break and returns [p], or the
    start of the free block before [p] that [p] was merged with. *)
Theorem mm_free_then_malloc_reuses_block (st : state) (l1 l2 : list block) (fl : list Z)
        (p s n : Z) (fuel : nat) :
  Rep st (l1 ++ [(s, true)] ++ l2) fl ->
  all_listed st (l1 ++ [(s, true)] ++ l2) fl ->
  p = mem_start_brk st + 32 + total l1 ->
  0 < n -> n + 31 < wB -> realSize_of n <= s -> (length fl + 1 < fuel)%nat ->
  exists st1 st2,
    mm_free p st = Ret (tt, st1) /\
    mm_malloc fuel n st1 = Ret (p - prev_free_size l1, st2) /\
    same_region st st2 /\ Inv st2.
Proof.
  intros R AL Hp Hn Hsmall Hfit Hfuel.
  destruct (mm_free_blocks _ _ _ _ _ _ R AL Hp)
    as (st1 & Frun & R1 & AL1 & SR1 & _ & _ & Len1 & sr & Pr & Ssr).
  assert (Elo : mem_start_brk st1 = mem_start_brk st) by (destruct SR1 as (E & _); exact E).
  assert (Hfuel1 : (length ((p - prev_free_size l1)%Z
                      :: remove Z.eq_dec (p + s)%Z
                           (remove Z.eq_dec (p - prev_free_size l1)%Z fl)) < fuel)%nat)
    by (simpl; lia).
  destruct (mm_malloc_blocks st1 _ _ n fuel R1 AL1 Hn Hsmall Hfuel1)
    as (r & st2 & Mrun & Hcase).
  rewrite Elo in Hcase.
  destruct Hcase as [(f1 & f2 & k1 & k2 & c & fl' & Efl & _ & _ & _ & Hbefore & R2 & AL2 & SR2 & _)
                    |[(Hall & _)|(Hall & _)]].
  - destruct f1 as [|z f1].
    + simpl in Efl. injection Efl as Er _. subst r.
      exists st1, st2. split; [exact Frun|]. split; [exact Mrun|].
      split; [eapply same_region_trans; eassumption|].
      eexists _, fl'. split; eassumption.
    + simpl in Efl. injection Efl as Ez _. subst z.
      pose proof (Hbefore _ sr (or_introl eq_refl) Pr). lia.
  - pose proof (Hall _ sr Pr). lia.
  - pose proof (Hall _ sr Pr). lia.
Qed.

Lemma mm_free_then_malloc_witness :
  (Rep heap_two_free ([(32, false)] ++ [(32, true)] ++ [(32, false)]) [65632; 65568] /\
   all_listed heap_two_free ([(32, false)] ++ [(32, true)] ++ [(32, false)])
              [65632; 65568] /\
   65600 = mem_start_brk heap_two_free + 32 + total [(32, false)] /\
   0 < 8 /\ 8 + 31 < wB /\ realSize_of 8 <= 32 /\
   (length [65632%Z; 65568%Z] + 1 < 4)%nat) /\
  exists st1 st2,
    mm_free 65600 heap_two_free = Ret (tt, st1) /\
    mm_malloc 4 8 st1 = Ret (65600 - prev_free_size [(32, false)], st2) /\
    same_region heap_two_free st2 /\ Inv st2.
Proof.
  destruct (check_Rep _ _ _ heap_two_free_rep) as [R AL].
  assert (H1 : 65600 = mem_start_brk heap_two_free + 32 + total [(32, false)])
    by reflexivity.
  assert (H2 : 0 < 8) by lia.
  assert (H3 : 8 + 31 < wB) by (unfold wB; lia).
  assert (H4 : realSize_of 8 <= 32) by (vm_compute; discriminate).
  assert (H5 : (length [65632%Z; 65568%Z] + 1 < 4)%nat) by (simpl; lia).
  split; [exact (conj R (conj AL (conj H1 (conj H2 (conj H3 (conj H4 H5))))))|].
  exact (mm_free_then_malloc_reuses_block heap_two_free [(32, false)] [(32, false)]
                                          [65632; 65568] 65600 32 8 4%nat
                                          R AL H1 H2 H3 H4 H5).
Defined.

(** ** mm_realloc *)

(** X21: when the rounded size fits in the block, [mm_realloc] returns the
    pointer it was given and does not move the break.  The block keeps at
    least the rounded size and the payload bytes that still belong to it;
    every other allocated block keeps its address, size and bytes; and
    when the remainder is smaller than a block nothing is written at
    all. *)
Theorem mm_realloc_in_place_keeps_pointer (st : state) (bs : list block) (fl : list Z)
        (p cur n : Z) (fuel : nat) :
  Rep st bs fl -> all_listed st bs fl -> allocated_at st bs p cur ->
  0 < n -> n + 31 < wB -> realSize_of n <= cur ->
  exists st' bs' fl' sr,
    mm_realloc fuel p n st = Ret (p, st') /\
    Rep st' bs' fl' /\ all_listed st' bs' fl' /\ same_region st st' /\
    allocated_at st' bs' p sr /\ realSize_of n <= sr <= cur /\
    (cur - realSize_of n < MINBLOCK -> st' = st) /\
    (forall i, 0 <= i < sr - 8 -> mem st' (p + i) = mem st (p + i)) /\
    (forall y sy, y <> p ->
       (allocated_at st bs y sy <-> allocated_at st' bs' y sy)) /\
    (forall y sy a, allocated_at st bs y sy ->
       y <> p -> y <= a < y + sy - 8 -> mem st' a = mem st a).
Proof.
  intros R AL Pp Hn Hsmall Hfit.
  destruct (mm_realloc_fits st bs fl p cur n fuel R AL Pp Hn Hsmall Hfit)
    as (st' & bs' & fl' & sr & Run & R' & AL' & SR' & Pp' & Hsr & Hsame & Hb & AI & K).
  assert (Elo : mem_start_brk st' = mem_start_brk st) by (destruct SR' as (E & _); exact E).
  exists st', bs', fl', sr. unfold allocated_at in *. rewrite Elo in *.
  repeat (split; [assumption|]). exact K.
Qed.

Lemma mm_realloc_in_place_witness :
  (Rep heap_written [(128, true)] [] /\ all_listed heap_written [(128, true)] [] /\
   allocated_at heap_written [(128, true)] 65568 128 /\
   0 < 8 /\ 8 + 31 < wB /\ realSize_of 8 <= 128) /\
  exists st' bs' fl' sr,
    mm_realloc 1 65568 8 heap_written = Ret (65568, st') /\
    Rep st' bs' fl' /\ all_listed st' bs' fl' /\ same_region heap_written st' /\
    allocated_at st' bs' 65568 sr /\ realSize_of 8 <= sr <= 128 /\
    (128 - realSize_of 8 < MINBLOCK -> st' = heap_written) /\
    (forall i, 0 <= i < sr - 8 -> mem st' (65568 + i) = mem heap_written (65568 + i)) /\
    (forall y sy, y <> 65568 ->
       (allocated_at heap_written [(128, true)] y sy <-> allocated_at st' bs' y sy)) /\
    (forall y sy a, allocated_at heap_written [(128, true)] y sy ->
       y <> 65568 -> y <= a < y + sy - 8 -> mem st' a = mem heap_written a).
Proof.
  destruct (check_Rep _ _ _ heap_written_rep) as [R AL].
  assert (H1 : allocated_at heap_written [(128, true)] 65568 128)
    by (vm_compute; left; reflexivity).
  assert (H2 : 0 < 8) by lia.
  assert (H3 : 8 + 31 < wB) by (unfold wB; lia).
  assert (H4 : realSize_of 8 <= 128) by (vm_compute; discriminate).
  split; [exact (conj R (conj AL (conj H1 (conj H2 (conj H3 H4)))))|].
  exact (mm_realloc_in_place_keeps_pointer heap_written [(128, true)] [] 65568 128 8 1%nat
                                           R AL H1 H2 H3 H4).
Defined.

(** X22: when the rounded size does not fit in the block, [mm_realloc]
    never grows the block in place, whatever the next block is (for sizes
    below the wrap-around of the size arithmetic): it either returns NULL
    and changes nothing, or returns a different block, allocated for the
    rounded size rounded once more, that holds the old bytes, and the old
    block is no longer allocated; every other allocated block keeps its
    address, size and bytes. *)
Theorem mm_realloc_too_small_always_moves (st : state) (bs : list block) (fl : list Z)
        (p cur n : Z) (fuel : nat) :
  Rep st bs fl -> all_listed st bs fl -> allocated_at st bs p cur ->
  0 < n -> n + 55 + mem_brk st < wB -> (length fl < fuel)%nat ->
  cur < realSize_of n ->
  exists r st',
    mm_realloc fuel p n st = Ret (r, st') /\
    ((r = NULL /\ st' = st) \/
     (r <> NULL /\ r <> p /\
      exists bs' fl' sr,
        Rep st' bs' fl' /\ all_listed st' bs' fl' /\
        allocated_at st' bs' r sr /\ realSize_of (realSize_of n) <= sr /\
        (forall s, ~ allocated_at st' bs' p s) /\
        (forall s, ~ allocated_at st bs r s) /\
        (forall i, 0 <= i < MIN (cur - OVERHEAD) n -> mem st' (r + i) = mem st (p + i)) /\
        (forall y sy, allocated_at st bs y sy -> y <> p ->
           allocated_at st' bs' y sy /\
           forall a, y <= a < y + sy - 8 -> mem st' a = mem st a))).
Proof. exact (mm_realloc_moves st bs fl p cur n fuel). Qed.

Lemma mm_realloc_moves_witness :
  (Rep heap_free_next [(32, true); (128, false)] [65600] /\
   all_listed heap_free_next [(32, true); (128, false)] [65600] /\
   allocated_at heap_free_next [(32, true); (128, false)] 65568 32 /\
   0 < 40 /\ 40 + 55 + mem_brk heap_free_next < wB /\ (length [65600%Z] < 2)%nat /\
   32 < realSize_of 40) /\
  exists r st',
    mm_realloc 2 65568 40 heap_free_next = Ret (r, st') /\
    ((r = NULL /\ st' = heap_free_next) \/
     (r <> NULL /\ r <> 65568 /\
      exists bs' fl' sr,
        Rep st' bs' fl' /\ all_listed st' bs' fl' /\
        allocated_at st' bs' r sr /\ realSize_of (realSize_of 40) <= sr /\
        (forall s, ~ allocated_at st' bs' 65568 s) /\
        (forall s, ~ allocated_at heap_free_next [(32, true); (128, false)] r s) /\
        (forall i, 0 <= i < MIN (32 - OVERHEAD) 40 ->
                   mem st' (r + i) = mem heap_free_next (65568 + i)) /\
        (forall y sy, allocated_at heap_free_next [(32, true); (128, false)] y sy ->
           y <> 65568 ->
           allocated_at st' bs' y sy /\
           forall a, y <= a < y + sy - 8 -> mem st' a = mem heap_free_next a))).
Proof.
  destruct (check_Rep _ _ _ heap_free_next_rep) as [R AL].
  assert (H1 : allocated_at heap_free_next [(32, true); (128, false)] 65568 32)
    by (vm_compute; left; reflexivity).
  assert (H2 : 0 < 40) by lia.
  assert (H3 : 40 + 55 + mem_brk heap_free_next < wB) by (vm_compute; reflexivity).
  assert (H4 : (length [65600%Z] < 2)%nat) by (simpl; lia).
  assert (H5 : 32 < realSize_of 40) by (vm_compute; reflexivity).
  split; [exact (conj R (conj AL (conj H1 (conj H2 (conj H3 (conj H4 H5))))))|].
  exact (mm_realloc_too_small_always_moves heap_free_next [(32, true); (128, false)] [65600]
                                           65568 32 40 2%nat R AL H1 H2 H3 H4 H5).
Defined.

(** ** mm_checkheap and the caller's bytes *)

(** X23: with [verbose] set, [mm_checkheap] on a well-formed heap changes
    nothing but the output.  It writes to [stderr] one line for every
    block from the prologue on, in address order, each with equal header
    and footer fields, and to [stdout] the banner, the complaint about
    the prologue header and the end-of-list line at the epilogue. *)
Theorem mm_checkheap_verbose_lists_blocks (st : state) (bs : list block) (fl : list Z)
        (fuel : nat) :
  Rep st bs fl -> (length bs + 1 < fuel)%nat ->
  exists out,
    mm_checkheap fuel true st = Ret (tt, with_console (console st ++ out) st) /\
    filter to_stderr out = map block_line (placed (heap_listp st) (prologue :: bs)) /\
    filter (fun msg => negb (to_stderr msg)) out
    = [HeapBanner (heap_listp st); BadPrologueHeader; EOL (mem_brk st)].
Proof.
  intros R Hfuel. eexists. split; [apply (mm_checkheap_verbose st bs fl fuel R Hfuel)|].
  destruct (filter_block_lines (placed (heap_listp st) (prologue :: bs))) as [F1 F2].
  split.
  - change (filter to_stderr
              ([HeapBanner (heap_listp st); BadPrologueHeader]
                 ++ map block_line (placed (heap_listp st) (prologue :: bs))
                 ++ [EOL (mem_brk st)]))
      with (filter to_stderr
              (map block_line (placed (heap_listp st) (prologue :: bs))
                 ++ [EOL (mem_brk st)])).
    rewrite filter_app, F1.
    change (filter to_stderr [EOL (mem_brk st)]) with (@nil message). apply app_nil_r.
  - change (filter (fun msg => negb (to_stderr msg))
              ([HeapBanner (heap_listp st); BadPrologueHeader]
                 ++ map block_line (placed (heap_listp st) (prologue :: bs))
                 ++ [EOL (mem_brk st)]))
      with (HeapBanner (heap_listp st) :: BadPrologueHeader
              :: filter (fun msg => negb (to_stderr msg))
                   (map block_line (placed (heap_listp st) (prologue :: bs))
                      ++ [EOL (mem_brk st)])).
    rewrite filter_app, F2. reflexivity.
Qed.

Lemma mm_checkheap_verbose_witness :
  (Rep heap_free_next [(32, true); (128, false)] [65600] /\
   (length [(32, true); (128, false)] + 1 < 4)%nat) /\
  exists out,
    mm_checkheap 4 true heap_free_next
    = Ret (tt, with_console (console heap_free_next ++ out) heap_free_next) /\
    filter to_stderr out
    = map block_line (placed (heap_listp heap_free_next)
                             (prologue :: [(32, true); (128, false)])) /\
    filter (fun msg => negb (to_stderr msg)) out
    = [HeapBanner (heap_listp heap_free_next); BadPrologueHeader;
       EOL (mem_brk heap_free_next)].
Proof.
  destruct (check_Rep _ _ _ heap_free_next_rep) as [R _].
  assert (H1 : (length [(32, true); (128, false)] + 1 < 4)%nat) by (simpl; lia).
  split; [exact (conj R H1)|].
  exact (mm_checkheap_verbose_lists_blocks heap_free_next [(32, true); (128, false)]
                                           [65600] 4%nat R H1).
Defined.

(** X24: the payload of an allocated block holds nothing of the
    allocator's.  Whatever the caller writes into it, and nowhere else,
    the heap stays well formed, and [mm_free] of the block then succeeds
    and leaves a well-formed heap in which the other allocated blocks
    hold the bytes they held. *)
Theorem payload_writes_keep_heap (st : state) (bs : list block) (fl : list Z)
        (p s : Z) (m' : memory) :
  Rep st bs fl -> all_listed st bs fl -> allocated_at st bs p s ->
  (forall a, a < p \/ p + s - 8 <= a -> m' a = mem st a) ->
  Inv (with_mem m' st) /\
  exists st',
    mm_free p (with_mem m' st) = Ret (tt, st') /\ Inv st' /\
    forall y sy a, allocated_at st bs y sy -> y <> p ->
                   y <= a < y + sy - 8 -> mem st' a = mem st a.
Proof.
  intros R AL Pp Hout. unfold allocated_at in *.
  pose proof (Rep_payload_write st bs fl m' p s R Pp Hout) as R2.
  pose proof (all_listed_with_mem st bs fl m' AL) as AL2.
  split; [exists bs, fl; split; assumption|].
  destruct (mm_free_spec (with_mem m' st) bs fl p s R2 AL2 Pp)
    as (st' & bs' & fl' & Frun & R' & AL' & _ & K' & _).
  exists st'. split; [exact Frun|]. split; [exists bs', fl'; split; assumption|].
  intros y sy a Hy Ny Ha. rewrite (K' y sy a Hy Ny Ha). simpl mem. apply Hout.
  pose proof (Forall_wf_user_block _ (rep_wf _ _ _ R)) as W.
  destruct (placed_sep _ _ _ _ _ _ W Hy Pp) as [[E _]|D]; [contradiction|].
  simpl in D. lia.
Qed.

Lemma payload_writes_witness :
  (Rep heap_one [(32, true)] [] /\ all_listed heap_one [(32, true)] [] /\
   allocated_at heap_one [(32, true)] 65568 32 /\
   (forall a, a < 65568 \/ 65568 + 32 - 8 <= a -> scribbled a = mem heap_one a)) /\
  Inv (with_mem scribbled heap_one) /\
  exists st',
    mm_free 65568 (with_mem scribbled heap_one) = Ret (tt, st') /\ Inv st' /\
    forall y sy a, allocated_at heap_one [(32, true)] y sy -> y <> 65568 ->
                   y <= a < y + sy - 8 -> mem st' a = mem heap_one a.
Proof.
  destruct (check_Rep _ _ _ heap_one_rep) as [R AL].
  assert (H1 : allocated_at heap_one [(32, true)] 65568 32)
    by (vm_compute; left; reflexivity).
  assert (H2 : forall a, a < 65568 \/ 65568 + 32 - 8 <= a -> scribbled a = mem heap_one a).
  { intros a Ha. unfold scribbled.
    destruct (Z.leb_spec 65568 a); destruct (Z.ltb_spec a 65592); cbn [andb];
      try reflexivity.
    lia. }
  split; [exact (conj R (conj AL (conj H1 H2)))|].
  exact (payload_writes_keep_heap heap_one [(32, true)] [] 65568 32 scribbled R AL H1 H2).
Defined.

(** ** A client that allocates and frees *)

(** X25: at every quiescent point of a client that calls [mm_init] once
    and then only [mm_malloc] (with sizes below the wrap-around of the
    size arithmetic) and [mm_free] on pointers it holds, the heap is well
    formed with every free block on the free list, the pointers the
    client holds are distinct and are exactly the allocated blocks, and
    the walk over the block chain finds no two adjacent free blocks. *)
Theorem client_heaps_stay_tidy (st : state) (live : list Z) :
  quiescent st live ->
  Inv st /\ NoDup live /\
  exists bs fl,
    Rep st bs fl /\
    (forall p, In p live <-> exists s, allocated_at st bs p s) /\
    (forall k, (length bs + 1 < k)%nat -> no_adjacent_free k st = Some true).
Proof.
  intros Q. destruct (quiescent_tidy st live Q) as (bs & fl & R & AL & Hno & ND & Hlive).
  split; [exists bs, fl; split; assumption|]. split; [exact ND|].
  exists bs, fl. split; [exact R|]. split; [exact Hlive|].
  intros k Hk. rewrite (no_adjacent_free_Rep st bs fl k R Hk). f_equal. exact Hno.
Qed.

Lemma client_heaps_witness :
  quiescent (exec (mm_free 65600) (exec (mm_malloc 1 100) heap_one)) [65568] /\
  Inv (exec (mm_free 65600) (exec (mm_malloc 1 100) heap_one)) /\ NoDup [65568] /\
  exists bs fl,
    Rep (exec (mm_free 65600) (exec (mm_malloc 1 100) heap_one)) bs fl /\
    (forall p, In p [65568] <->
       exists s, allocated_at (exec (mm_free 65600) (exec (mm_malloc 1 100) heap_one))
                              bs p s) /\
    (forall k, (length bs + 1 < k)%nat ->
       no_adjacent_free k (exec (mm_free 65600) (exec (mm_malloc 1 100) heap_one))
       = Some true).
Proof.
  assert (I0 : mm_init (fresh roomy) = Ret (0, heap0)) by (vm_compute; reflexivity).
  assert (Q0 : quiescent heap0 []).
  { apply (q_init (fresh roomy) heap0); [reflexivity|vm_compute; discriminate|reflexivity|exact I0]. }
  assert (M1 : mm_malloc 1 8 heap0 = Ret (65568, heap_one)) by (vm_compute; reflexivity).
  assert (Q1 : quiescent heap_one [65568]).
  { exact (q_malloc heap0 heap_one [] 1%nat 8 65568 Q0 ltac:(lia) ltac:(unfold wB; lia) M1). }
  assert (M2 : mm_malloc 1 100 heap_one = Ret (65600, exec (mm_malloc 1 100) heap_one))
    by (vm_compute; reflexivity).
  assert (Q2 : quiescent (exec (mm_malloc 1 100) heap_one) [65600; 65568]).
  { exact (q_malloc heap_one _ [65568] 1%nat 100 65600 Q1 ltac:(lia) ltac:(unfold wB; lia) M2). }
  assert (F3 : mm_free 65600 (exec (mm_malloc 1 100) heap_one)
               = Ret (tt, exec (mm_free 65600) (exec (mm_malloc 1 100) heap_one)))
    by (vm_compute; reflexivity).
  assert (Q3 : quiescent (exec (mm_free 65600) (exec (mm_malloc 1 100) heap_one)) [65568]).
  { exact (q_free _ _ [65600; 65568] 65600 Q2 (or_introl eq_refl) F3). }
  split; [exact Q3|].
  exact (client_heaps_stay_tidy _ [65568] Q3).
Defined.

(** ** The checker on a damaged heap *)

(** X26: [mm_checkheap] notices a damaged footer.  When the footer word
    of one user block of a well-formed heap is overwritten with a word
    that is not the block's tag (a caller that writes past the end of its
    payload does that), the checker walks the whole heap and its output
    holds the complaint that header and footer do not match. *)
Theorem mm_checkheap_reports_damaged_footer (st : state) (bs : list block) (fl : list Z)
        (x : Z) (b : block) (v : Z) (fuel : nat) :
  Rep st bs fl -> In (x, b) (placed (mem_start_brk st + 32) bs) ->
  0 <= v < wB -> v <> tag b -> (length bs + 1 < fuel)%nat ->
  exists out,
    mm_checkheap fuel false (with_mem (store (mem st) (x + fst b - 8) v) st)
    = Ret (tt, with_console (console st ++ out)
                 (with_mem (store (mem st) (x + fst b - 8) v) st)) /\
    In HeaderFooterMismatch out.
Proof.
  intros R Px Hv Nv Hfuel.
  pose proof (rep_lo _ _ _ R) as Hlo. pose proof (rep_top _ _ _ R) as Htop.
  pose proof (Rep_block _ _ _ R _ _ Px) as (B1 & B2 & S & M & A & Th & Tf).
  pose proof (Rep_wf_all _ _ _ R) as Wall.
  pose proof (placed_user_all _ _ _ _ Px) as Px'.
  set (bad := with_mem (store (mem st) (x + fst b - 8) v) st).
  assert (T : headers (mem bad) (mem_start_brk bad + 8) (prologue :: bs)).
  { intros y c Hin. simpl.
    destruct (rep_tags _ _ _ R y c Hin) as [Hh _]. rewrite <- Hh.
    apply load_store_other.
    pose proof (placed_wf _ _ _ _ _ Wall Hin) as [Wc _].
    destruct (placed_sep _ _ _ _ _ _ Wall Hin Px') as [[E1 E2]|D]; [subst; lia|lia]. }
  assert (Hepi : load (mem bad) (mem_brk bad - 4) = 1).
  { simpl. rewrite load_store_other by lia. exact (rep_epi _ _ _ R). }
  eexists. split.
  - apply (mm_checkheap_report bad bs fuel Hlo Htop (rep_align _ _ _ R) (rep_hl _ _ _ R)
                               (rep_brk _ _ _ R) (rep_wf _ _ _ R) T Hepi Hfuel).
  - apply in_or_app. right. apply in_or_app. right.
    apply in_flat_map. exists (x, b). split; [exact Px'|].
    unfold footer_report. simpl fst. simpl snd. simpl mem.
    rewrite load_store_other by lia.
    rewrite (load_store_same _ _ _ Hv), Th.
    destruct (Z.eqb_spec (tag b) v) as [E|_]; [congruence|]. left. reflexivity.
Qed.

Lemma mm_checkheap_damaged_witness :
  (Rep heap_one [(32, true)] [] /\
   In (65568, (32, true)) (placed (mem_start_brk heap_one + 32) [(32, true)]) /\
   0 <= 0 < wB /\ 0 <> tag (32, true) /\ (length [(32, true)] + 1 < 3)%nat) /\
  exists out,
    mm_checkheap 3 false (with_mem (store (mem heap_one) (65568 + fst (32, true) - 8) 0)
                                   heap_one)
    = Ret (tt, with_console (console heap_one ++ out)
                 (with_mem (store (mem heap_one) (65568 + fst (32, true) - 8) 0) heap_one)) /\
    In HeaderFooterMismatch out.
Proof.
  destruct (check_Rep _ _ _ heap_one_rep) as [R _].
  assert (H1 : In (65568, (32, true)) (placed (mem_start_brk heap_one + 32) [(32, true)]))
    by (vm_compute; left; reflexivity).
  assert (H2 : 0 <= 0 < wB) by (unfold wB; lia).
  assert (H3 : 0 <> tag (32, true)) by (vm_compute; discriminate).
  assert (H4 : (length [(32, true)] + 1 < 3)%nat) by (simpl; lia).
  split; [exact (conj R (conj H1 (conj H2 (conj H3 H4))))|].
  exact (mm_checkheap_reports_damaged_footer heap_one [(32, true)] [] 65568 (32, true) 0
                                             3%nat R H1 H2 H3 H4).
Defined.

(** ** The rounded size *)

(** X27: for a request of [n] bytes below the wrap-around, the size
    [mm_malloc] and [mm_realloc] round to is the least multiple of 8 that
    holds the request, the two tags and the two links ([n + 24] bytes);
    it is never smaller than the smallest block [place] leaves free. *)
Theorem rounded_size_is_least_fit (n : Z) :
  0 < n -> n + 31 < wB ->
  realSize_of n mod 8 = 0 /\ n + OVERHEAD + 2 * PSIZE <= realSize_of n /\
  MINBLOCK <= realSize_of n /\
  forall m, m mod 8 = 0 -> n + OVERHEAD + 2 * PSIZE <= m -> realSize_of n <= m.
Proof.
  intros Hn Hsmall.
  destruct (realSize_small n ltac:(lia) Hsmall) as (E & M & B).
  unfold MINBLOCK, OVERHEAD, PSIZE, DSIZE.
  split; [exact M|]. split; [lia|]. rewrite E. clear E M B.
  split; [Z.div_mod_to_equations; lia|].
  intros m Hm Hle. Z.div_mod_to_equations. lia.
Qed.

Lemma rounded_size_witness :
  (0 < 100 /\ 100 + 31 < wB) /\
  realSize_of 100 mod 8 = 0 /\ 100 + OVERHEAD + 2 * PSIZE <= realSize_of 100 /\
  MINBLOCK <= realSize_of 100 /\
  forall m, m mod 8 = 0 -> 100 + OVERHEAD + 2 * PSIZE <= m -> realSize_of 100 <= m.
Proof.
  assert (H1 : 0 < 100) by lia.
  assert (H2 : 100 + 31 < wB) by (unfold wB; lia).
  split; [exact (conj H1 H2)|].
  exact (rounded_size_is_least_fit 100 H1 H2).
Defined.
